(** * libmngmt: hybrid book cache, worker pool and book service

    A shallow embedding of the cache (internal/cache), the worker pool
    (internal/workers/book_processor.go), the repository contract
    (internal/repository) and the book service (internal/service) of the
    library-management API, together with the properties stated about them.

    Conventions.  Go [int] values are [Z]; Go strings are [string]s of
    bytes; [time.Time] and [time.Duration] are [Z] (nanoseconds);
    a nil-able pointer is an [option]; a Go [map[string]*CacheEntry] is a
    [gmap string CacheEntry].  Calls to the outside world (the Redis
    server, the SQL server, the Go scheduler's choice in a [select]) are
    explicit arguments: the caller of a modelled function says what the
    outside world answered. *)

From Stdlib Require Import ZArith List Ascii String.
From stdpp Require Import base tactics option list strings gmap pretty.

Local Open Scope string_scope.
Local Open Scope list_scope.
Local Open Scope Z_scope.

(** ** Strings and bytes *)

Module Bytes.

(** The bytes of a Go string, each as a number in [0, 256). *)
Fixpoint of_string (s : string) : list Z :=
  match s with
  | EmptyString => []
  | String c r => Z.of_N (N_of_ascii c) :: of_string r
  end.

(** One lowercase hexadecimal digit, as [%x] prints it. *)
Definition hexdigit (n : Z) : ascii :=
  if n <? 10 then ascii_of_N (Z.to_N (48 + n))
  else ascii_of_N (Z.to_N (87 + n)).

(** [%02x] of one byte. *)
Definition hex_byte (b : Z) : string :=
  String (hexdigit ((b / 16) mod 16)) (String (hexdigit (b mod 16)) EmptyString).

(** [%x] of a byte slice or array. *)
Fixpoint hex (bs : list Z) : string :=
  match bs with
  | [] => EmptyString
  | b :: r => hex_byte b +:+ hex r
  end.

(** Little-endian bytes of a 32-bit word. *)
Definition le32 (w : Z) : list Z :=
  [w mod 256; (w / 256) mod 256; (w / 65536) mod 256; (w / 16777216) mod 256].

(** Little-endian bytes of a 64-bit word. *)
Definition le64 (w : Z) : list Z :=
  le32 (w mod 4294967296) ++ le32 ((w / 4294967296) mod 4294967296).

End Bytes.

(** ** crypto/md5

    [md5.Sum] of the Go standard library, written out after RFC 1321 on
    32-bit words held in [Z] with the wrap-around explicit. *)

Module MD5.

Definition wrap (x : Z) : Z := x mod 4294967296.

Definition add32 (x y : Z) : Z := wrap (x + y).

Definition not32 (x : Z) : Z := Z.lxor x 4294967295.

Definition rotl (x n : Z) : Z :=
  Z.lor (wrap (Z.shiftl x n)) (Z.shiftr x (32 - n)).

Definition shifts : list Z :=
  [ 7; 12; 17; 22; 7; 12; 17; 22; 7; 12; 17; 22; 7; 12; 17; 22;
    5;  9; 14; 20; 5;  9; 14; 20; 5;  9; 14; 20; 5;  9; 14; 20;
    4; 11; 16; 23; 4; 11; 16; 23; 4; 11; 16; 23; 4; 11; 16; 23;
    6; 10; 15; 21; 6; 10; 15; 21; 6; 10; 15; 21; 6; 10; 15; 21 ].

Definition table : list Z :=
  [ 0xd76aa478; 0xe8c7b756; 0x242070db; 0xc1bdceee;
    0xf57c0faf; 0x4787c62a; 0xa8304613; 0xfd469501;
    0x698098d8; 0x8b44f7af; 0xffff5bb1; 0x895cd7be;
    0x6b901122; 0xfd987193; 0xa679438e; 0x49b40821;
    0xf61e2562; 0xc040b340; 0x265e5a51; 0xe9b6c7aa;
    0xd62f105d; 0x02441453; 0xd8a1e681; 0xe7d3fbc8;
    0x21e1cde6; 0xc33707d6; 0xf4d50d87; 0x455a14ed;
    0xa9e3e905; 0xfcefa3f8; 0x676f02d9; 0x8d2a4c8a;
    0xfffa3942; 0x8771f681; 0x6d9d6122; 0xfde5380c;
    0xa4beea44; 0x4bdecfa9; 0xf6bb4b60; 0xbebfbc70;
    0x289b7ec6; 0xeaa127fa; 0xd4ef3085; 0x04881d05;
    0xd9d4d039; 0xe6db99e5; 0x1fa27cf8; 0xc4ac5665;
    0xf4292244; 0x432aff97; 0xab9423a7; 0xfc93a039;
    0x655b59c3; 0x8f0ccc92; 0xffeff47d; 0x85845dd1;
    0x6fa87e4f; 0xfe2ce6e0; 0xa3014314; 0x4e0811a1;
    0xf7537e82; 0xbd3af235; 0x2ad7d2bb; 0xeb86d391 ].

(** The four chaining words. *)
Record digest := Digest { dA : Z; dB : Z; dC : Z; dD : Z }.

Definition init : digest :=
  Digest 0x67452301 0xefcdab89 0x98badcfe 0x10325476.

(** Sixteen little-endian words of one 64-byte block. *)
Fixpoint words (bs : list Z) : list Z :=
  match bs with
  | b0 :: b1 :: b2 :: b3 :: r =>
      (b0 + 256 * b1 + 65536 * b2 + 16777216 * b3) :: words r
  | _ => []
  end.

(** Round [i] of the compression function on message words [m]. *)
Definition round (m : list Z) (st : digest) (i : nat) : digest :=
  let '(Digest a b c d) := st in
  let iz := Z.of_nat i in
  let '(f, g) :=
    if iz <? 16 then (Z.lor (Z.land b c) (Z.land (not32 b) d), iz)
    else if iz <? 32 then (Z.lor (Z.land d b) (Z.land (not32 d) c), (5 * iz + 1) mod 16)
    else if iz <? 48 then (Z.lxor (Z.lxor b c) d, (3 * iz + 5) mod 16)
    else (Z.lxor c (Z.lor b (not32 d)), (7 * iz) mod 16) in
  let f' := add32 (add32 (add32 f a) (nth i table 0)) (nth (Z.to_nat g) m 0) in
  Digest d (add32 b (rotl f' (nth i shifts 0))) b c.

Definition block (st : digest) (bs : list Z) : digest :=
  let '(Digest a b c d) := fold_left (round (words bs)) (seq 0 64) st in
  Digest (add32 (dA st) a) (add32 (dB st) b) (add32 (dC st) c) (add32 (dD st) d).

(** The message followed by 0x80, zeros up to 56 modulo 64, and the
    length in bits as a little-endian 64-bit word. *)
Definition pad (msg : list Z) : list Z :=
  let n := Z.of_nat (length msg) in
  let zeros := Z.to_nat ((55 - n) mod 64) in
  msg ++ [128] ++ repeat 0 zeros ++ Bytes.le64 ((8 * n) mod 18446744073709551616).

Fixpoint blocks (fuel : nat) (st : digest) (bs : list Z) : digest :=
  match fuel, bs with
  | S k, _ :: _ => blocks k (block st (firstn 64 bs)) (skipn 64 bs)
  | _, _ => st
  end.

(** [md5.Sum]: the sixteen bytes of the digest. *)
Definition Sum (msg : list Z) : list Z :=
  let p := pad msg in
  let '(Digest a b c d) := blocks (length p) init p in
  Bytes.le32 a ++ Bytes.le32 b ++ Bytes.le32 c ++ Bytes.le32 d.

End MD5.

(** ** Outcomes

    Go errors are their message; [None] is the nil error.  A function that
    can panic returns an [outcome]. *)

Definition error := string.

Inductive outcome (A : Type) : Type :=
| Ret (a : A)
| Panic (msg : string).
Arguments Ret {A} a.
Arguments Panic {A} msg.

(** ** github.com/google/uuid

    A [uuid.UUID] is sixteen bytes; it is held as the number they spell,
    most significant byte first. *)

Definition UUID := Z.

Definition uuid_byte (u : UUID) (i : Z) : Z := (u / 256 ^ (15 - i)) mod 256.

(** [UUID.String]: xxxxxxxx-xxxx-xxxx-xxxx-xxxxxxxxxxxx. *)
Definition uuid_String (u : UUID) : string :=
  let h i := Bytes.hex_byte (uuid_byte u i) in
  h 0 +:+ h 1 +:+ h 2 +:+ h 3 +:+ "-" +:+ h 4 +:+ h 5 +:+ "-" +:+
  h 6 +:+ h 7 +:+ "-" +:+ h 8 +:+ h 9 +:+ "-" +:+
  h 10 +:+ h 11 +:+ h 12 +:+ h 13 +:+ h 14 +:+ h 15.

(** ** internal/models *)

Module Book.
Record t := mk {
  ID : UUID;
  Title : string;
  Author : string;
  ISBN : string;
  Publisher : string;
  Genre : string;
  PublishedAt : Z;
  Pages : Z;
  Language : string;
  Available : bool;
  CreatedAt : Z;
  UpdatedAt : Z
}.
(** The zero value of the struct. *)
Definition zero : t := mk 0 "" "" "" "" "" 0 0 "" false 0 0.
End Book.

Module CreateBookRequest.
Record t := mk {
  Title : string;
  Author : string;
  ISBN : string;
  Publisher : string;
  Genre : string;
  PublishedAt : Z;
  Pages : Z;
  Language : string
}.
End CreateBookRequest.

Module UpdateBookRequest.
Record t := mk {
  Title : option string;
  Author : option string;
  ISBN : option string;
  Publisher : option string;
  Genre : option string;
  PublishedAt : option Z;
  Pages : option Z;
  Language : option string;
  Available : option bool
}.
End UpdateBookRequest.

Module BookFilter.
Record t := mk {
  Author : string;
  Genre : string;
  Language : string;
  Available : option bool;
  Limit : Z;
  Offset : Z
}.
End BookFilter.

Module BooksListResponse.
Record t := mk {
  Books : list Book.t;
  Total : Z;
  Limit : Z;
  Offset : Z
}.
End BooksListResponse.

(** ** internal/cache: keys *)

Definition BookKeyPrefix : string := "book:".
Definition BookListKeyPrefix : string := "books:".
Definition BookListPattern : string := "books:*".

(** [strconv.FormatBool]. *)
Definition FormatBool (b : bool) : string := if b then "true" else "false".

(** The [%d] verb on an [int]. *)
Definition fmt_d (z : Z) : string := pretty z.

(** The string that [GenerateBookListKey] hashes. *)
Definition filterStr (filter : BookFilter.t) : string :=
  let availableStr :=
    match BookFilter.Available filter with
    | Some b => FormatBool b
    | None => ""
    end in
  "author:" +:+ BookFilter.Author filter +:+
  "|genre:" +:+ BookFilter.Genre filter +:+
  "|language:" +:+ BookFilter.Language filter +:+
  "|available:" +:+ availableStr +:+
  "|limit:" +:+ fmt_d (BookFilter.Limit filter) +:+
  "|offset:" +:+ fmt_d (BookFilter.Offset filter).

Definition GenerateBookListKey (filter : BookFilter.t) : string :=
  let hash := MD5.Sum (Bytes.of_string (filterStr filter)) in
  "books:" +:+ Bytes.hex hash.

(** ** internal/cache: the external tier

    The [Cache] interface has two implementations: [RedisCache], a client of
    a Redis server, and [NoOpCache].  The server is a map from keys to a
    value and an optional absolute expiry; the model keeps the decoded value
    where the server keeps its JSON encoding.  Every call says whether the
    round trip to the server went through ([net]). *)

Module Redis.

Inductive value :=
| VBook (b : Book.t)
| VList (r : BooksListResponse.t).

(** The client, with the keys of the server it talks to. *)
Record client := mkClient {
  store : gmap string (value * option Z);
  closed : bool
}.

Definition Nil : error := "redis: nil".
Definition ErrClosed : error := "redis: client is closed".
Definition ErrNet : error := "redis: connection error".

(** The error of a call that does not reach the server, if any. *)
Definition unreachable (r : client) (net : bool) : option error :=
  if closed r then Some ErrClosed
  else if net then None else Some ErrNet.

(** GET: the value under [key] unless it has expired. *)
Definition get (r : client) (now : Z) (key : string) : option value :=
  match store r !! key with
  | Some (v, Some e) => if now <? e then Some v else None
  | Some (v, None) => Some v
  | None => None
  end.

(** SET with go-redis's reading of the expiration argument: positive
    sets an expiry, KeepTTL (-1) keeps the one in place, anything else
    stores without expiry. *)
Definition set (r : client) (now : Z) (key : string) (v : value) (ttl : Z) : client :=
  let e :=
    if 0 <? ttl then Some (now + ttl)
    else if ttl =? -1 then
      match store r !! key with
      | Some (_, Some e) => if now <? e then Some e else None
      | _ => None
      end
    else None in
  mkClient (<[key := (v, e)]> (store r)) (closed r).

Definition del (r : client) (key : string) : client :=
  mkClient (delete key (store r)) (closed r).

(** The glob patterns of SCAN MATCH with [*] and [?]; the patterns the
    cache passes use no other construct. *)
Fixpoint glob (pat s : string) : bool :=
  match pat with
  | EmptyString => match s with EmptyString => true | _ => false end
  | String c pat' =>
      if Ascii.eqb c "*" then
        (fix star (s : string) : bool :=
           glob pat' s ||
           match s with
           | EmptyString => false
           | String _ s' => star s'
           end) s
      else
        match s with
        | EmptyString => false
        | String d s' =>
            (Ascii.eqb c "?" || Ascii.eqb c d) && glob pat' s'
        end
  end.

(** SCAN MATCH pattern followed by DEL of the keys found. *)
Definition del_pattern (r : client) (pattern : string) : client :=
  mkClient (filter (λ kv, glob pattern kv.1 = false) (store r)) (closed r).

End Redis.

Inductive Cache :=
| RedisCache (r : Redis.client)
| NoOpCache.

Module CacheImpl.

(** [GetBook]: the key is "book:" followed by the id.  Decoding a stored
    document of the other kind leaves the zero value, without error:
    encoding/json skips the fields it does not know. *)
Definition GetBook (c : Cache) (net : bool) (now : Z) (id : string)
  : option Book.t * option error :=
  match c with
  | RedisCache r =>
      let key := "book:" +:+ id in
      match Redis.unreachable r net with
      | Some e => (None, Some e)
      | None =>
          match Redis.get r now key with
          | Some (Redis.VBook b) => (Some b, None)
          | Some (Redis.VList _) => (Some Book.zero, None)
          | None => (None, Some Redis.Nil)
          end
      end
  | NoOpCache => (None, Some Redis.Nil)
  end.

Definition SetBook (c : Cache) (net : bool) (now : Z) (book : Book.t) (ttl : Z)
  : Cache * option error :=
  match c with
  | RedisCache r =>
      let key := "book:" +:+ uuid_String (Book.ID book) in
      match Redis.unreachable r net with
      | Some e => (c, Some e)
      | None => (RedisCache (Redis.set r now key (Redis.VBook book) ttl), None)
      end
  | NoOpCache => (c, None)
  end.

Definition DeleteBook (c : Cache) (net : bool) (id : string) : Cache * option error :=
  match c with
  | RedisCache r =>
      let key := "book:" +:+ id in
      match Redis.unreachable r net with
      | Some e => (c, Some e)
      | None => (RedisCache (Redis.del r key), None)
      end
  | NoOpCache => (c, None)
  end.

Definition GetBookList (c : Cache) (net : bool) (now : Z) (key : string)
  : option BooksListResponse.t * option error :=
  match c with
  | RedisCache r =>
      match Redis.unreachable r net with
      | Some e => (None, Some e)
      | None =>
          match Redis.get r now key with
          | Some (Redis.VList l) => (Some l, None)
          | Some (Redis.VBook _) => (Some (BooksListResponse.mk [] 0 0 0), None)
          | None => (None, Some Redis.Nil)
          end
      end
  | NoOpCache => (None, Some Redis.Nil)
  end.

Definition SetBookList (c : Cache) (net : bool) (now : Z) (key : string)
    (response : BooksListResponse.t) (ttl : Z) : Cache * option error :=
  match c with
  | RedisCache r =>
      match Redis.unreachable r net with
      | Some e => (c, Some e)
      | None => (RedisCache (Redis.set r now key (Redis.VList response) ttl), None)
      end
  | NoOpCache => (c, None)
  end.

Definition DeleteBookListCache (c : Cache) (net : bool) (pattern : string)
  : Cache * option error :=
  match c with
  | RedisCache r =>
      match Redis.unreachable r net with
      | Some e => (c, Some e)
      | None => (RedisCache (Redis.del_pattern r pattern), None)
      end
  | NoOpCache => (c, None)
  end.

Definition Ping (c : Cache) (net : bool) : option error :=
  match c with
  | RedisCache r => Redis.unreachable r net
  | NoOpCache => None
  end.

Definition Close (c : Cache) : Cache * option error :=
  match c with
  | RedisCache r =>
      if Redis.closed r then (c, Some Redis.ErrClosed)
      else (RedisCache (Redis.mkClient (Redis.store r) true), None)
  | NoOpCache => (c, None)
  end.

End CacheImpl.

(** ** internal/cache: BookCache *)

(** [CacheEntry.Data], an [interface{}]: a book, a list response, or a
    value put there by the legacy [Set]. *)
Inductive Data :=
| DBook (b : Book.t)
| DList (r : BooksListResponse.t)
| DOther (tag : string).

Record CacheEntry := mkEntry {
  entry_Data : Data;
  ExpiresAt : Z
}.

Record CacheStats := mkStats {
  Hits : Z;
  Misses : Z;
  Items : Z;
  Evictions : Z;
  RedisHits : Z;
  MemoryHits : Z
}.

(** [x++] on an [int64]. *)
Definition inc64 (x : Z) : Z :=
  if x =? 9223372036854775807 then -9223372036854775808 else x + 1.

(** Work handed to a goroutine that has not run yet. *)
Inductive Async :=
| DeleteLocal (key : string)
| FlushRedis.

Record BookCache := mkCache {
  redis : option Cache;
  inMemory : gmap string CacheEntry;
  ttl : Z;
  cleanup_closed : bool;      (* the [cleanup] channel has been closed *)
  cancelled : bool;           (* [cancel] has been called on [ctx] *)
  stats : CacheStats;
  useRedis : bool;
  sweeper : bool;             (* the [cleanupExpired] goroutine was started *)
  spawned : list Async        (* goroutines started and not yet run *)
}.

Module BookCacheOps.

Definition with_inMemory (c : BookCache) (m : gmap string CacheEntry) : BookCache :=
  mkCache (redis c) m (ttl c) (cleanup_closed c) (cancelled c) (stats c)
          (useRedis c) (sweeper c) (spawned c).

Definition with_redis (c : BookCache) (r : Cache) : BookCache :=
  mkCache (Some r) (inMemory c) (ttl c) (cleanup_closed c) (cancelled c) (stats c)
          (useRedis c) (sweeper c) (spawned c).

Definition with_stats (c : BookCache) (st : CacheStats) : BookCache :=
  mkCache (redis c) (inMemory c) (ttl c) (cleanup_closed c) (cancelled c) st
          (useRedis c) (sweeper c) (spawned c).

Definition spawn (c : BookCache) (a : Async) : BookCache :=
  mkCache (redis c) (inMemory c) (ttl c) (cleanup_closed c) (cancelled c) (stats c)
          (useRedis c) (sweeper c) (spawned c ++ [a]).

Definition hit_redis (st : CacheStats) : CacheStats :=
  mkStats (inc64 (Hits st)) (Misses st) (Items st) (Evictions st)
          (inc64 (RedisHits st)) (MemoryHits st).

Definition hit_memory (st : CacheStats) : CacheStats :=
  mkStats (inc64 (Hits st)) (Misses st) (Items st) (Evictions st)
          (RedisHits st) (inc64 (MemoryHits st)).

Definition miss (st : CacheStats) : CacheStats :=
  mkStats (Hits st) (inc64 (Misses st)) (Items st) (Evictions st)
          (RedisHits st) (MemoryHits st).

(** The external tier as the methods use it: [c.redis] under the guard
    [c.useRedis].  [NewBookCache], the only constructor, sets [useRedis]
    only with a non-nil [redis]; a cache with [useRedis] and no [redis]
    does not arise and is read as local-only.  A call made with the
    cancelled [c.ctx] does not go through. *)
Definition external (c : BookCache) : option Cache :=
  if useRedis c then redis c else None.

Definition reach (c : BookCache) (net : bool) : bool := net && negb (cancelled c).

Definition NewBookCache (ttl cleanupInterval : Z) (redisCache : option Cache)
    (net : bool) : BookCache :=
  let use :=
    match redisCache with
    | Some r => match CacheImpl.Ping r net with None => true | Some _ => false end
    | None => false
    end in
  mkCache redisCache ∅ ttl false false (mkStats 0 0 0 0 0 0) use (negb use) [].

(** The in-memory half of [GetBook], [GetBookList] and [Get]. *)
Definition lookup_local (c : BookCache) (key : string) (now : Z)
  : option Data * BookCache :=
  match inMemory c !! key with
  | None => (None, with_stats c (miss (stats c)))
  | Some entry =>
      if ExpiresAt entry <? now
      then (None, with_stats (spawn c (DeleteLocal key)) (miss (stats c)))
      else (Some (entry_Data entry), with_stats c (hit_memory (stats c)))
  end.

Definition GetBook (c : BookCache) (id : UUID) (now : Z) (net : bool)
  : (option Book.t * bool) * BookCache :=
  let key := uuid_String id in
  let fallback :=
    match lookup_local c key now with
    | (Some (DBook book), c') => ((Some book, true), c')
    | (_, c') => ((None, false), c')
    end in
  match external c with
  | Some r =>
      match CacheImpl.GetBook r (reach c net) now key with
      | (book, None) => ((book, true), with_stats c (hit_redis (stats c)))
      | (_, Some _) => fallback
      end
  | None => fallback
  end.

Definition SetBook (c : BookCache) (book : Book.t) (now : Z) (net : bool) : BookCache :=
  let key := uuid_String (Book.ID book) in
  let c1 :=
    match external c with
    | Some r => with_redis c (CacheImpl.SetBook r (reach c net) now book (ttl c)).1
    | None => c
    end in
  with_inMemory c1 (<[key := mkEntry (DBook book) (now + ttl c)]> (inMemory c1)).

Definition GetBookList (c : BookCache) (filter : BookFilter.t) (now : Z) (net : bool)
  : (option BooksListResponse.t * bool) * BookCache :=
  let key := GenerateBookListKey filter in
  let fallback :=
    match lookup_local c key now with
    | (Some (DList response), c') => ((Some response, true), c')
    | (_, c') => ((None, false), c')
    end in
  match external c with
  | Some r =>
      match CacheImpl.GetBookList r (reach c net) now key with
      | (response, None) => ((response, true), with_stats c (hit_redis (stats c)))
      | (_, Some _) => fallback
      end
  | None => fallback
  end.

Definition SetBookList (c : BookCache) (filter : BookFilter.t)
    (response : BooksListResponse.t) (now : Z) (net : bool) : BookCache :=
  let key := GenerateBookListKey filter in
  let c1 :=
    match external c with
    | Some r =>
        with_redis c (CacheImpl.SetBookList r (reach c net) now key response (ttl c)).1
    | None => c
    end in
  with_inMemory c1 (<[key := mkEntry (DList response) (now + ttl c)]> (inMemory c1)).

(** The loop of [InvalidateBook] over the in-memory map: every key of
    length 32 other than [key] goes. *)
Definition drop_len32 (key : string) (m : gmap string CacheEntry)
  : gmap string CacheEntry :=
  filter (λ kv, negb ((String.length kv.1 =? 32)%nat && negb (String.eqb kv.1 key)) = true) m.

Definition InvalidateBook (c : BookCache) (id : UUID) (net1 net2 : bool) : BookCache :=
  let key := uuid_String id in
  let c1 :=
    match external c with
    | Some r =>
        let r1 := (CacheImpl.DeleteBook r (reach c net1) key).1 in
        let r2 := (CacheImpl.DeleteBookListCache r1 (reach c net2) BookListPattern).1 in
        with_redis c r2
    | None => c
    end in
  with_inMemory c1 (drop_len32 key (delete key (inMemory c1))).

(** The legacy methods, on the in-memory tier only. *)
Definition Get (c : BookCache) (key : string) (now : Z) : (option Data * bool) * BookCache :=
  match lookup_local c key now with
  | (Some d, c') => ((Some d, true), c')
  | (None, c') => ((None, false), c')
  end.

Definition Set_ (c : BookCache) (key : string) (data : Data) (now : Z) : BookCache :=
  with_inMemory c (<[key := mkEntry data (now + ttl c)]> (inMemory c)).

Definition Delete (c : BookCache) (key : string) : BookCache :=
  with_inMemory c (delete key (inMemory c)).

(** [Clear]: the external flush is left to a goroutine, the in-memory
    map is emptied at once, book entries and list entries alike. *)
Definition Clear (c : BookCache) : BookCache :=
  let c1 := match external c with Some _ => spawn c FlushRedis | None => c end in
  with_inMemory c1 ∅.

Definition Size (c : BookCache) : Z := Z.of_nat (size (inMemory c)).

Definition Stats (c : BookCache) : CacheStats :=
  let st := stats c in
  mkStats (Hits st) (Misses st) (Size c) (Evictions st) (RedisHits st) (MemoryHits st).

(** [Shutdown]: cancel, close the [cleanup] channel, close the client.
    Closing a closed channel panics. *)
Definition Shutdown (c : BookCache) : outcome BookCache :=
  if cleanup_closed c then Panic "close of closed channel"
  else
    let r' :=
      match external c with
      | Some r => Some (CacheImpl.Close r).1
      | None => redis c
      end in
    Ret (mkCache r' (inMemory c) (ttl c) true true (stats c)
                 (useRedis c) (sweeper c) (spawned c)).

(** One tick of [cleanupExpired]; the goroutine runs only when it was
    started and until the context is cancelled. *)
Definition cleanupExpired_tick (c : BookCache) (now : Z) : BookCache :=
  if sweeper c && negb (cancelled c) then
    let expired := filter (λ kv, (ExpiresAt kv.2 <? now) = true) (inMemory c) in
    let kept := filter (λ kv, (ExpiresAt kv.2 <? now) = false) (inMemory c) in
    let st := stats c in
    let n := Z.of_nat (size expired) in
    with_stats (with_inMemory c kept)
      (mkStats (Hits st) (Misses st) (Items st)
               (Z.iter n inc64 (Evictions st)) (RedisHits st) (MemoryHits st))
  else c.

(** A spawned goroutine runs: the first one in the list. *)
Definition run_spawned (c : BookCache) (net1 net2 : bool) : BookCache :=
  match spawned c with
  | [] => c
  | a :: rest =>
      let c0 := mkCache (redis c) (inMemory c) (ttl c) (cleanup_closed c)
                        (cancelled c) (stats c) (useRedis c) (sweeper c) rest in
      match a with
      | DeleteLocal key => with_inMemory c0 (delete key (inMemory c0))
      | FlushRedis =>
          match redis c0 with
          | Some r =>
              let r1 := (CacheImpl.DeleteBookListCache r net1 "book:*").1 in
              let r2 := (CacheImpl.DeleteBookListCache r1 net2 "books:*").1 in
              with_redis c0 r2
          | None => c0
          end
      end
  end.

End BookCacheOps.


(** ** The strings package *)

Module Strings.

Definition byte_of (n : nat) : ascii := ascii_of_nat n.

(** The six ASCII white-space bytes of [unicode.IsSpace]. *)
Definition ascii_space (c : ascii) : bool :=
  let n := nat_of_ascii c in
  ((9 <=? n) && (n <=? 13) || (n =? 32))%nat.

(** The other white-space runes, by their UTF-8 bytes: U+0085 and
    U+00A0 take two bytes, U+1680, U+2000..U+200A, U+2028, U+2029,
    U+202F, U+205F and U+3000 take three. *)
Definition space2 (c1 c2 : ascii) : bool :=
  let a := nat_of_ascii c1 in
  let b := nat_of_ascii c2 in
  ((a =? 194) && ((b =? 133) || (b =? 160)))%nat.

Definition space3 (c1 c2 c3 : ascii) : bool :=
  let a := nat_of_ascii c1 in
  let b := nat_of_ascii c2 in
  let c := nat_of_ascii c3 in
  ((a =? 225) && (b =? 154) && (c =? 128)
   || (a =? 226) && (b =? 128)
      && ((128 <=? c) && (c <=? 138) || (c =? 168) || (c =? 169) || (c =? 175))
   || (a =? 226) && (b =? 129) && (c =? 159)
   || (a =? 227) && (b =? 128) && (c =? 128))%nat.

(** [TrimLeftFunc(s, unicode.IsSpace)]. *)
Fixpoint trim_left (s : string) : string :=
  match s with
  | EmptyString => s
  | String c1 r1 =>
      if ascii_space c1 then trim_left r1
      else
        match r1 with
        | EmptyString => s
        | String c2 r2 =>
            if space2 c1 c2 then trim_left r2
            else
              match r2 with
              | EmptyString => s
              | String c3 r3 => if space3 c1 c2 c3 then trim_left r3 else s
              end
        end
  end.

(** The same from the end, on the reversed string. *)
Fixpoint trim_left_rev (s : string) : string :=
  match s with
  | EmptyString => s
  | String c1 r1 =>
      if ascii_space c1 then trim_left_rev r1
      else
        match r1 with
        | EmptyString => s
        | String c2 r2 =>
            if space2 c2 c1 then trim_left_rev r2
            else
              match r2 with
              | EmptyString => s
              | String c3 r3 => if space3 c3 c2 c1 then trim_left_rev r3 else s
              end
        end
  end.

Definition trim_right (s : string) : string :=
  String.rev (trim_left_rev (String.rev s)).

(** [strings.TrimSpace]. *)
Definition TrimSpace (s : string) : string := trim_right (trim_left s).

(** [strings.ReplaceAll(s, old, empty)] for a one-byte [old]. *)
Fixpoint remove_byte (c : ascii) (s : string) : string :=
  match s with
  | EmptyString => EmptyString
  | String d r => if Ascii.eqb c d then remove_byte c r else String d (remove_byte c r)
  end.

(** [len(s)] of a Go string, as an [int]. *)
Definition len (s : string) : Z := Z.of_nat (String.length s).

(** [s[i:j]]. *)
Definition slice (s : string) (i j : nat) : string := String.substring i (j - i) s.

End Strings.

(** ** internal/workers *)

Definition JobType := Z.
Definition JobTypeValidate : JobType := 0.
Definition JobTypeProcess : JobType := 1.
Definition JobTypeNotify : JobType := 2.

(** [BookJob]; its [Callback] field is never read and is left out. *)
Record BookJob := mkJob {
  job_ID : string;
  job_Type : JobType;
  BookData : option CreateBookRequest.t;
  UpdateData : option UpdateBookRequest.t
}.

Record BookResult := mkResult {
  JobID : string;
  Success : bool;
  Error : option error;
  result_Book : option Book.t;
  Message : string
}.

(** A buffered channel: what is buffered, oldest first, the capacity, and
    whether it has been closed.  A send puts the value in the buffer; the
    rendezvous of an unbuffered channel is not modelled, so the pool is
    the one built with a positive [bufferSize]. *)
Record chan (A : Type) := mkChan {
  buf : list A;
  cap : Z;
  chan_closed : bool
}.
Arguments mkChan {A} buf cap chan_closed.
Arguments buf {A} c.
Arguments cap {A} c.
Arguments chan_closed {A} c.

(** The order in which a two-way [select] polls its cases: the channel
    operation first or the [ctx.Done()] receive first.  The runtime draws
    it at random; the first ready case in that order is taken. *)
Inductive Poll := ChanFirst | DoneFirst.

(** A worker goroutine: at its outer [select], at its inner [select] with
    a result to send, or returned. *)
Inductive Worker :=
| WLoop
| WSend (r : BookResult)
| WDone.

Inductive Collector := CLoop | CDone.

Record BookProcessor := mkProcessor {
  workers : Z;
  jobQueue : chan BookJob;
  resultChan : chan BookResult;
  ctx_done : bool;                 (* [cancel] has been called *)
  wg : Z;
  pool : list Worker;              (* the [worker] goroutines started *)
  collectors : list Collector;     (* the [resultProcessor] goroutines started *)
  processed : list BookJob;        (* jobs given to [processJob], in order *)
  logged : list BookResult         (* results the collector has logged *)
}.

Module Pool.

Definition NewBookProcessor (workers bufferSize : Z) : outcome BookProcessor :=
  if bufferSize <? 0 then Panic "makechan: size out of range"
  else Ret (mkProcessor workers (mkChan [] bufferSize false)
                        (mkChan [] bufferSize false) false 0 [] [] [] []).

Definition Start (bp : BookProcessor) : BookProcessor :=
  let n := Z.to_nat (workers bp) in
  mkProcessor (workers bp) (jobQueue bp) (resultChan bp) (ctx_done bp)
              (wg bp + Z.of_nat n + 1)
              (pool bp ++ repeat WLoop n) (collectors bp ++ [CLoop])
              (processed bp) (logged bp).

(** [processJob], without the sleep. *)
Definition processJob (job : BookJob) : BookResult :=
  let ty := job_Type job in
  if ty =? JobTypeValidate then
    match BookData job with
    | Some d =>
        if String.eqb (CreateBookRequest.Title d) ""
        then mkResult (job_ID job) false (Some "title is required") None
                      "Book validation completed"
        else mkResult (job_ID job) true None None "Book validation completed"
    | None => mkResult (job_ID job) true None None "Book validation completed"
    end
  else if ty =? JobTypeProcess then
    match BookData job with
    | Some d =>
        mkResult (job_ID job) true None
          (Some (Book.mk 0 (CreateBookRequest.Title d) (CreateBookRequest.Author d)
                   (CreateBookRequest.ISBN d) "" "" 0 0 "" false 0 0))
          "Book processing completed"
    | None => mkResult (job_ID job) true None None "Book processing completed"
    end
  else if ty =? JobTypeNotify then
    mkResult (job_ID job) true None None "Notification sent"
  else
    mkResult (job_ID job) false (Some ("unknown job type: " +:+ fmt_d ty)) None "".

(** [bp.cancel()]. *)
Definition cancel (bp : BookProcessor) : BookProcessor :=
  mkProcessor (workers bp) (jobQueue bp) (resultChan bp) true (wg bp)
              (pool bp) (collectors bp) (processed bp) (logged bp).

Definition close {A} (c : chan A) : outcome (chan A) :=
  if chan_closed c then Panic "close of closed channel"
  else Ret (mkChan (buf c) (cap c) true).

(** A send can proceed on a closed channel (it panics) or when the
    buffer has room; a receive on a closed channel or when something is
    buffered. *)
Definition send_ready {A} (c : chan A) : bool :=
  chan_closed c || (Z.of_nat (length (buf c)) <? cap c).

Definition recv_ready {A} (c : chan A) : bool :=
  chan_closed c || negb (bool_decide (buf c = [])).

Definition send {A} (c : chan A) (x : A) : outcome (chan A) :=
  if chan_closed c then Panic "send on closed channel"
  else Ret (mkChan (buf c ++ [x]) (cap c) false).

(** The case a two-way [select] takes: [Some true] the channel
    operation, [Some false] the [ctx.Done()] receive, [None] neither is
    ready. *)
Definition select2 (poll : Poll) (chan_ready done_ready : bool) : option bool :=
  match poll with
  | ChanFirst =>
      if chan_ready then Some true else if done_ready then Some false else None
  | DoneFirst =>
      if done_ready then Some false else if chan_ready then Some true else None
  end.

(** [SubmitJob]: the [select] has a [default], so it never waits. *)
Definition SubmitJob (bp : BookProcessor) (job : BookJob) (poll : Poll)
  : outcome (option error * BookProcessor) :=
  match select2 poll (send_ready (jobQueue bp)) (ctx_done bp) with
  | Some true =>
      match send (jobQueue bp) job with
      | Ret q =>
          Ret (None, mkProcessor (workers bp) q (resultChan bp) (ctx_done bp) (wg bp)
                                 (pool bp) (collectors bp) (processed bp) (logged bp))
      | Panic msg => Panic msg
      end
  | Some false => Ret (Some "processor is shutting down", bp)
  | None => Ret (Some "job queue is full", bp)
  end.

Definition set_worker (bp : BookProcessor) (i : nat) (w : Worker)
    (q : chan BookJob) (rc : chan BookResult) (done : list BookJob) (dwg : Z)
  : BookProcessor :=
  mkProcessor (workers bp) q rc (ctx_done bp) (wg bp - dwg)
              (<[i := w]> (pool bp)) (collectors bp) done (logged bp).

(** One move of worker [i]: [None] when the goroutine is parked at a
    [select] with no case ready, has returned, or does not exist. *)
Definition worker_step (bp : BookProcessor) (i : nat) (poll : Poll)
  : option (outcome BookProcessor) :=
  match pool bp !! i with
  | Some WLoop =>
      match select2 poll (recv_ready (jobQueue bp)) (ctx_done bp) with
      | Some true =>
          match buf (jobQueue bp) with
          | job :: rest =>
              let q := mkChan rest (cap (jobQueue bp)) (chan_closed (jobQueue bp)) in
              Some (Ret (set_worker bp i (WSend (processJob job)) q (resultChan bp)
                                    (processed bp ++ [job]) 0))
          | [] =>
              Some (Ret (set_worker bp i WDone (jobQueue bp) (resultChan bp)
                                    (processed bp) 1))
          end
      | Some false =>
          Some (Ret (set_worker bp i WDone (jobQueue bp) (resultChan bp) (processed bp) 1))
      | None => None
      end
  | Some (WSend result) =>
      match select2 poll (send_ready (resultChan bp)) (ctx_done bp) with
      | Some true =>
          match send (resultChan bp) result with
          | Ret rc =>
              Some (Ret (set_worker bp i WLoop (jobQueue bp) rc (processed bp) 0))
          | Panic msg => Some (Panic msg)
          end
      | Some false =>
          Some (Ret (set_worker bp i WDone (jobQueue bp) (resultChan bp) (processed bp) 1))
      | None => None
      end
  | Some WDone | None => None
  end.

(** One move of result processor [k]. *)
Definition collector_step (bp : BookProcessor) (k : nat) (poll : Poll)
  : option BookProcessor :=
  match collectors bp !! k with
  | Some CLoop =>
      match select2 poll (recv_ready (resultChan bp)) (ctx_done bp) with
      | Some true =>
          match buf (resultChan bp) with
          | result :: rest =>
              Some (mkProcessor (workers bp) (jobQueue bp)
                      (mkChan rest (cap (resultChan bp)) (chan_closed (resultChan bp)))
                      (ctx_done bp) (wg bp) (pool bp) (collectors bp)
                      (processed bp) (logged bp ++ [result]))
          | [] =>
              Some (mkProcessor (workers bp) (jobQueue bp) (resultChan bp)
                      (ctx_done bp) (wg bp - 1) (pool bp) (<[k := CDone]> (collectors bp))
                      (processed bp) (logged bp))
          end
      | Some false =>
          Some (mkProcessor (workers bp) (jobQueue bp) (resultChan bp)
                  (ctx_done bp) (wg bp - 1) (pool bp) (<[k := CDone]> (collectors bp))
                  (processed bp) (logged bp))
      | None => None
      end
  | _ => None
  end.

(** [Stop] up to its [wg.Wait()]: cancel, then close the job queue. *)
Definition Stop_signal (bp : BookProcessor) : outcome BookProcessor :=
  let bp1 := cancel bp in
  match close (jobQueue bp1) with
  | Ret q =>
      Ret (mkProcessor (workers bp1) q (resultChan bp1) (ctx_done bp1) (wg bp1)
                       (pool bp1) (collectors bp1) (processed bp1) (logged bp1))
  | Panic msg => Panic msg
  end.

(** [Stop] from its [wg.Wait()] on: once the counter is zero the result
    channel is closed and [Stop] returns; [None] while it waits. *)
Definition Stop_finish (bp : BookProcessor) : option (outcome BookProcessor) :=
  if wg bp =? 0 then
    match close (resultChan bp) with
    | Ret rc =>
        Some (Ret (mkProcessor (workers bp) (jobQueue bp) rc (ctx_done bp) (wg bp)
                               (pool bp) (collectors bp) (processed bp) (logged bp)))
    | Panic msg => Some (Panic msg)
    end
  else None.

(** [Shutdown(ctx)]: cancel, then wait for the goroutines or for the
    caller's deadline; [deadline] says the caller's context is done. *)
Definition Shutdown (bp : BookProcessor) (deadline : bool) (poll : Poll)
  : option (option error) * BookProcessor :=
  let bp1 := cancel bp in
  (match select2 poll (wg bp1 =? 0) deadline with
   | Some true => Some None
   | Some false => Some (Some "context deadline exceeded")
   | None => None
   end, bp1).

(** A schedule: which worker moves next and how its [select] polls. *)
Fixpoint run_workers (sched : list (nat * Poll)) (bp : BookProcessor)
  : option (outcome BookProcessor) :=
  match sched with
  | [] => Some (Ret bp)
  | (i, poll) :: rest =>
      match worker_step bp i poll with
      | Some (Ret bp') => run_workers rest bp'
      | other => other
      end
  end.

End Pool.

(** ** internal/repository

    The [books] table is the list of its rows in insertion order.  The
    schema of [Migrate] makes [id] the primary key and [isbn] UNIQUE; a
    statement that breaks either fails with the driver's error.  Any other
    failure of a statement (connection, column width, ...) is the [fault]
    the caller passes.  A call that returns a value and an error returns
    one of the two here. *)

Module bookRepository.

Definition DB := list Book.t.

Definition quote : string := String (ascii_of_nat 34) EmptyString.

Definition pq_unique (constraint : string) : error :=
  "pq: duplicate key value violates unique constraint " +:+ quote +:+ constraint +:+ quote.

Definition has_id (db : DB) (id : UUID) : bool :=
  existsb (λ b, Book.ID b =? id) db.

Definition has_isbn (db : DB) (isbn : string) : bool :=
  existsb (λ b, String.eqb (Book.ISBN b) isbn) db.

(** [Create]: [id] is the [uuid.New()], [now1] and [now2] the two
    readings of the clock. *)
Definition Create (db : DB) (req : CreateBookRequest.t) (id : UUID) (now1 now2 : Z)
    (fault : option error) : (Book.t + error) * DB :=
  let book0 :=
    Book.mk id (CreateBookRequest.Title req) (CreateBookRequest.Author req)
      (CreateBookRequest.ISBN req) (CreateBookRequest.Publisher req)
      (CreateBookRequest.Genre req) (CreateBookRequest.PublishedAt req)
      (CreateBookRequest.Pages req) (CreateBookRequest.Language req)
      true now1 now2 in
  let book :=
    if String.eqb (Book.Language book0) "" then
      Book.mk id (Book.Title book0) (Book.Author book0) (Book.ISBN book0)
        (Book.Publisher book0) (Book.Genre book0) (Book.PublishedAt book0)
        (Book.Pages book0) "English" true now1 now2
    else book0 in
  let err :=
    match fault with
    | Some e => Some e
    | None =>
        if has_id db (Book.ID book) then Some (pq_unique "books_pkey")
        else if has_isbn db (Book.ISBN book) then Some (pq_unique "books_isbn_key")
        else None
    end in
  match err with
  | Some e => (inr ("failed to create book: " +:+ e), db)
  | None => (inl book, db ++ [book])
  end.

(** [ExistsByISBN]: the count of rows whose [isbn] is exactly the
    argument, leaving out [excludeID] when given. *)
Definition ExistsByISBN (db : DB) (isbn : string) (excludeID : option UUID)
    (fault : option error) : bool * option error :=
  match fault with
  | Some e => (false, Some ("failed to check ISBN existence: " +:+ e))
  | None =>
      let rows :=
        List.filter
          (λ b, String.eqb (Book.ISBN b) isbn &&
                match excludeID with
                | Some x => negb (Book.ID b =? x)
                | None => true
                end) db in
      (0 <? Z.of_nat (length rows), None)
  end.

(** SQL [LOWER] on the ASCII letters. *)
Definition lower_byte (c : ascii) : ascii :=
  let n := nat_of_ascii c in
  if ((65 <=? n) && (n <=? 90))%nat then ascii_of_nat (n + 32) else c.

Fixpoint LOWER (s : string) : string :=
  match s with
  | EmptyString => EmptyString
  | String c r => String (lower_byte c) (LOWER r)
  end.

(** SQL [LIKE] on bytes: [%] any run, [_] any one, backslash escapes. *)
Fixpoint LIKE (s pat : string) {struct pat} : bool :=
  match pat with
  | EmptyString => match s with EmptyString => true | _ => false end
  | String c pat' =>
      if Ascii.eqb c "%" then
        (fix any (s : string) : bool :=
           LIKE s pat' ||
           match s with
           | EmptyString => false
           | String _ s' => any s'
           end) s
      else if Ascii.eqb c "_" then
        match s with
        | EmptyString => false
        | String _ s' => LIKE s' pat'
        end
      else if Ascii.eqb c "\" then
        match pat' with
        | EmptyString => false
        | String e pat'' =>
            match s with
            | EmptyString => false
            | String d s' => Ascii.eqb e d && LIKE s' pat''
            end
        end
      else
        match s with
        | EmptyString => false
        | String d s' => Ascii.eqb c d && LIKE s' pat'
        end
  end.

(** The WHERE clause [GetAll] builds from the filter. *)
Definition matches (filter : BookFilter.t) (b : Book.t) : bool :=
  (String.eqb (BookFilter.Author filter) "" ||
     LIKE (LOWER (Book.Author b)) (LOWER ("%" +:+ BookFilter.Author filter +:+ "%")))
  && (String.eqb (BookFilter.Genre filter) "" ||
        LIKE (LOWER (Book.Genre b)) (LOWER ("%" +:+ BookFilter.Genre filter +:+ "%")))
  && (String.eqb (BookFilter.Language filter) "" ||
        String.eqb (LOWER (Book.Language b)) (LOWER (BookFilter.Language filter)))
  && match BookFilter.Available filter with
     | Some a => Bool.eqb (Book.Available b) a
     | None => true
     end.

(** ORDER BY created_at DESC; rows with the same time keep table order. *)
Fixpoint insert_desc (b : Book.t) (l : list Book.t) : list Book.t :=
  match l with
  | [] => [b]
  | x :: r =>
      if Book.CreatedAt x <? Book.CreatedAt b then b :: l else x :: insert_desc b r
  end.

Definition order_desc (l : list Book.t) : list Book.t :=
  fold_right insert_desc [] l.

Definition GetAll (db : DB) (filter : BookFilter.t) (fault1 fault2 : option error)
  : (list Book.t * Z) + error :=
  let rows := List.filter (matches filter) db in
  match fault1 with
  | Some e => inr ("failed to count books: " +:+ e)
  | None =>
      let total := Z.of_nat (length rows) in
      let limit := if BookFilter.Limit filter <=? 0 then 50 else BookFilter.Limit filter in
      let offset := if BookFilter.Offset filter <? 0 then 0 else BookFilter.Offset filter in
      match fault2 with
      | Some e => inr ("failed to query books: " +:+ e)
      | None =>
          inl (firstn (Z.to_nat limit) (skipn (Z.to_nat offset) (order_desc rows)), total)
      end
  end.

End bookRepository.

(** ** internal/handlers: error classification *)

Module Handlers.

Fixpoint containsSubstring_from (fuel i : nat) (str substr : string) : bool :=
  match fuel with
  | O => false
  | S k =>
      String.eqb (Strings.slice str i (i + String.length substr)) substr
      || containsSubstring_from k (S i) str substr
  end.

(** The loop [for i := 0; i <= len(str)-len(substr); i++]. *)
Definition containsSubstring (str substr : string) : bool :=
  containsSubstring_from (S (String.length str - String.length substr)) 0 str substr.

Definition contains (str substr : string) : bool :=
  let n := String.length str in
  let m := String.length substr in
  (m <=? n)%nat &&
  (String.eqb str substr ||
   ((m <? n)%nat &&
    (String.eqb (Strings.slice str 0 m) substr ||
     String.eqb (Strings.slice str (n - m) n) substr ||
     containsSubstring str substr))).

Definition isValidationError (err : error) : bool :=
  existsb (contains err)
    ["is required"; "cannot be empty"; "invalid"; "must be greater than"; "format"].

Definition isDuplicateError (err : error) : bool := contains err "already exists".

Definition isNotFoundError (err : error) : bool := contains err "not found".

(** The status the create handler answers with for a service error. *)
Inductive class := Validation | Conflict | Internal.

Definition classify (err : error) : class :=
  if isValidationError err then Validation
  else if isDuplicateError err then Conflict
  else Internal.

End Handlers.

(** ** internal/service *)

Record ServiceMetrics := mkMetrics {
  RequestCount : Z;
  CacheHits : Z;
  CacheMisses : Z;
  AvgLatency : Z
}.

Record bookService := mkService {
  bookRepo : bookRepository.DB;
  cache : option BookCache;
  processor : option BookProcessor;
  metrics : ServiceMetrics
}.

(** The order in which the three validation goroutines of [CreateBook]
    deliver to [validationChan]: T the title, A the author, I the ISBN. *)
Inductive Arrival := TAI | TIA | ATI | AIT | ITA | IAT.

(** What the world outside answers during one [CreateBook]. *)
Record CreateWorld := mkWorld {
  arrival : Arrival;
  exists_fault : option error;   (* failure of the uniqueness query *)
  exists_timeout : bool;         (* the 5 s timer wins the [select] *)
  new_id : UUID;                 (* [uuid.New()] in the repository *)
  created_at : Z;
  updated_at : Z;
  create_fault : option error;   (* failure of the INSERT *)
  cache_now : Z;                 (* the clock at [SetBook] *)
  cache_net : bool;              (* the external tier answers [SetBook] *)
  job_uuid : UUID;               (* [uuid.New()] for the job *)
  submit_poll : Poll;            (* the [select] of [SubmitJob] *)
  elapsed : Z                    (* [time.Since(start)] at return *)
}.

Module Service.

Definition NewBookService (bookRepo : bookRepository.DB) (cache : option BookCache)
    (processor : option BookProcessor) : bookService :=
  mkService bookRepo cache processor (mkMetrics 0 0 0 0).

(** Addition and halving on [int64], as [time.Duration] has them. *)
Definition wrap64 (x : Z) : Z :=
  (x + 9223372036854775808) mod 18446744073709551616 - 9223372036854775808.

Definition recordMetrics (s : bookService) (duration : Z) : bookService :=
  let m := metrics s in
  mkService (bookRepo s) (cache s) (processor s)
    (mkMetrics (inc64 (RequestCount m)) (CacheHits m) (CacheMisses m)
               (Z.quot (wrap64 (AvgLatency m + duration)) 2)).

Definition count_hit (s : bookService) : bookService :=
  let m := metrics s in
  mkService (bookRepo s) (cache s) (processor s)
    (mkMetrics (RequestCount m) (inc64 (CacheHits m)) (CacheMisses m) (AvgLatency m)).

Definition count_miss (s : bookService) : bookService :=
  let m := metrics s in
  mkService (bookRepo s) (cache s) (processor s)
    (mkMetrics (RequestCount m) (CacheHits m) (inc64 (CacheMisses m)) (AvgLatency m)).

Definition with_cache (s : bookService) (c : option BookCache) : bookService :=
  mkService (bookRepo s) c (processor s) (metrics s).

(** [normalizeISBN]: hyphens out, then spaces out. *)
Definition normalizeISBN (isbn : string) : string :=
  Strings.remove_byte " " (Strings.remove_byte "-" isbn).

Definition isValidISBN (isbn : string) : bool :=
  let normalized := normalizeISBN isbn in
  negb (negb (Strings.len normalized =? 10) && negb (Strings.len normalized =? 13)).

Definition validateTitle (title : string) : option error :=
  if String.eqb (Strings.TrimSpace title) "" then Some "title is required" else None.

Definition validateAuthor (author : string) : option error :=
  if String.eqb (Strings.TrimSpace author) "" then Some "author is required" else None.

Definition validateISBN (isbn : string) : option error :=
  if String.eqb (Strings.TrimSpace isbn) "" then Some "ISBN is required"
  else
    let normalized := normalizeISBN isbn in
    if negb (isValidISBN normalized) then Some "invalid ISBN format" else None.

Definition normalizeBookData (req : CreateBookRequest.t) : CreateBookRequest.t :=
  CreateBookRequest.mk
    (Strings.TrimSpace (CreateBookRequest.Title req))
    (Strings.TrimSpace (CreateBookRequest.Author req))
    (normalizeISBN (CreateBookRequest.ISBN req))
    (Strings.TrimSpace (CreateBookRequest.Publisher req))
    (Strings.TrimSpace (CreateBookRequest.Genre req))
    (CreateBookRequest.PublishedAt req)
    (CreateBookRequest.Pages req)
    (Strings.TrimSpace (CreateBookRequest.Language req)).

(** The three results in the order they arrive on [validationChan]. *)
Definition arrivals (a : Arrival) (t au i : option error) : list (option error) :=
  match a with
  | TAI => [t; au; i] | TIA => [t; i; au]
  | ATI => [au; t; i] | AIT => [au; i; t]
  | ITA => [i; t; au] | IAT => [i; au; t]
  end.

(** The collecting loop: the first non-nil error received is returned. *)
Fixpoint first_error (l : list (option error)) : option error :=
  match l with
  | [] => None
  | Some e :: _ => Some e
  | None :: r => first_error r
  end.

(** [CreateBook].  The request is a pointer: the result carries the
    request as the call leaves it.  [defer s.recordMetrics(start)] runs
    on every return. *)
Definition CreateBook (s : bookService) (req : CreateBookRequest.t) (w : CreateWorld)
  : outcome ((option Book.t * option error) * CreateBookRequest.t * bookService) :=
  let fail (e : error) (rq : CreateBookRequest.t) (s' : bookService) :=
    Ret ((None, Some e), rq, recordMetrics s' (elapsed w)) in
  match first_error (arrivals (arrival w)
                       (validateTitle (CreateBookRequest.Title req))
                       (validateAuthor (CreateBookRequest.Author req))
                       (validateISBN (CreateBookRequest.ISBN req))) with
  | Some err => fail err req s
  | None =>
      if exists_timeout w then fail "validation timeout" req s
      else
        match bookRepository.ExistsByISBN (bookRepo s) (CreateBookRequest.ISBN req)
                None (exists_fault w) with
        | (_, Some err) => fail ("failed to check ISBN uniqueness: " +:+ err) req s
        | (true, None) =>
            fail ("book with ISBN " +:+ CreateBookRequest.ISBN req +:+ " already exists")
                 req s
        | (false, None) =>
            let req := normalizeBookData req in
            match bookRepository.Create (bookRepo s) req (new_id w)
                    (created_at w) (updated_at w) (create_fault w) with
            | (inr err, _) => fail ("failed to create book: " +:+ err) req s
            | (inl book, db) =>
                let cache' :=
                  match cache s with
                  | Some c =>
                      Some (BookCacheOps.Clear
                              (BookCacheOps.SetBook c book (cache_now w) (cache_net w)))
                  | None => None
                  end in
                let s1 := mkService db cache' (processor s) (metrics s) in
                match processor s with
                | Some bp =>
                    let job := mkJob (uuid_String (job_uuid w)) JobTypeNotify (Some req) None in
                    match Pool.SubmitJob bp job (submit_poll w) with
                    | Ret (_, bp') =>
                        Ret ((Some book, None), req,
                             recordMetrics
                               (mkService db cache' (Some bp') (metrics s)) (elapsed w))
                    | Panic msg => Panic msg
                    end
                | None => Ret ((Some book, None), req, recordMetrics s1 (elapsed w))
                end
            end
        end
  end.

(** What the world answers during one [GetAllBooks]. *)
Record ListWorld := mkListWorld {
  get_now : Z;
  get_net : bool;
  count_fault : option error;
  query_fault : option error;
  set_now : Z;
  set_net : bool;
  list_elapsed : Z
}.

Definition GetAllBooks (s : bookService) (filter : BookFilter.t) (w : ListWorld)
  : (option BooksListResponse.t * option error) * bookService :=
  let lookup :=
    match cache s with
    | Some c =>
        match BookCacheOps.GetBookList c filter (get_now w) (get_net w) with
        | ((response, true), c') => (Some response, count_hit (with_cache s (Some c')))
        | ((_, false), c') => (None, count_miss (with_cache s (Some c')))
        end
    | None => (None, s)
    end in
  match lookup with
  | (Some response, s1) => ((response, None), recordMetrics s1 (list_elapsed w))
  | (None, s1) =>
      let filter :=
        if (BookFilter.Limit filter <=? 0) || (100 <? BookFilter.Limit filter)
        then BookFilter.mk (BookFilter.Author filter) (BookFilter.Genre filter)
               (BookFilter.Language filter) (BookFilter.Available filter)
               50 (BookFilter.Offset filter)
        else filter in
      let filter :=
        if BookFilter.Offset filter <? 0
        then BookFilter.mk (BookFilter.Author filter) (BookFilter.Genre filter)
               (BookFilter.Language filter) (BookFilter.Available filter)
               (BookFilter.Limit filter) 0
        else filter in
      match bookRepository.GetAll (bookRepo s1) filter (count_fault w) (query_fault w) with
      | inr err =>
          ((None, Some ("failed to get books: " +:+ err)),
           recordMetrics s1 (list_elapsed w))
      | inl (books, total) =>
          let response :=
            BooksListResponse.mk books total
              (BookFilter.Limit filter) (BookFilter.Offset filter) in
          let s2 :=
            match cache s1 with
            | Some c =>
                with_cache s1
                  (Some (BookCacheOps.SetBookList c filter response (set_now w) (set_net w)))
            | None => s1
            end in
          ((Some response, None), recordMetrics s2 (list_elapsed w))
      end
  end.

End Service.

(** ** internal/service: BulkCreateBooks

    One goroutine per request.  Goroutine [i] waits for a slot of the
    semaphore (capacity 10), runs [CreateBook] on request [i], sends the
    result tagged with [i] on the result channel (capacity [len(requests)],
    so the send never waits), gives the slot back and leaves the wait
    group.  A further goroutine closes the result channel once the wait
    group is empty; the caller stores each result it receives at its tag
    until the channel is closed and drained.

    A [CreateBook] call is one step here: the calls of different
    goroutines are taken one after the other in the order the schedule
    gives.  The request objects are taken to be distinct and non-nil. *)

Inductive GStatus := GWaiting | GRunning | GDone.

Global Instance GStatus_eq_dec : EqDecision GStatus.
Proof. solve_decision. Defined.

Record Bulk := mkBulk {
  bulk_svc : bookService;
  requests : list CreateBookRequest.t;
  status : list GStatus;
  semaphore : nat;                                  (* slots taken *)
  bulk_chan : list (nat * (option Book.t * option error));
  bulk_closed : bool;
  waitgroup : nat;
  books : list (option Book.t);
  errors : list (option error)
}.

Inductive BulkEvent :=
| Acquire (i : nat)                 (* goroutine i takes a slot *)
| Run (i : nat) (w : CreateWorld)   (* goroutine i creates, reports, returns *)
| CloseChan                         (* [wg.Wait(); close(resultChan)] *)
| Collect.                          (* the caller receives one result *)

Module BulkOps.

Definition semaphore_cap : nat := 10.

Definition init (s : bookService) (reqs : list CreateBookRequest.t) : Bulk :=
  let n := length reqs in
  mkBulk s reqs (repeat GWaiting n) 0 [] false n (repeat None n) (repeat None n).

Definition step (st : Bulk) (ev : BulkEvent) : option (outcome Bulk) :=
  match ev with
  | Acquire i =>
      match status st !! i with
      | Some GWaiting =>
          if (semaphore st <? semaphore_cap)%nat then
            Some (Ret (mkBulk (bulk_svc st) (requests st) (<[i := GRunning]> (status st))
                              (S (semaphore st)) (bulk_chan st) (bulk_closed st)
                              (waitgroup st) (books st) (errors st)))
          else None
      | _ => None
      end
  | Run i w =>
      match status st !! i, requests st !! i with
      | Some GRunning, Some req =>
          match Service.CreateBook (bulk_svc st) req w with
          | Ret (result, req', s') =>
              Some (Ret (mkBulk s' (<[i := req']> (requests st))
                                (<[i := GDone]> (status st))
                                (pred (semaphore st)) (bulk_chan st ++ [(i, result)])
                                (bulk_closed st) (pred (waitgroup st))
                                (books st) (errors st)))
          | Panic msg => Some (Panic msg)
          end
      | _, _ => None
      end
  | CloseChan =>
      if (waitgroup st =? 0)%nat && negb (bulk_closed st) then
        Some (Ret (mkBulk (bulk_svc st) (requests st) (status st) (semaphore st)
                          (bulk_chan st) true (waitgroup st) (books st) (errors st)))
      else None
  | Collect =>
      match bulk_chan st with
      | (index, (book, err)) :: rest =>
          Some (Ret (mkBulk (bulk_svc st) (requests st) (status st) (semaphore st)
                            rest (bulk_closed st) (waitgroup st)
                            (<[index := book]> (books st))
                            (<[index := err]> (errors st))))
      | [] => None
      end
  end.

Fixpoint run (evs : list BulkEvent) (st : Bulk) : option (outcome Bulk) :=
  match evs with
  | [] => Some (Ret st)
  | ev :: rest =>
      match step st ev with
      | Some (Ret st') => run rest st'
      | other => other
      end
  end.



(** The schedule that runs the goroutines one after the other. *)
Definition sequential (ws : list CreateWorld) : list BulkEvent :=
  flat_map (λ iw, [Acquire iw.1; Run iw.1 iw.2; Collect]) (imap (λ i w, (i, w)) ws)
  ++ [CloseChan].

End BulkOps.

(** ** Auxiliary notions for the statements *)

(** A number that fits a byte. *)
Definition is_byte (b : Z) : Prop := 0 <= b < 256.

(** What is left for a worker to do, counted in moves: a worker at its
    outer [select] has at most two moves before it takes a job or
    returns, one holding a result has at most three. *)
Definition worker_weight (w : Worker) : nat :=
  match w with
  | WLoop => 2
  | WSend _ => 3
  | WDone => 0
  end.

Definition pool_weight (bp : BookProcessor) : nat :=
  2 * length (buf (jobQueue bp)) + sum_list (worker_weight <$> pool bp).










(** ** Concrete values used in examples *)

Module Sample.

Definition minute : Z := 60000000000.

(** The cache of a process without Redis, as [main] builds it. *)
Definition local_cache : BookCache :=
  BookCacheOps.NewBookCache (5 * minute) minute None true.

(** The cache of a process with a reachable Redis. *)
Definition redis_cache : BookCache :=
  BookCacheOps.NewBookCache (5 * minute) minute
    (Some (RedisCache (Redis.mkClient ∅ false))) true.

Definition id1 : UUID := 0x123e4567e89b12d3a456426614174000.
Definition id2 : UUID := 0x123e4567e89b12d3a456426614174001.

Definition hobbit : Book.t :=
  Book.mk id1 "The Hobbit" "J.R.R. Tolkien" "9780547928210" "Houghton Mifflin"
          "Fantasy" 0 366 "English" true 1000 1000.

(** The same record after an update. *)
Definition hobbit_v2 : Book.t :=
  Book.mk id1 "The Hobbit" "J.R.R. Tolkien" "9780547928210" "Houghton Mifflin"
          "Fantasy" 0 366 "English" false 1000 2000.

Definition tolkien : BookFilter.t :=
  BookFilter.mk "tolkien" "fantasy" "" (Some true) 10 0.


Definition page : BooksListResponse.t :=
  BooksListResponse.mk [hobbit] 1 10 0.

(** The pool as [main] builds it, and a pool of one worker with room
    for one job. *)
Definition pool0 : BookProcessor :=
  mkProcessor 10 (mkChan [] 100 false) (mkChan [] 100 false) false 0 [] [] [] [].

Definition pool1 : BookProcessor :=
  mkProcessor 1 (mkChan [] 1 false) (mkChan [] 1 false) false 0 [] [] [] [].

Definition request : CreateBookRequest.t :=
  CreateBookRequest.mk "The Hobbit" "J.R.R. Tolkien" "9780547928210"
    "Houghton Mifflin" "Fantasy" 0 366 "English".

Definition notify : BookJob :=
  mkJob (uuid_String id2) JobTypeNotify (Some request) None.

(** The same ISBN as [request], spelled with hyphens. *)
Definition hyphenated : CreateBookRequest.t :=
  CreateBookRequest.mk "The Hobbit, illustrated" "J.R.R. Tolkien" "978-0-547-92821-0"
    "HarperCollins" "Fantasy" 0 400 "English".

Definition other : CreateBookRequest.t :=
  CreateBookRequest.mk "Dune" "Frank Herbert" "9780441172719"
    "Ace" "Science Fiction" 0 896 "English".


(** A world in which every outside call goes through. *)
Definition calm (id : UUID) (t : Z) : CreateWorld :=
  mkWorld TAI None false id t t None t true id2 ChanFirst 1000.

Definition service0 : bookService := Service.NewBookService [] None None.

Definition service_local : bookService :=
  Service.NewBookService [] (Some local_cache) (Some (Pool.Start pool0)).

Definition service_redis : bookService :=
  Service.NewBookService [] (Some redis_cache) (Some (Pool.Start pool0)).



Definition quiet : Service.ListWorld :=
  Service.mkListWorld 0 true None None 0 true 1000.

End Sample.


(** ** internal/repository: the other methods *)

Module BookRepo.

(** [GetByID]: the row with that id, "book not found" when there is
    none. *)
Definition GetByID (db : bookRepository.DB) (id : UUID) (fault : option error)
  : Book.t + error :=
  match fault with
  | Some e => inr ("failed to get book: " +:+ e)
  | None =>
      match List.find (λ b, Book.ID b =? id) db with
      | Some book => inl book
      | None => inr "book not found"
      end
  end.

(** The rows of the table with the row of [id] replaced. *)
Fixpoint replace_row (db : bookRepository.DB) (id : UUID) (book : Book.t)
  : bookRepository.DB :=
  match db with
  | [] => []
  | b :: rest =>
      if Book.ID b =? id then book :: replace_row rest id book
      else b :: replace_row rest id book
  end.

(** The SET clauses [Update] builds: one for each field of the request
    that is present. *)
Definition no_fields (req : UpdateBookRequest.t) : bool :=
  match UpdateBookRequest.Title req, UpdateBookRequest.Author req,
        UpdateBookRequest.ISBN req, UpdateBookRequest.Publisher req,
        UpdateBookRequest.Genre req, UpdateBookRequest.PublishedAt req,
        UpdateBookRequest.Pages req, UpdateBookRequest.Language req,
        UpdateBookRequest.Available req with
  | None, None, None, None, None, None, None, None, None => true
  | _, _, _, _, _, _, _, _, _ => false
  end.

(** The row the UPDATE statement leaves and returns; [now] is the
    server's CURRENT_TIMESTAMP, which the trigger of the schema puts in
    [updated_at] over the value the statement carries. *)
Definition updated_row (cur : Book.t) (req : UpdateBookRequest.t) (now : Z) : Book.t :=
  Book.mk (Book.ID cur)
    (default (Book.Title cur) (UpdateBookRequest.Title req))
    (default (Book.Author cur) (UpdateBookRequest.Author req))
    (default (Book.ISBN cur) (UpdateBookRequest.ISBN req))
    (default (Book.Publisher cur) (UpdateBookRequest.Publisher req))
    (default (Book.Genre cur) (UpdateBookRequest.Genre req))
    (default (Book.PublishedAt cur) (UpdateBookRequest.PublishedAt req))
    (default (Book.Pages cur) (UpdateBookRequest.Pages req))
    (default (Book.Language cur) (UpdateBookRequest.Language req))
    (default (Book.Available cur) (UpdateBookRequest.Available req))
    (Book.CreatedAt cur)
    now.

(** Another row holds the ISBN. *)
Definition isbn_taken (db : bookRepository.DB) (isbn : string) (id : UUID) : bool :=
  existsb (λ b, String.eqb (Book.ISBN b) isbn && negb (Book.ID b =? id)) db.

Definition Update (db : bookRepository.DB) (id : UUID) (req : UpdateBookRequest.t)
    (now : Z) (fault_get fault_update : option error)
  : (Book.t + error) * bookRepository.DB :=
  match GetByID db id fault_get with
  | inr e => (inr e, db)
  | inl currentBook =>
      if no_fields req then (inl currentBook, db)
      else
        let book := updated_row currentBook req now in
        let err :=
          match fault_update with
          | Some e => Some e
          | None =>
              if isbn_taken db (Book.ISBN book) id
              then Some (bookRepository.pq_unique "books_isbn_key")
              else None
          end in
        match err with
        | Some e => (inr ("failed to update book: " +:+ e), db)
        | None => (inl book, replace_row db id book)
        end
  end.

(** [Delete]: the DELETE statement, then the count of rows it affected.
    [fault_rows] is a failure of reading that count, after the rows are
    gone. *)
Definition Delete (db : bookRepository.DB) (id : UUID) (fault_exec fault_rows : option error)
  : option error * bookRepository.DB :=
  match fault_exec with
  | Some e => (Some ("failed to delete book: " +:+ e), db)
  | None =>
      let db' := List.filter (λ b, negb (Book.ID b =? id)) db in
      match fault_rows with
      | Some e => (Some ("failed to get rows affected: " +:+ e), db')
      | None =>
          if bookRepository.has_id db id then (None, db')
          else (Some "book not found", db')
      end
  end.

End BookRepo.

(** ** internal/service: the other methods *)

(** What the world answers during one [GetBookByID]. *)
Record GetWorld := mkGetWorld {
  g_now : Z;                    (* the clock at the cache lookup *)
  g_net : bool;                 (* the external tier answers the lookup *)
  g_fault : option error;       (* failure of the SELECT *)
  g_set_now : Z;                (* the clock at [SetBook] *)
  g_set_net : bool;
  g_elapsed : Z
}.

(** What the world answers during one [DeleteBook]. *)
Record DeleteWorld := mkDeleteWorld {
  d_get_fault : option error;   (* failure of the existence SELECT *)
  d_exec_fault : option error;  (* failure of the DELETE *)
  d_rows_fault : option error;
  d_net1 : bool;                (* the external tier answers [DeleteBook] *)
  d_net2 : bool;                (* ... and [DeleteBookListCache] *)
  d_elapsed : Z
}.

(** What the world answers during one [UpdateBook]. *)
Record UpdateWorld := mkUpdateWorld {
  u_get_fault : option error;     (* failure of the existence SELECT *)
  u_exists_fault : option error;  (* failure of the uniqueness query *)
  u_get_fault2 : option error;    (* failure of the SELECT inside [Update] *)
  u_update_fault : option error;  (* failure of the UPDATE *)
  u_now : Z;                      (* the server's clock at the UPDATE *)
  u_set_now : Z;                  (* the clock at [SetBook] *)
  u_set_net : bool;
  u_net1 : bool;
  u_net2 : bool;
  u_elapsed : Z
}.

Module ServiceMore.

Import Service.

(** [validateCreateRequest], the sequential validator. *)
Definition validateCreateRequest (req : CreateBookRequest.t) : option error :=
  if String.eqb (Strings.TrimSpace (CreateBookRequest.Title req)) ""
  then Some "title is required"
  else if String.eqb (Strings.TrimSpace (CreateBookRequest.Author req)) ""
  then Some "author is required"
  else if String.eqb (Strings.TrimSpace (CreateBookRequest.ISBN req)) ""
  then Some "ISBN is required"
  else if negb (isValidISBN (CreateBookRequest.ISBN req))
  then Some "invalid ISBN format"
  else if CreateBookRequest.Pages req <=? 0
  then Some "pages must be greater than 0"
  else None.

Definition blank (s : option string) : bool :=
  match s with
  | Some x => String.eqb (Strings.TrimSpace x) ""
  | None => false
  end.

Definition validateUpdateRequest (req : UpdateBookRequest.t) : option error :=
  if blank (UpdateBookRequest.Title req) then Some "title cannot be empty"
  else if blank (UpdateBookRequest.Author req) then Some "author cannot be empty"
  else
    match
      match UpdateBookRequest.ISBN req with
      | Some isbn =>
          if String.eqb (Strings.TrimSpace isbn) "" then Some "ISBN cannot be empty"
          else if negb (isValidISBN isbn) then Some "invalid ISBN format"
          else None
      | None => None
      end
    with
    | Some e => Some e
    | None =>
        match UpdateBookRequest.Pages req with
        | Some p => if p <=? 0 then Some "pages must be greater than 0" else None
        | None => None
        end
    end.

Definition with_repo (s : bookService) (db : bookRepository.DB) : bookService :=
  mkService db (cache s) (processor s) (metrics s).

(** [GetBookByID]: the cache first, then the repository, whose answer is
    written back to the cache. *)
Definition GetBookByID (s : bookService) (id : UUID) (w : GetWorld)
  : (option Book.t * option error) * bookService :=
  let lookup :=
    match cache s with
    | Some c =>
        match BookCacheOps.GetBook c id (g_now w) (g_net w) with
        | ((book, true), c') => (Some book, count_hit (with_cache s (Some c')))
        | ((_, false), c') => (None, count_miss (with_cache s (Some c')))
        end
    | None => (None, s)
    end in
  match lookup with
  | (Some book, s1) => ((book, None), recordMetrics s1 (g_elapsed w))
  | (None, s1) =>
      match BookRepo.GetByID (bookRepo s1) id (g_fault w) with
      | inr err =>
          ((None, Some ("failed to get book: " +:+ err)), recordMetrics s1 (g_elapsed w))
      | inl book =>
          let s2 :=
            match cache s1 with
            | Some c =>
                with_cache s1 (Some (BookCacheOps.SetBook c book (g_set_now w) (g_set_net w)))
            | None => s1
            end in
          ((Some book, None), recordMetrics s2 (g_elapsed w))
      end
  end.

(** [DeleteBook]. *)
Definition DeleteBook (s : bookService) (id : UUID) (w : DeleteWorld)
  : option error * bookService :=
  match BookRepo.GetByID (bookRepo s) id (d_get_fault w) with
  | inr err => (Some ("book not found: " +:+ err), recordMetrics s (d_elapsed w))
  | inl _ =>
      match BookRepo.Delete (bookRepo s) id (d_exec_fault w) (d_rows_fault w) with
      | (Some err, db) =>
          (Some ("failed to delete book: " +:+ err),
           recordMetrics (with_repo s db) (d_elapsed w))
      | (None, db) =>
          let s1 := with_repo s db in
          let s2 :=
            match cache s1 with
            | Some c =>
                with_cache s1 (Some (BookCacheOps.InvalidateBook c id (d_net1 w) (d_net2 w)))
            | None => s1
            end in
          (None, recordMetrics s2 (d_elapsed w))
      end
  end.

(** The request as [UpdateBook] hands it to the repository: the ISBN
    normalized, the other strings trimmed. *)
Definition normalizeUpdate (req : UpdateBookRequest.t) : UpdateBookRequest.t :=
  UpdateBookRequest.mk
    (Strings.TrimSpace <$> UpdateBookRequest.Title req)
    (Strings.TrimSpace <$> UpdateBookRequest.Author req)
    (normalizeISBN <$> UpdateBookRequest.ISBN req)
    (Strings.TrimSpace <$> UpdateBookRequest.Publisher req)
    (Strings.TrimSpace <$> UpdateBookRequest.Genre req)
    (UpdateBookRequest.PublishedAt req)
    (UpdateBookRequest.Pages req)
    (Strings.TrimSpace <$> UpdateBookRequest.Language req)
    (UpdateBookRequest.Available req).

(** [UpdateBook].  The request is a pointer: the result carries the
    request as the call leaves it. *)
Definition UpdateBook (s : bookService) (id : UUID) (req : UpdateBookRequest.t)
    (w : UpdateWorld)
  : (option Book.t * option error) * UpdateBookRequest.t * bookService :=
  let fail (e : error) (rq : UpdateBookRequest.t) :=
    ((None, Some e), rq, recordMetrics s (u_elapsed w)) in
  match BookRepo.GetByID (bookRepo s) id (u_get_fault w) with
  | inr err => fail ("book not found: " +:+ err) req
  | inl _ =>
      match validateUpdateRequest req with
      | Some err => fail err req
      | None =>
          let unique :=
            match UpdateBookRequest.ISBN req with
            | Some isbn =>
                match bookRepository.ExistsByISBN (bookRepo s) isbn (Some id)
                        (u_exists_fault w) with
                | (_, Some err) => Some ("failed to check ISBN uniqueness: " +:+ err)
                | (true, None) => Some ("book with ISBN " +:+ isbn +:+ " already exists")
                | (false, None) => None
                end
            | None => None
            end in
          match unique with
          | Some err => fail err req
          | None =>
              let req := normalizeUpdate req in
              match BookRepo.Update (bookRepo s) id req (u_now w)
                      (u_get_fault2 w) (u_update_fault w) with
              | (inr err, _) => fail ("failed to update book: " +:+ err) req
              | (inl book, db) =>
                  let s1 := with_repo s db in
                  let s2 :=
                    match cache s1 with
                    | Some c =>
                        with_cache s1
                          (Some (BookCacheOps.InvalidateBook
                                   (BookCacheOps.SetBook c book (u_set_now w) (u_set_net w))
                                   (Book.ID book) (u_net1 w) (u_net2 w)))
                    | None => s1
                    end in
                  ((Some book, None), req, recordMetrics s2 (u_elapsed w))
              end
          end
      end
  end.

(** [GetMetrics]: a copy of the counters. *)
Definition GetMetrics (s : bookService) : ServiceMetrics :=
  mkMetrics (RequestCount (metrics s)) (CacheHits (metrics s))
            (CacheMisses (metrics s)) (AvgLatency (metrics s)).

End ServiceMore.

(** ** internal/handlers: the status each handler answers with *)

Module Status.

Definition of_create (err : error) : Z :=
  if Handlers.isValidationError err then 400
  else if Handlers.isDuplicateError err then 409
  else 500.

Definition of_get (err : error) : Z :=
  if Handlers.isNotFoundError err then 404 else 500.

Definition of_update (err : error) : Z :=
  if Handlers.isNotFoundError err then 404
  else if Handlers.isValidationError err then 400
  else if Handlers.isDuplicateError err then 409
  else 500.

Definition of_delete (err : error) : Z :=
  if Handlers.isNotFoundError err then 404 else 500.

End Status.

(** ** Further notions for the statements *)

(** [sub] occurs in [str]. *)
Definition occurs_in (sub str : string) : Prop :=
  exists pre post, str = pre +:+ sub +:+ post.

(** A [uuid.UUID] holds sixteen bytes. *)
Definition is_uuid (u : UUID) : Prop := 0 <= u < 2 ^ 128.

(** What [GetBook] and [GetBookList] find in the in-memory tier at time
    [now]: the unexpired entry under the key. *)
Definition local_live (c : BookCache) (key : string) (now : Z) : option Data :=
  match inMemory c !! key with
  | Some entry => if ExpiresAt entry <? now then None else Some (entry_Data entry)
  | None => None
  end.

(** ** internal/workers: the pool at work

    The goroutines of a started pool and its callers interleave.  An
    event is one of them moving: a call of [SubmitJob], a move of a worker
    or of the result processor, a call of [Shutdown].  A goroutine picked
    while it is parked at its [select] stays where it is. *)

Inductive PoolEvent :=
| ESubmit (job : BookJob) (poll : Poll)
| EWorker (i : nat) (poll : Poll)
| ECollector (k : nat) (poll : Poll)
| EShutdown (deadline : bool) (poll : Poll).

(** The pool together with the jobs for which [SubmitJob] has returned
    nil, in the order of the calls. *)
Record PoolRun := mkRun {
  run_bp : BookProcessor;
  accepted : list BookJob
}.

Module PoolOps.

Definition step (st : PoolRun) (ev : PoolEvent) : outcome PoolRun :=
  match ev with
  | ESubmit job poll =>
      match Pool.SubmitJob (run_bp st) job poll with
      | Ret (None, bp') => Ret (mkRun bp' (accepted st ++ [job]))
      | Ret (Some _, bp') => Ret (mkRun bp' (accepted st))
      | Panic msg => Panic msg
      end
  | EWorker i poll =>
      match Pool.worker_step (run_bp st) i poll with
      | Some (Ret bp') => Ret (mkRun bp' (accepted st))
      | Some (Panic msg) => Panic msg
      | None => Ret st
      end
  | ECollector k poll =>
      match Pool.collector_step (run_bp st) k poll with
      | Some bp' => Ret (mkRun bp' (accepted st))
      | None => Ret st
      end
  | EShutdown deadline poll =>
      Ret (mkRun (Pool.Shutdown (run_bp st) deadline poll).2 (accepted st))
  end.

Fixpoint run (evs : list PoolEvent) (st : PoolRun) : outcome PoolRun :=
  match evs with
  | [] => Ret st
  | ev :: rest =>
      match step st ev with
      | Ret st' => run rest st'
      | Panic msg => Panic msg
      end
  end.

(** The pool as [main] has it: built, then started. *)
Definition started (workers bufferSize : Z) : outcome PoolRun :=
  match Pool.NewBookProcessor workers bufferSize with
  | Ret bp => Ret (mkRun (Pool.Start bp) [])
  | Panic msg => Panic msg
  end.

End PoolOps.

(** The result a worker holds at its inner [select]. *)
Definition held_result (w : Worker) : list BookResult :=
  match w with WSend r => [r] | _ => [] end.

Definition held (bp : BookProcessor) : list BookResult :=
  concat (held_result <$> pool bp).

Definition live_worker (w : Worker) : nat :=
  match w with WDone => 0 | _ => 1 end.

Definition live_collector (k : Collector) : nat :=
  match k with CDone => 0 | CLoop => 1 end.

(** The goroutines of the pool that have not returned. *)
Definition live (bp : BookProcessor) : nat :=
  sum_list (live_worker <$> pool bp) + sum_list (live_collector <$> collectors bp).

(** What holds of a started pool that has not been stopped. *)
Record pool_inv (st : PoolRun) : Prop := mkPoolInv {
  pinv_jobs_open : chan_closed (jobQueue (run_bp st)) = false;
  pinv_results_open : chan_closed (resultChan (run_bp st)) = false;
  pinv_jobs_cap : Z.of_nat (length (buf (jobQueue (run_bp st)))) <= cap (jobQueue (run_bp st));
  pinv_results_cap :
    Z.of_nat (length (buf (resultChan (run_bp st)))) <= cap (resultChan (run_bp st));
  pinv_wg : wg (run_bp st) = Z.of_nat (live (run_bp st));
  pinv_fifo : processed (run_bp st) ++ buf (jobQueue (run_bp st)) = accepted st;
  pinv_results :
    logged (run_bp st) ++ buf (resultChan (run_bp st)) ++ held (run_bp st)
    ⊆+ Pool.processJob <$> processed (run_bp st);
  pinv_results_all :
    ctx_done (run_bp st) = false ->
    logged (run_bp st) ++ buf (resultChan (run_bp st)) ++ held (run_bp st)
    ≡ₚ Pool.processJob <$> processed (run_bp st)
}.

(** The jobs handed to [SubmitJob] along a schedule, in order. *)
Definition submitted (evs : list PoolEvent) : list BookJob :=
  flat_map (fun ev => match ev with ESubmit job _ => [job] | _ => [] end) evs.

(** ** The table's constraints *)

(** The primary key on [id] and the UNIQUE constraint on [isbn]. *)
Definition db_ok (db : bookRepository.DB) : Prop :=
  NoDup (Book.ID <$> db) /\ NoDup (Book.ISBN <$> db).

(** Newest first. *)
Fixpoint sorted_desc (l : list Book.t) : Prop :=
  match l with
  | [] => True
  | x :: r => (forall y, y ∈ r -> Book.CreatedAt y <= Book.CreatedAt x) /\ sorted_desc r
  end.
(** ** Facts about keys *)

Section KeyFacts.

Lemma string_length_app (s1 s2 : string) :
  String.length (s1 +:+ s2) = (String.length s1 + String.length s2)%nat.
Proof. induction s1 as [|c s1 IH]; simpl; [reflexivity | now rewrite IH]. Qed.

Lemma hex_length (bs : list Z) :
  String.length (Bytes.hex bs) = (2 * length bs)%nat.
Proof.
  induction bs as [|b bs IH]; [reflexivity|].
  change (Bytes.hex (b :: bs)) with (Bytes.hex_byte b +:+ Bytes.hex bs).
  rewrite string_length_app, IH. simpl. lia.
Qed.

Lemma md5_Sum_length (msg : list Z) : length (MD5.Sum msg) = 16%nat.
Proof.
  unfold MD5.Sum.
  destruct (MD5.blocks _ MD5.init _) as [a b c d]. reflexivity.
Qed.

Lemma list_key_length (f : BookFilter.t) :
  String.length (GenerateBookListKey f) = 38%nat.
Proof.
  unfold GenerateBookListKey.
  rewrite string_length_app, hex_length, md5_Sum_length. reflexivity.
Qed.

Lemma uuid_String_length (u : UUID) : String.length (uuid_String u) = 36%nat.
Proof. reflexivity. Qed.

Lemma list_key_not_uuid (f : BookFilter.t) (u : UUID) :
  GenerateBookListKey f ≠ uuid_String u.
Proof.
  intros E. apply (f_equal String.length) in E.
  rewrite list_key_length, uuid_String_length in E. discriminate.
Qed.

Lemma hexdigit_inj (x y : Z) :
  0 <= x < 16 -> 0 <= y < 16 -> Bytes.hexdigit x = Bytes.hexdigit y -> x = y.
Proof.
  intros Hx Hy.
  assert (Hc : forall v, 0 <= v < 16 ->
            v = (let n := Z.of_N (N_of_ascii (Bytes.hexdigit v)) in
                 if n <? 58 then n - 48 else n - 87)).
  { intros v Hv.
    assert (Hv' : v = 0 \/ v = 1 \/ v = 2 \/ v = 3 \/ v = 4 \/ v = 5 \/ v = 6 \/ v = 7 \/
                  v = 8 \/ v = 9 \/ v = 10 \/ v = 11 \/ v = 12 \/ v = 13 \/ v = 14 \/ v = 15)
      by lia.
    repeat (destruct Hv' as [-> | Hv']; [reflexivity|]). subst v. reflexivity. }
  intros E. rewrite (Hc x Hx), (Hc y Hy), E. reflexivity.
Qed.

Lemma hex_byte_inj (x y : Z) :
  is_byte x -> is_byte y -> Bytes.hex_byte x = Bytes.hex_byte y -> x = y.
Proof.
  unfold is_byte, Bytes.hex_byte. intros Hx Hy E.
  injection E as E1 E2.
  apply hexdigit_inj in E1; [| apply Z.mod_pos_bound; lia ..].
  apply hexdigit_inj in E2; [| apply Z.mod_pos_bound; lia ..].
  rewrite (Z.mod_small (x / 16)) in E1 by (split; [apply Z.div_pos | apply Z.div_lt_upper_bound]; lia).
  rewrite (Z.mod_small (y / 16)) in E1 by (split; [apply Z.div_pos | apply Z.div_lt_upper_bound]; lia).
  rewrite (Z.div_mod x 16), (Z.div_mod y 16) by lia. lia.
Qed.






End KeyFacts.

(** ** The cache *)

Section CacheFacts.

Import BookCacheOps.

Lemma inMemory_with_redis (c : BookCache) (r : Cache) :
  inMemory (with_redis c r) = inMemory c.
Proof. reflexivity. Qed.

(** The loop of [InvalidateBook] keeps every key whose length is not 32. *)
Lemma drop_len32_lookup_other (key k : string) (m : gmap string CacheEntry) :
  String.length k ≠ 32%nat -> drop_len32 key m !! k = m !! k.
Proof.
  intros Hlen. unfold drop_len32.
  destruct (m !! k) as [e|] eqn:Hk.
  - apply map_lookup_filter_Some. split; [exact Hk|]. simpl.
    apply Nat.eqb_neq in Hlen. rewrite Hlen. reflexivity.
  - apply map_lookup_filter_None. left. exact Hk.
Qed.

(** [InvalidateBook] leaves every in-memory list entry where it is: a
    list key has 38 bytes, the loop looks for 32. *)
Lemma InvalidateBook_keeps_list_entries
    (c : BookCache) (id : UUID) (net1 net2 : bool) (f : BookFilter.t) :
  inMemory (InvalidateBook c id net1 net2) !! GenerateBookListKey f
  = inMemory c !! GenerateBookListKey f.
Proof.
  unfold InvalidateBook.
  assert (Hm : forall c1, inMemory c1 = inMemory c ->
            inMemory (with_inMemory c1
               (drop_len32 (uuid_String id) (delete (uuid_String id) (inMemory c1))))
            !! GenerateBookListKey f = inMemory c !! GenerateBookListKey f).
  { intros c1 E. simpl. rewrite drop_len32_lookup_other.
    - rewrite lookup_delete_ne, E; [reflexivity|].
      intros H. symmetry in H. exact (list_key_not_uuid _ _ H).
    - rewrite list_key_length. discriminate. }
  destruct (external c); apply Hm; reflexivity.
Qed.

(** [InvalidateBook] removes the book's own in-memory entry. *)
Lemma InvalidateBook_drops_book (c : BookCache) (id : UUID) (net1 net2 : bool) :
  inMemory (InvalidateBook c id net1 net2) !! uuid_String id = None.
Proof.
  unfold InvalidateBook.
  assert (Hm : forall c1,
            inMemory (with_inMemory c1
               (drop_len32 (uuid_String id) (delete (uuid_String id) (inMemory c1))))
            !! uuid_String id = None).
  { intros c1. simpl. rewrite drop_len32_lookup_other by (rewrite uuid_String_length; discriminate).
    apply lookup_delete_eq. }
  destruct (external c); apply Hm.
Qed.

(** [SetBook] always writes the in-memory entry, under the bare id. *)
Lemma SetBook_local (c : BookCache) (b : Book.t) (now : Z) (net : bool) :
  inMemory (SetBook c b now net) !! uuid_String (Book.ID b)
  = Some (mkEntry (DBook b) (now + ttl c)).
Proof.
  unfold SetBook. destruct (external c); simpl; apply lookup_insert_eq.
Qed.

Lemma SetBookList_local (c : BookCache) (f : BookFilter.t) (r : BooksListResponse.t)
    (now : Z) (net : bool) :
  inMemory (SetBookList c f r now net) !! GenerateBookListKey f
  = Some (mkEntry (DList r) (now + ttl c)).
Proof.
  unfold SetBookList. destruct (external c); simpl; apply lookup_insert_eq.
Qed.

(** An unexpired in-memory book answers [GetBook] when the external
    tier is off. *)
Lemma GetBook_local_hit (c : BookCache) (id : UUID) (b : Book.t) (e now : Z) (net : bool) :
  external c = None ->
  inMemory c !! uuid_String id = Some (mkEntry (DBook b) e) ->
  now <= e ->
  (GetBook c id now net).1 = (Some b, true).
Proof.
  intros Hext Hm Hle. unfold GetBook, lookup_local. rewrite Hext, Hm. simpl.
  destruct (e <? now) eqn:Hlt; [apply Z.ltb_lt in Hlt; lia | reflexivity].
Qed.

Lemma GetBookList_local_hit (c : BookCache) (f : BookFilter.t) (r : BooksListResponse.t)
    (e now : Z) (net : bool) :
  external c = None ->
  inMemory c !! GenerateBookListKey f = Some (mkEntry (DList r) e) ->
  now <= e ->
  (GetBookList c f now net).1 = (Some r, true).
Proof.
  intros Hext Hm Hle. unfold GetBookList, lookup_local. rewrite Hext, Hm. simpl.
  destruct (e <? now) eqn:Hlt; [apply Z.ltb_lt in Hlt; lia | reflexivity].
Qed.

Lemma external_InvalidateBook_None (c : BookCache) (id : UUID) (net1 net2 : bool) :
  external c = None -> external (InvalidateBook c id net1 net2) = None.
Proof.
  unfold InvalidateBook. intros H. rewrite H. exact H.
Qed.

Lemma external_SetBookList_None (c : BookCache) f r now net :
  external c = None -> external (SetBookList c f r now net) = None.
Proof.
  unfold SetBookList. intros H. rewrite H. exact H.
Qed.

(** With the external tier off, a cached list survives any number of
    invalidations and is served again. *)
Lemma stale_list_after_invalidate
    (c : BookCache) (f : BookFilter.t) (r : BooksListResponse.t) (id : UUID)
    (t0 t1 : Z) (n0 n1 n2 n3 n4 n5 : bool) :
  external c = None -> t1 <= t0 + ttl c ->
  (GetBookList
     (InvalidateBook (InvalidateBook (SetBookList c f r t0 n0) id n1 n2) id n3 n4)
     f t1 n5).1 = (Some r, true).
Proof.
  intros Hext Ht.
  apply GetBookList_local_hit with (e := t0 + ttl c); [| | exact Ht].
  - now do 2 apply external_InvalidateBook_None; apply external_SetBookList_None.
  - rewrite !InvalidateBook_keeps_list_entries. apply SetBookList_local.
Qed.

End CacheFacts.

(** C2.  A list response cached under a filter is still served for that
    filter after [InvalidateBook], run once or twice: the in-memory loop
    drops keys of length 32, and a list key has 38 bytes.  Without
    external tier the in-memory entry answers directly; with it, the
    external entry is deleted and the in-memory entry answers in its
    place.  (The book's own entry is gone from both tiers.) *)
Theorem invalidate_leaves_cached_list :
  String.length (GenerateBookListKey Sample.tolkien) = 38%nat /\
  (let c1 := BookCacheOps.SetBookList Sample.local_cache Sample.tolkien Sample.page 0 true in
   let c2 := BookCacheOps.InvalidateBook c1 Sample.id1 true true in
   let c3 := BookCacheOps.InvalidateBook c2 Sample.id1 true true in
   (BookCacheOps.GetBookList c2 Sample.tolkien 1 true).1 = (Some Sample.page, true) /\
   (BookCacheOps.GetBookList c3 Sample.tolkien 1 true).1 = (Some Sample.page, true) /\
   (BookCacheOps.GetBook c3 Sample.id1 1 true).1 = (None, false)) /\
  (let c0 := BookCacheOps.SetBook Sample.redis_cache Sample.hobbit 0 true in
   let c1 := BookCacheOps.SetBookList c0 Sample.tolkien Sample.page 0 true in
   let c2 := BookCacheOps.InvalidateBook c1 Sample.id1 true true in
   let c3 := BookCacheOps.InvalidateBook c2 Sample.id1 true true in
   (exists r, redis c3 = Some (RedisCache r) /\ Redis.store r = ∅) /\
   (BookCacheOps.GetBookList c2 Sample.tolkien 1 true).1 = (Some Sample.page, true) /\
   (BookCacheOps.GetBookList c3 Sample.tolkien 1 true).1 = (Some Sample.page, true) /\
   (BookCacheOps.GetBook c3 Sample.id1 1 true).1 = (None, false)).
Proof.
  split; [apply list_key_length|]. split.
  - cbv zeta. split; [|split].
    + apply GetBookList_local_hit with (e := 0 + ttl Sample.local_cache);
        [reflexivity | | vm_compute; discriminate].
      rewrite InvalidateBook_keeps_list_entries. apply SetBookList_local.
    + apply (stale_list_after_invalidate Sample.local_cache);
        [reflexivity | vm_compute; discriminate].
    + vm_compute. reflexivity.
  - cbv zeta. split; [|split; [|split]].
    + eexists. split; vm_compute; reflexivity.
    + vm_compute. reflexivity.
    + vm_compute. reflexivity.
    + vm_compute. reflexivity.
Qed.

(** C10.  On a cache whose [cleanup] channel is open, [Shutdown] returns:
    the context is cancelled, so the sweeper no longer runs, the channel
    is closed and so is the client of the external tier when there is
    one; [Shutdown] on the cache it leaves panics on the closed channel. *)
Theorem shutdown_once_then_panics (c : BookCache) :
  cleanup_closed c = false ->
  exists c',
    BookCacheOps.Shutdown c = Ret c' /\
    cancelled c' = true /\
    cleanup_closed c' = true /\
    (forall now, BookCacheOps.cleanupExpired_tick c' now = c') /\
    (forall r, BookCacheOps.external c = Some (RedisCache r) ->
       exists r', redis c' = Some (RedisCache r') /\ Redis.closed r' = true) /\
    BookCacheOps.Shutdown c' = Panic "close of closed channel".
Proof.
  intros Hopen. unfold BookCacheOps.Shutdown. rewrite Hopen.
  eexists. split; [reflexivity|]. simpl.
  repeat split.
  - intros now. unfold BookCacheOps.cleanupExpired_tick. simpl.
    now rewrite andb_false_r.
  - intros r Hr. rewrite Hr. simpl.
    destruct (Redis.closed r) eqn:Hc; eexists; split; try reflexivity; simpl; auto.
Qed.

Lemma shutdown_once_then_panics_witness :
  exists c',
    BookCacheOps.Shutdown Sample.redis_cache = Ret c' /\
    cancelled c' = true /\
    cleanup_closed c' = true /\
    (forall now, BookCacheOps.cleanupExpired_tick c' now = c') /\
    (forall r, BookCacheOps.external Sample.redis_cache = Some (RedisCache r) ->
       exists r', redis c' = Some (RedisCache r') /\ Redis.closed r' = true) /\
    BookCacheOps.Shutdown c' = Panic "close of closed channel".
Proof. apply (shutdown_once_then_panics Sample.redis_cache). reflexivity. Defined.

(** ** Cache keys *)






(** ** Round trip *)




(** ** The worker pool *)

Section PoolFacts.

Import Pool.

Lemma select2_done (poll : Poll) (r : bool) : exists b, select2 poll r true = Some b.
Proof. destruct poll, r; simpl; eauto. Qed.

Lemma select2_DoneFirst (r : bool) : select2 DoneFirst r true = Some false.
Proof. reflexivity. Qed.

(** A move of a worker keeps the jobs: what has been processed followed
    by what is buffered stays the same list. *)
Lemma worker_step_conserves (bp bp' : BookProcessor) (i : nat) (poll : Poll) :
  worker_step bp i poll = Some (Ret bp') ->
  processed bp' ++ buf (jobQueue bp') = processed bp ++ buf (jobQueue bp) /\
  ctx_done bp' = ctx_done bp /\
  chan_closed (jobQueue bp') = chan_closed (jobQueue bp).
Proof.
  unfold worker_step. intros H.
  destruct (pool bp !! i) as [[|r|]|] eqn:Hi; try discriminate.
  - destruct (select2 poll _ _) as [[|]|]; try discriminate.
    + destruct (buf (jobQueue bp)) as [|job rest] eqn:Hb;
        injection H as <-; simpl; rewrite ?Hb; repeat split.
      now rewrite <- app_assoc.
    + injection H as <-. simpl. repeat split.
  - destruct (select2 poll _ _) as [[|]|]; try discriminate.
    + destruct (send (resultChan bp) r); try discriminate.
      injection H as <-. simpl. repeat split.
    + injection H as <-. simpl. repeat split.
Qed.

Lemma sum_weight_insert (l : list Worker) (i : nat) (w w' : Worker) :
  l !! i = Some w ->
  (sum_list (worker_weight <$> <[i := w']> l) + worker_weight w
   = sum_list (worker_weight <$> l) + worker_weight w')%nat.
Proof.
  revert i. induction l as [|x l IH]; intros [|i] H; csimpl in *; try discriminate.
  - injection H as ->. lia.
  - specialize (IH i H). lia.
Qed.

(** Every move of a worker uses up some of the weight. *)
Lemma worker_step_decreases (bp bp' : BookProcessor) (i : nat) (poll : Poll) :
  worker_step bp i poll = Some (Ret bp') ->
  (pool_weight bp' < pool_weight bp)%nat /\ length (pool bp') = length (pool bp).
Proof.
  unfold worker_step, pool_weight. intros H.
  destruct (pool bp !! i) as [[|r|]|] eqn:Hi; try discriminate.
  - destruct (select2 poll _ _) as [[|]|]; try discriminate.
    + destruct (buf (jobQueue bp)) as [|job rest] eqn:Hb; injection H as <-; simpl;
        rewrite ?Hb, length_insert; (split; [|reflexivity]).
      * pose proof (sum_weight_insert _ _ _ WDone Hi). simpl in *. lia.
      * pose proof (sum_weight_insert _ _ _ (WSend (processJob job)) Hi). simpl in *. lia.
    + injection H as <-. simpl. rewrite length_insert. split; [|reflexivity].
      pose proof (sum_weight_insert _ _ _ WDone Hi). simpl in *. lia.
  - destruct (select2 poll _ _) as [[|]|]; try discriminate.
    + destruct (send (resultChan bp) r); try discriminate.
      injection H as <-. simpl. rewrite length_insert. split; [|reflexivity].
      pose proof (sum_weight_insert _ _ _ WLoop Hi). simpl in *. lia.
    + injection H as <-. simpl. rewrite length_insert. split; [|reflexivity].
      pose proof (sum_weight_insert _ _ _ WDone Hi). simpl in *. lia.
Qed.

Lemma sum_weight_bound (l : list Worker) :
  (sum_list (worker_weight <$> l) <= 3 * length l)%nat.
Proof. induction l as [|[|r|] l IH]; csimpl in *; lia. Qed.

Lemma run_workers_conserves (sched : list (nat * Poll)) (bp bp' : BookProcessor) :
  run_workers sched bp = Some (Ret bp') ->
  processed bp' ++ buf (jobQueue bp') = processed bp ++ buf (jobQueue bp) /\
  ctx_done bp' = ctx_done bp /\
  chan_closed (jobQueue bp') = chan_closed (jobQueue bp) /\
  (length sched + pool_weight bp' <= pool_weight bp)%nat.
Proof.
  revert bp. induction sched as [|[i poll] sched IH]; intros bp H; simpl in H.
  - injection H as <-. repeat split. simpl. lia.
  - destruct (worker_step bp i poll) as [[bp1|msg]|] eqn:Hs; try discriminate.
    destruct (IH _ H) as (Hc & Hd & Hq & Hw).
    destruct (worker_step_conserves _ _ _ _ Hs) as (Hc1 & Hd1 & Hq1).
    destruct (worker_step_decreases _ _ _ _ Hs) as (Hw1 & _).
    repeat split; try congruence. simpl. lia.
Qed.

(** Once the context is cancelled no live worker is parked. *)
Lemma worker_never_parked (bp : BookProcessor) (i : nat) (w : Worker) (poll : Poll) :
  ctx_done bp = true -> pool bp !! i = Some w -> w <> WDone ->
  exists o, worker_step bp i poll = Some o.
Proof.
  intros Hd Hi Hw. unfold worker_step. rewrite Hi, Hd.
  destruct w as [|r|]; [| |congruence].
  - destruct (select2_done poll (recv_ready (jobQueue bp))) as [b ->].
    destruct b; [destruct (buf (jobQueue bp))|]; eauto.
  - destruct (select2_done poll (send_ready (resultChan bp))) as [b ->].
    destruct b; [destruct (send (resultChan bp) r)|]; eauto.
Qed.

(** A worker that polls the cancellation first returns, whatever is
    buffered. *)
Lemma worker_exits_on_cancel (bp : BookProcessor) (i : nat) (w : Worker) :
  ctx_done bp = true -> pool bp !! i = Some w -> w <> WDone ->
  exists bp',
    worker_step bp i DoneFirst = Some (Ret bp') /\
    pool bp' !! i = Some WDone /\
    jobQueue bp' = jobQueue bp /\
    processed bp' = processed bp.
Proof.
  intros Hd Hi Hw. unfold worker_step. rewrite Hi, Hd.
  assert (Hlt : (i < length (pool bp))%nat) by (eapply lookup_lt_Some; eauto).
  destruct w as [|r|]; [| |congruence]; simpl;
    (eexists; split; [reflexivity|]; simpl; split; [|split; reflexivity]);
    now apply list_lookup_insert_eq.
Qed.

(** A worker that polls the queue first takes the job at its head. *)
Lemma worker_takes_head (bp : BookProcessor) (i : nat) (job : BookJob) (rest : list BookJob) :
  pool bp !! i = Some WLoop -> buf (jobQueue bp) = job :: rest ->
  exists bp',
    worker_step bp i ChanFirst = Some (Ret bp') /\
    processed bp' = processed bp ++ [job] /\
    buf (jobQueue bp') = rest /\
    pool bp' !! i = Some (WSend (processJob job)).
Proof.
  intros Hi Hb. unfold worker_step. rewrite Hi.
  assert (Hlt : (i < length (pool bp))%nat) by (eapply lookup_lt_Some; eauto).
  unfold recv_ready. rewrite Hb. simpl.
  rewrite orb_true_r. simpl.
  eexists; split; [reflexivity|]. simpl. repeat split.
  now apply list_lookup_insert_eq.
Qed.

Lemma Stop_signal_spec (bp bp1 : BookProcessor) :
  Stop_signal bp = Ret bp1 ->
  ctx_done bp1 = true /\ chan_closed (jobQueue bp1) = true /\
  buf (jobQueue bp1) = buf (jobQueue bp) /\ pool bp1 = pool bp /\
  processed bp1 = processed bp.
Proof.
  unfold Stop_signal, close, cancel. simpl.
  destruct (chan_closed (jobQueue bp)); [discriminate|].
  intros H. injection H as <-. simpl. repeat split.
Qed.

(** [SubmitJob] on a running pool with a buffered queue: accepted while
    there is room, refused with an error when the buffer is full. *)
Lemma SubmitJob_running (bp : BookProcessor) (job : BookJob) (poll : Poll) :
  ctx_done bp = false -> chan_closed (jobQueue bp) = false -> 0 < cap (jobQueue bp) ->
  if Z.of_nat (length (buf (jobQueue bp))) <? cap (jobQueue bp)
  then exists bp', SubmitJob bp job poll = Ret (None, bp') /\
                   buf (jobQueue bp') = buf (jobQueue bp) ++ [job]
  else SubmitJob bp job poll = Ret (Some "job queue is full", bp).
Proof.
  intros Hd Hc _. unfold SubmitJob, send_ready, send. rewrite Hd, Hc. simpl.
  destruct (_ <? _); destruct poll; simpl; eauto.
Qed.

(** On a closed queue the send case is ready and panics. *)
Lemma SubmitJob_closed_panics (bp : BookProcessor) (job : BookJob) :
  chan_closed (jobQueue bp) = true ->
  SubmitJob bp job ChanFirst = Panic "send on closed channel".
Proof.
  intros Hc. unfold SubmitJob, send_ready, send. rewrite Hc. reflexivity.
Qed.

(** With room in an open queue the send case is ready, cancelled or not. *)
Lemma SubmitJob_send_first (bp : BookProcessor) (job : BookJob) :
  chan_closed (jobQueue bp) = false ->
  Z.of_nat (length (buf (jobQueue bp))) < cap (jobQueue bp) ->
  exists bp',
    SubmitJob bp job ChanFirst = Ret (None, bp') /\
    buf (jobQueue bp') = buf (jobQueue bp) ++ [job] /\
    ctx_done bp' = ctx_done bp.
Proof.
  intros Hc Hroom. apply Z.ltb_lt in Hroom.
  unfold SubmitJob, send_ready, send. rewrite Hc, Hroom. simpl.
  eexists. repeat split.
Qed.

(** Polled first, the cancellation refuses the job. *)
Lemma SubmitJob_done_first (bp : BookProcessor) (job : BookJob) :
  ctx_done bp = true ->
  SubmitJob bp job DoneFirst = Ret (Some "processor is shutting down", bp).
Proof. intros Hd. unfold SubmitJob. rewrite Hd. reflexivity. Qed.

End PoolFacts.

(** The drain of C4 fails: with one job buffered, [Stop] cancels and
    closes the queue, the worker polls the cancellation first and returns,
    so does the result processor, [Stop] returns, and the job accepted
    before [Stop] is still in the queue, never processed. *)
Lemma stop_discards_buffered_job :
  exists bp1 bp2 bp3 bp4 bp5,
    Pool.SubmitJob (Pool.Start Sample.pool1) Sample.notify ChanFirst = Ret (None, bp1) /\
    Pool.Stop_signal bp1 = Ret bp2 /\
    Pool.worker_step bp2 0 DoneFirst = Some (Ret bp3) /\
    Pool.collector_step bp3 0 DoneFirst = Some bp4 /\
    Pool.Stop_finish bp4 = Some (Ret bp5) /\
    pool bp5 = [WDone] /\ collectors bp5 = [CDone] /\
    processed bp5 = [] /\ buf (jobQueue bp5) = [Sample.notify].
Proof. do 5 eexists. repeat split. Qed.

(** C4, amended.  [Stop] cancels the context and closes the job queue,
    leaving the buffered jobs in place.  From then on no live worker is
    parked; a worker that polls the cancellation first returns at once,
    jobs buffered or not; a worker at its outer [select] that polls the
    queue first takes and processes the job at its head.  Along every
    schedule of worker moves the jobs processed followed by the jobs still
    buffered are the jobs processed before [Stop] followed by the jobs
    buffered at [Stop] — no job is processed twice, and what is still
    buffered when the workers have returned is dropped — and the schedule
    has at most 2 * (jobs buffered) + 3 * (workers) moves. *)
Theorem stop_then_workers (bp bp1 : BookProcessor) :
  Pool.Stop_signal bp = Ret bp1 ->
  ctx_done bp1 = true /\ chan_closed (jobQueue bp1) = true /\
  buf (jobQueue bp1) = buf (jobQueue bp) /\
  forall sched bp2,
    Pool.run_workers sched bp1 = Some (Ret bp2) ->
    processed bp2 ++ buf (jobQueue bp2) = processed bp ++ buf (jobQueue bp) /\
    (length sched <= 2 * length (buf (jobQueue bp)) + 3 * length (pool bp))%nat /\
    (forall i w poll, pool bp2 !! i = Some w -> w <> WDone ->
       exists o, Pool.worker_step bp2 i poll = Some o) /\
    (forall i w, pool bp2 !! i = Some w -> w <> WDone ->
       exists bp3,
         Pool.worker_step bp2 i DoneFirst = Some (Ret bp3) /\
         pool bp3 !! i = Some WDone /\
         jobQueue bp3 = jobQueue bp2 /\
         processed bp3 = processed bp2) /\
    (forall i job rest, pool bp2 !! i = Some WLoop -> buf (jobQueue bp2) = job :: rest ->
       exists bp3,
         Pool.worker_step bp2 i ChanFirst = Some (Ret bp3) /\
         processed bp3 = processed bp2 ++ [job] /\
         buf (jobQueue bp3) = rest /\
         pool bp3 !! i = Some (WSend (Pool.processJob job))).
Proof.
  intros Hstop.
  destruct (Stop_signal_spec _ _ Hstop) as (Hd & Hc & Hb & Hp & Hpr).
  split; [exact Hd|]. split; [exact Hc|]. split; [exact Hb|].
  intros sched bp2 H.
  destruct (run_workers_conserves _ _ _ H) as (Hcons & Hd2 & _ & Hw).
  rewrite Hd in Hd2.
  split; [congruence|]. split.
  { unfold pool_weight in Hw. rewrite Hb, Hp in Hw.
    pose proof (sum_weight_bound (pool bp)). lia. }
  split; [|split].
  - intros i w poll Hi Hne. exact (worker_never_parked bp2 i w poll Hd2 Hi Hne).
  - intros i w Hi Hne. exact (worker_exits_on_cancel bp2 i w Hd2 Hi Hne).
  - intros i job rest Hi Hq. exact (worker_takes_head bp2 i job rest Hi Hq).
Qed.

Lemma stop_then_workers_witness :
  exists bp1 bp2,
    Pool.SubmitJob (Pool.Start Sample.pool1) Sample.notify ChanFirst = Ret (None, bp1) /\
    Pool.Stop_signal bp1 = Ret bp2 /\
    forall sched bp3,
      Pool.run_workers sched bp2 = Some (Ret bp3) ->
      processed bp3 ++ buf (jobQueue bp3) = [Sample.notify] /\
      (length sched <= 5)%nat.
Proof.
  do 2 eexists. split; [reflexivity|]. split; [reflexivity|].
  intros sched bp3 H.
  match type of H with
  | Pool.run_workers _ ?b = _ =>
      destruct (stop_then_workers
                  (mkProcessor 1 (mkChan [Sample.notify] 1 false) (mkChan [] 1 false)
                               false 2 [WLoop] [CLoop] [] [])
                  b eq_refl) as (_ & _ & _ & Hall)
  end.
  destruct (Hall sched bp3 H) as (Hc & Hl & _). split; [exact Hc | exact Hl].
Defined.

(** C5.  Once shutdown has begun a submission is not always refused.
    After [Stop] has cancelled and closed the queue, a [SubmitJob] whose
    [select] polls the send first panics on the closed channel; after the
    cancellation alone (all that [Shutdown] does, and [Stop] before it
    closes the queue) the same [select] enqueues the job and returns nil. *)
Theorem submit_after_shutdown_begins :
  Pool.NewBookProcessor 10 100 = Ret Sample.pool0 /\
  (exists bp1,
     Pool.Stop_signal (Pool.Start Sample.pool0) = Ret bp1 /\
     Pool.SubmitJob bp1 Sample.notify ChanFirst = Panic "send on closed channel") /\
  (exists bp2,
     Pool.SubmitJob (Pool.cancel (Pool.Start Sample.pool0)) Sample.notify ChanFirst
     = Ret (None, bp2) /\
     ctx_done bp2 = true /\
     buf (jobQueue bp2) = [Sample.notify]).
Proof.
  split; [reflexivity|]. split.
  - eexists. split; reflexivity.
  - eexists. repeat split.
Qed.

(** ** The book service *)

Lemma GetBookList_ttl (c : BookCache) (f : BookFilter.t) (now : Z) (net : bool) :
  ttl (BookCacheOps.GetBookList c f now net).2 = ttl c.
Proof.
  unfold BookCacheOps.GetBookList, BookCacheOps.lookup_local.
  destruct (BookCacheOps.external c) as [r|];
    [destruct (CacheImpl.GetBookList _ _ _ _) as [? [?|]]; [|reflexivity]|];
    (destruct (inMemory c !! _) as [en|]; [|reflexivity];
     destruct (ExpiresAt en <? _); [reflexivity|];
     destruct (entry_Data en); reflexivity).
Qed.

Section ServiceFacts.

Import Service.

(** A successful [CreateBook] on a service with a cache leaves the
    in-memory tier empty: [Clear] runs right after [SetBook]. *)
Lemma CreateBook_empties_local_tier
    (s s' : bookService) (req req' : CreateBookRequest.t) (w : CreateWorld)
    (b : Book.t) (c : BookCache) :
  CreateBook s req w = Ret ((Some b, None), req', s') ->
  cache s = Some c ->
  exists c', cache s' = Some c' /\ inMemory c' = ∅.
Proof.
  unfold CreateBook. intros H Hc.
  destruct (first_error _); [discriminate|].
  destruct (exists_timeout w); [discriminate|].
  destruct (bookRepository.ExistsByISBN _ _ _ _) as [[|] [e|]]; try discriminate.
  destruct (bookRepository.Create _ _ _ _ _ _) as [[book|e] db]; [|discriminate].
  rewrite Hc in H.
  destruct (processor s) as [bp|].
  - destruct (Pool.SubmitJob _ _ _) as [[e bp']|]; [|discriminate].
    injection H as _ _ <-. simpl.
    eexists. split; [reflexivity|].
    unfold BookCacheOps.Clear. destruct (BookCacheOps.external _); reflexivity.
  - injection H as _ _ <-. simpl.
    eexists. split; [reflexivity|].
    unfold BookCacheOps.Clear. destruct (BookCacheOps.external _); reflexivity.
Qed.



Lemma no_row_with_isbn (db : bookRepository.DB) (isbn : string) :
  bookRepository.has_isbn db isbn = false ->
  List.filter (fun b => String.eqb (Book.ISBN b) isbn && true) db = [].
Proof.
  unfold bookRepository.has_isbn.
  induction db as [|b db IH]; [reflexivity|].
  simpl. intros H. apply orb_false_iff in H as [Hb Hdb].
  rewrite Hb. simpl. now apply IH.
Qed.

(** The uniqueness check of [CreateBook] looks for the ISBN as the request
    spells it.  When the table holds the normalized ISBN but not that
    spelling, the check passes and the INSERT fails on the UNIQUE
    constraint. *)
Lemma CreateBook_misses_respelled_duplicate
    (s : bookService) (req : CreateBookRequest.t) (w : CreateWorld) :
  validateTitle (CreateBookRequest.Title req) = None ->
  validateAuthor (CreateBookRequest.Author req) = None ->
  validateISBN (CreateBookRequest.ISBN req) = None ->
  exists_timeout w = false -> exists_fault w = None -> create_fault w = None ->
  bookRepository.has_isbn (bookRepo s) (CreateBookRequest.ISBN req) = false ->
  bookRepository.has_isbn (bookRepo s) (normalizeISBN (CreateBookRequest.ISBN req)) = true ->
  bookRepository.has_id (bookRepo s) (new_id w) = false ->
  CreateBook s req w
  = Ret ((None, Some ("failed to create book: failed to create book: " +:+
                      bookRepository.pq_unique "books_isbn_key")),
         normalizeBookData req, recordMetrics s (elapsed w)).
Proof.
  intros Ht Ha Hi Hto Hef Hcf Hraw Hnorm Hid.
  unfold CreateBook. rewrite Ht, Ha, Hi.
  assert (Hfe : first_error (arrivals (arrival w) None None None) = None)
    by (destruct (arrival w); reflexivity).
  rewrite Hfe.
  rewrite Hto, Hef. unfold bookRepository.ExistsByISBN.
  rewrite (no_row_with_isbn _ _ Hraw). simpl.
  unfold bookRepository.Create. rewrite Hcf.
  destruct (String.eqb _ "");
    cbn [Book.ID Book.ISBN normalizeBookData CreateBookRequest.ISBN];
    rewrite Hid, Hnorm; reflexivity.
Qed.

End ServiceFacts.

(** C1.  Two creates whose ISBNs normalize to the same string: the first
    succeeds and stores the normalized ISBN; the second, spelled with
    hyphens, passes the uniqueness check, which looks for the ISBN as
    spelled, and fails only at the INSERT on the UNIQUE constraint.  Its
    error does not say that the book already exists and the handler does
    not answer with a conflict. *)
Theorem hyphenated_duplicate_is_not_a_conflict :
  Service.normalizeISBN (CreateBookRequest.ISBN Sample.hyphenated)
  = Service.normalizeISBN (CreateBookRequest.ISBN Sample.request) /\
  exists b1 rq1 s1 rq2 s2,
    Service.CreateBook Sample.service0 Sample.request (Sample.calm Sample.id1 1000)
    = Ret ((Some b1, None), rq1, s1) /\
    Book.ISBN b1 = "9780547928210" /\
    bookRepository.ExistsByISBN (bookRepo s1)
      (CreateBookRequest.ISBN Sample.hyphenated) None None = (false, None) /\
    let e := "failed to create book: failed to create book: " +:+
             bookRepository.pq_unique "books_isbn_key" in
    Service.CreateBook s1 Sample.hyphenated (Sample.calm Sample.id2 2000)
    = Ret ((None, Some e), rq2, s2) /\
    Handlers.isDuplicateError e = false /\
    Handlers.classify e = Handlers.Internal.
Proof.
  split; [reflexivity|].
  do 5 eexists.
  split; [vm_compute; reflexivity|].
  split; [reflexivity|].
  split; [reflexivity|].
  split; [vm_compute; reflexivity|].
  split; vm_compute; reflexivity.
Qed.

(** C3.  After a successful [CreateBook] the new book is not in the
    cache.  Without external tier the in-memory tier is empty as soon as
    the call returns, and [GetBook] misses.  With the external tier the
    book is there until the flush that [Clear] has handed to a goroutine
    runs and deletes the book keys along with the list keys; then
    [GetBook] misses as well. *)
Theorem created_book_not_in_cache :
  (exists b rq s1 c1,
     Service.CreateBook Sample.service_local Sample.request (Sample.calm Sample.id1 1000)
     = Ret ((Some b, None), rq, s1) /\
     cache s1 = Some c1 /\
     inMemory c1 = ∅ /\
     (BookCacheOps.GetBook c1 (Book.ID b) 1001 true).1 = (None, false)) /\
  (exists b rq s1 c1,
     Service.CreateBook Sample.service_redis Sample.request (Sample.calm Sample.id1 1000)
     = Ret ((Some b, None), rq, s1) /\
     cache s1 = Some c1 /\
     spawned c1 = [FlushRedis] /\
     (BookCacheOps.GetBook (BookCacheOps.run_spawned c1 true true) (Book.ID b) 1001 true).1
     = (None, false)).
Proof.
  split.
  - do 4 eexists. split; [vm_compute; reflexivity|].
    split; [reflexivity|]. split; vm_compute; reflexivity.
  - do 4 eexists. split; [vm_compute; reflexivity|].
    split; [reflexivity|]. split; vm_compute; reflexivity.
Qed.

(** The interval of C9 leaves out a limit of one; [GetAllBooks] keeps it. *)
Lemma limit_one_is_kept :
  exists resp s',
    Service.GetAllBooks Sample.service0 (BookFilter.mk "" "" "" None 1 0) Sample.quiet
    = ((Some resp, None), s') /\
    BooksListResponse.Limit resp = 1 /\
    ~ (1 < BooksListResponse.Limit resp <= 100).
Proof.
  do 2 eexists. split; [vm_compute; reflexivity|]. simpl. split; [reflexivity | lia].
Qed.

(** C9, amended.  On a cache miss (or without cache) [GetAllBooks] asks
    the repository with the filter's limit when it lies in [1, 100] and
    with 50 otherwise, and with the filter's offset when it is not
    negative and with 0 otherwise.  The response it returns carries these
    two values with the page and the total the repository gave, and is
    what the cache then holds for the filter so adjusted; an error of the
    repository is returned wrapped. *)
Theorem GetAllBooks_effective_page (s : bookService) (f : BookFilter.t) (w : Service.ListWorld) :
  match cache s with
  | Some c => (BookCacheOps.GetBookList c f (Service.get_now w) (Service.get_net w)).1.2 = false
  | None => True
  end ->
  exists limit offset,
    limit = (if (BookFilter.Limit f <=? 0) || (100 <? BookFilter.Limit f)
             then 50 else BookFilter.Limit f) /\
    offset = (if BookFilter.Offset f <? 0 then 0 else BookFilter.Offset f) /\
    1 <= limit <= 100 /\ 0 <= offset /\
    let f' := BookFilter.mk (BookFilter.Author f) (BookFilter.Genre f)
                (BookFilter.Language f) (BookFilter.Available f) limit offset in
    match bookRepository.GetAll (bookRepo s) f' (Service.count_fault w) (Service.query_fault w) with
    | inl (page, total) =>
        let resp := BooksListResponse.mk page total limit offset in
        (Service.GetAllBooks s f w).1 = (Some resp, None) /\
        match cache s with
        | Some c =>
            exists c', cache (Service.GetAllBooks s f w).2 = Some c' /\
                       inMemory c' !! GenerateBookListKey f'
                       = Some (mkEntry (DList resp) (Service.set_now w + ttl c))
        | None => cache (Service.GetAllBooks s f w).2 = None
        end
    | inr err =>
        (Service.GetAllBooks s f w).1 = (None, Some ("failed to get books: " +:+ err))
    end.
Proof.
  intros Hmiss.
  eexists _, _. split; [reflexivity|]. split; [reflexivity|].
  split.
  { destruct (BookFilter.Limit f <=? 0) eqn:H1; simpl; [lia|].
    destruct (100 <? BookFilter.Limit f) eqn:H2; [lia|].
    apply Z.leb_gt in H1. apply Z.ltb_ge in H2. lia. }
  split.
  { destruct (BookFilter.Offset f <? 0) eqn:H1; [lia|]. apply Z.ltb_ge in H1. lia. }
  cbv zeta.
  unfold Service.GetAllBooks.
  destruct f as [a g l av n m]. cbn [BookFilter.Author BookFilter.Genre BookFilter.Language
    BookFilter.Available BookFilter.Limit BookFilter.Offset] in *.
  destruct (cache s) as [c|] eqn:Hc.
  - destruct (BookCacheOps.GetBookList c _ _ _) as [[resp found] c1] eqn:Hg.
    simpl in Hmiss. subst found.
    assert (Httl : ttl c1 = ttl c).
    { change c1 with ((resp, false, c1).2). rewrite <- Hg. apply GetBookList_ttl. }
    destruct ((n <=? 0) || (100 <? n));
      cbn [BookFilter.Author BookFilter.Genre BookFilter.Language
           BookFilter.Available BookFilter.Limit BookFilter.Offset];
      destruct (m <? 0);
      cbn [BookFilter.Author BookFilter.Genre BookFilter.Language
           BookFilter.Available BookFilter.Limit BookFilter.Offset bookRepo
           Service.count_miss Service.with_cache];
      (destruct (bookRepository.GetAll _ _ _ _) as [[page total]|err]; simpl;
       [split; [reflexivity|]; eexists; split; [reflexivity|];
        rewrite <- Httl; apply SetBookList_local
       | reflexivity]).
  - destruct ((n <=? 0) || (100 <? n));
      cbn [BookFilter.Author BookFilter.Genre BookFilter.Language
           BookFilter.Available BookFilter.Limit BookFilter.Offset];
      destruct (m <? 0);
      cbn [BookFilter.Author BookFilter.Genre BookFilter.Language
           BookFilter.Available BookFilter.Limit BookFilter.Offset];
      (destruct (bookRepository.GetAll _ _ _ _) as [[page total]|err]; simpl;
       [rewrite Hc; split; [reflexivity | exact Hc] | reflexivity]).
Qed.

Lemma GetAllBooks_effective_page_witness :
  exists resp,
    (Service.GetAllBooks Sample.service_local (BookFilter.mk "" "" "" None 500 (-3))
       Sample.quiet).1 = (Some resp, None) /\
    BooksListResponse.Limit resp = 50 /\ BooksListResponse.Offset resp = 0.
Proof.
  destruct (GetAllBooks_effective_page Sample.service_local
              (BookFilter.mk "" "" "" None 500 (-3)) Sample.quiet)
    as (limit & offset & Hl & Ho & _ & _ & H).
  - vm_compute. reflexivity.
  - simpl in Hl, Ho. subst limit offset. cbv zeta in H.
    change (bookRepository.GetAll (bookRepo Sample.service_local)
              (BookFilter.mk "" "" "" None 50 0)
              (Service.count_fault Sample.quiet) (Service.query_fault Sample.quiet))
      with (@inl (list Book.t * Z) error ([], 0)) in H.
    destruct H as [H _]. eexists. split; [exact H|]. split; reflexivity.
Defined.

(** ** BulkCreateBooks *)

Section BulkFacts.

Import BulkOps.

Lemma sum_list_fmap_insert {A} (f : A -> nat) (l : list A) (i : nat) (x y : A) :
  l !! i = Some x ->
  (sum_list (f <$> <[i := y]> l) + f x = sum_list (f <$> l) + f y)%nat.
Proof.
  revert i. induction l as [|a l IH]; intros [|i] H; csimpl in *; try discriminate.
  - injection H as ->. lia.
  - specialize (IH i H). lia.
Qed.

Lemma sum_list_fmap_zero {A} (f : A -> nat) (l : list A) (i : nat) (x : A) :
  sum_list (f <$> l) = 0%nat -> l !! i = Some x -> f x = 0%nat.
Proof.
  revert i. induction l as [|a l IH]; intros [|i] Hs H; csimpl in *; try discriminate.
  - injection H as ->. lia.
  - apply (IH i); [lia | exact H].
Qed.

Lemma sum_list_fmap_repeat {A} (f : A -> nat) (x : A) (n : nat) :
  sum_list (f <$> repeat x n) = (n * f x)%nat.
Proof. induction n as [|n IH]; csimpl; [reflexivity | rewrite IH; lia]. Qed.
















End BulkFacts.



(** * Further properties of the code *)

(** ** Strings *)

Section StringFacts.

Lemma string_app_nil_r (s : string) : s +:+ "" = s.
Proof.
  induction s as [|c s IH]; [reflexivity|].
  change (String c s +:+ "") with (String c (s +:+ "")). now rewrite IH.
Qed.

Lemma substring_0_app (sub post : string) :
  String.substring 0 (String.length sub) (sub +:+ post) = sub.
Proof. induction sub as [|c sub IH]; simpl; [now destruct post | now rewrite IH]. Qed.

Lemma substring_skip (pre s : string) (m : nat) :
  String.substring (String.length pre) m (pre +:+ s) = String.substring 0 m s.
Proof. induction pre as [|c pre IH]; simpl; [reflexivity | exact IH]. Qed.

Lemma substring_0_split (m : nat) (str sub : string) :
  String.substring 0 m str = sub -> String.length sub = m ->
  exists post, str = sub +:+ post.
Proof.
  revert str sub. induction m as [|m IH]; intros str sub H Hl.
  - destruct sub; [|discriminate]. exists str. reflexivity.
  - destruct str as [|c str]; simpl in H.
    + subst sub. discriminate.
    + destruct sub as [|d sub]; [discriminate|].
      injection H as -> H. simpl in Hl. injection Hl as Hl.
      destruct (IH _ _ H Hl) as [post ->]. exists post. reflexivity.
Qed.

Lemma substring_split (k m : nat) (str sub : string) :
  (k + m <= String.length str)%nat ->
  String.substring k m str = sub -> String.length sub = m ->
  exists pre post, str = pre +:+ sub +:+ post /\ String.length pre = k.
Proof.
  revert str. induction k as [|k IH]; intros str Hb H Hl.
  - destruct (substring_0_split _ _ _ H Hl) as [post ->].
    exists "", post. split; reflexivity.
  - destruct str as [|c str]; simpl in Hb; [lia|].
    simpl in H. destruct (IH str ltac:(lia) H Hl) as (pre & post & -> & Hk).
    exists (String c pre), post. split; [reflexivity | simpl; now rewrite Hk].
Qed.

Lemma substring_at (pre sub post : string) :
  String.substring (String.length pre) (String.length sub) (pre +:+ sub +:+ post) = sub.
Proof. rewrite substring_skip. apply substring_0_app. Qed.

Lemma containsSubstring_from_true (fuel i : nat) (str sub : string) :
  Handlers.containsSubstring_from fuel i str sub = true <->
  exists k, (i <= k < i + fuel)%nat /\
            String.substring k (String.length sub) str = sub.
Proof.
  revert i. induction fuel as [|fuel IH]; intros i; simpl.
  - split; [discriminate | intros (k & Hk & _); lia].
  - rewrite orb_true_iff, IH, String.eqb_eq. unfold Strings.slice.
    replace (i + String.length sub - i)%nat with (String.length sub) by lia.
    split.
    + intros [H|(k & Hk & H)]; [exists i | exists k]; split; auto; lia.
    + intros (k & Hk & H). destruct (decide (k = i)) as [->|Hne]; [left; exact H|].
      right. exists k. split; [lia | exact H].
Qed.

(** A string that occurs is found. *)
Lemma contains_of_occurrence (pre sub post : string) :
  Handlers.contains (pre +:+ sub +:+ post) sub = true.
Proof.
  unfold Handlers.contains.
  set (str := pre +:+ sub +:+ post).
  set (n := String.length str). set (m := String.length sub).
  assert (Hn : n = (String.length pre + m + String.length post)%nat).
  { unfold n, m, str. rewrite !string_length_app. lia. }
  apply andb_true_iff. split; [apply Nat.leb_le; lia|].
  destruct (decide (m < n)%nat) as [Hlt|Hge].
  + apply orb_true_iff. right. apply andb_true_iff. split; [now apply Nat.ltb_lt|].
    rewrite !orb_true_iff. right.
    unfold Handlers.containsSubstring. apply containsSubstring_from_true.
    exists (String.length pre). fold n m. split; [lia|].
    apply substring_at.
  + apply orb_true_iff. left. apply String.eqb_eq.
    assert (String.length pre = 0%nat /\ String.length post = 0%nat) as [Hp Hq] by lia.
    unfold str. destruct pre; [|discriminate]. destruct post; [|discriminate].
    change ("" +:+ sub +:+ "") with (sub +:+ ""). apply string_app_nil_r.
Qed.

End StringFacts.

(** X1.  [contains] of the handlers, written with length tests, a prefix
    test, a suffix test and a scan, answers true exactly when the second
    string occurs in the first. *)
Theorem contains_iff_occurs (str sub : string) :
  Handlers.contains str sub = true <-> occurs_in sub str.
Proof.
  unfold Handlers.contains, occurs_in.
  set (n := String.length str). set (m := String.length sub).
  split.
  - intros H. apply andb_true_iff in H as [Hle H]. apply Nat.leb_le in Hle.
    apply orb_true_iff in H as [H|H].
    { apply String.eqb_eq in H. subst. exists "", "".
      change ("" +:+ sub +:+ "") with (sub +:+ ""). now rewrite string_app_nil_r. }
    apply andb_true_iff in H as [Hlt H]. apply Nat.ltb_lt in Hlt.
    assert (Hk : exists k, (k + m <= n)%nat /\ String.substring k m str = sub).
    { rewrite !orb_true_iff in H. destruct H as [[H|H]|H].
      - apply String.eqb_eq in H. unfold Strings.slice in H.
        exists 0%nat. split; [lia|]. now rewrite Nat.sub_0_r in H.
      - apply String.eqb_eq in H. unfold Strings.slice in H.
        exists (n - m)%nat. split; [lia|].
        now replace (n - (n - m))%nat with m in H by lia.
      - unfold Handlers.containsSubstring in H.
        apply containsSubstring_from_true in H as (k & Hk & H).
        exists k. split; [fold n m in Hk; lia | exact H]. }
    destruct Hk as (k & Hb & Hs).
    destruct (substring_split k m str sub Hb Hs eq_refl) as (pre & post & E & _).
    eauto.
  - intros (pre & post & ->). apply contains_of_occurrence.
Qed.

(** ** Normalization and validation *)

Section NormalizeFacts.

Import Service.

Lemma remove_byte_idem (c : ascii) (s : string) :
  Strings.remove_byte c (Strings.remove_byte c s) = Strings.remove_byte c s.
Proof.
  induction s as [|d s IH]; simpl; [reflexivity|].
  destruct (Ascii.eqb c d) eqn:E; [exact IH|].
  simpl. rewrite E, IH. reflexivity.
Qed.

Lemma remove_byte_comm (a b : ascii) (s : string) :
  Strings.remove_byte a (Strings.remove_byte b s)
  = Strings.remove_byte b (Strings.remove_byte a s).
Proof.
  induction s as [|d s IH]; simpl; [reflexivity|].
  destruct (Ascii.eqb b d) eqn:Eb, (Ascii.eqb a d) eqn:Ea; simpl;
    rewrite ?Ea, ?Eb, IH; reflexivity.
Qed.

Lemma remove_byte_get (c : ascii) (s : string) (i : nat) :
  String.get i (Strings.remove_byte c s) <> Some c.
Proof.
  revert i. induction s as [|d s IH]; intros i; simpl; [discriminate|].
  destruct (Ascii.eqb c d) eqn:E; [apply IH|].
  destruct i as [|i]; simpl; [|apply IH].
  intros H. injection H as ->. now rewrite Ascii.eqb_refl in E.
Qed.

Lemma normalizeISBN_idem (isbn : string) :
  normalizeISBN (normalizeISBN isbn) = normalizeISBN isbn.
Proof.
  unfold normalizeISBN.
  rewrite (remove_byte_comm "-" " " (Strings.remove_byte "-" isbn)).
  now rewrite !remove_byte_idem.
Qed.

Lemma isValidISBN_normalized (isbn : string) :
  isValidISBN (normalizeISBN isbn) = isValidISBN isbn.
Proof. unfold isValidISBN. now rewrite normalizeISBN_idem. Qed.

Lemma isValidISBN_length (isbn : string) :
  isValidISBN isbn = true <->
  String.length (normalizeISBN isbn) = 10%nat \/ String.length (normalizeISBN isbn) = 13%nat.
Proof.
  unfold isValidISBN, Strings.len.
  destruct (Z.of_nat _ =? 10) eqn:E1, (Z.of_nat _ =? 13) eqn:E2; simpl;
    rewrite ?Z.eqb_eq, ?Z.eqb_neq in *; split; intros; try reflexivity; try lia;
    try discriminate.
Qed.

End NormalizeFacts.

(** X2.  [normalizeISBN] is idempotent and leaves no hyphen and no space;
    an ISBN is valid exactly when its normalized form has 10 or 13
    bytes, so validity is the same before and after normalization. *)
Theorem normalizeISBN_normal_form (isbn : string) :
  Service.normalizeISBN (Service.normalizeISBN isbn) = Service.normalizeISBN isbn /\
  (forall i, String.get i (Service.normalizeISBN isbn) <> Some "-"%char /\
             String.get i (Service.normalizeISBN isbn) <> Some " "%char) /\
  Service.isValidISBN (Service.normalizeISBN isbn) = Service.isValidISBN isbn /\
  (Service.isValidISBN isbn = true <->
   String.length (Service.normalizeISBN isbn) = 10%nat \/
   String.length (Service.normalizeISBN isbn) = 13%nat).
Proof.
  split; [apply normalizeISBN_idem|]. split; [|split].
  - intros i. split.
    + unfold Service.normalizeISBN. rewrite remove_byte_comm. apply remove_byte_get.
    + apply remove_byte_get.
  - apply isValidISBN_normalized.
  - apply isValidISBN_length.
Qed.

(** X3.  The sequential validator [validateCreateRequest] accepts exactly
    the requests that pass the three validations [CreateBook] runs and
    have a positive page count; [CreateBook] itself never looks at the
    page count: with every validation passed and the outside world
    answering, a request with zero pages is stored. *)
Theorem validateCreateRequest_iff (req : CreateBookRequest.t) :
  (ServiceMore.validateCreateRequest req = None <->
   Service.validateTitle (CreateBookRequest.Title req) = None /\
   Service.validateAuthor (CreateBookRequest.Author req) = None /\
   Service.validateISBN (CreateBookRequest.ISBN req) = None /\
   0 < CreateBookRequest.Pages req) /\
  (forall s w,
     Service.validateTitle (CreateBookRequest.Title req) = None ->
     Service.validateAuthor (CreateBookRequest.Author req) = None ->
     Service.validateISBN (CreateBookRequest.ISBN req) = None ->
     exists_timeout w = false -> exists_fault w = None -> create_fault w = None ->
     bookRepository.has_isbn (bookRepo s) (CreateBookRequest.ISBN req) = false ->
     bookRepository.has_isbn (bookRepo s)
       (Service.normalizeISBN (CreateBookRequest.ISBN req)) = false ->
     bookRepository.has_id (bookRepo s) (new_id w) = false ->
     cache s = None -> processor s = None ->
     exists book rq s',
       Service.CreateBook s req w = Ret ((Some book, None), rq, s') /\
       Book.Pages book = CreateBookRequest.Pages req).
Proof.
  split.
  - unfold ServiceMore.validateCreateRequest, Service.validateTitle,
      Service.validateAuthor, Service.validateISBN.
    rewrite isValidISBN_normalized.
    destruct (String.eqb (Strings.TrimSpace (CreateBookRequest.Title req)) "");
      [split; [discriminate | intros (H & _); discriminate]|].
    destruct (String.eqb (Strings.TrimSpace (CreateBookRequest.Author req)) "");
      [split; [discriminate | intros (_ & H & _); discriminate]|].
    destruct (String.eqb (Strings.TrimSpace (CreateBookRequest.ISBN req)) "");
      [split; [discriminate | intros (_ & _ & H & _); discriminate]|].
    destruct (Service.isValidISBN (CreateBookRequest.ISBN req)); simpl;
      [|split; [discriminate | intros (_ & _ & H & _); discriminate]].
    destruct (CreateBookRequest.Pages req <=? 0) eqn:Hp.
    + apply Z.leb_le in Hp. split; [discriminate | intros (_ & _ & _ & H); lia].
    + apply Z.leb_gt in Hp. split; auto.
  - intros s w Ht Ha Hi Hto Hef Hcf Hraw Hnorm Hid Hc Hp.
    unfold Service.CreateBook. rewrite Ht, Ha, Hi.
    assert (Hfe : Service.first_error (Service.arrivals (arrival w) None None None) = None)
      by (destruct (arrival w); reflexivity).
    rewrite Hfe, Hto, Hef. unfold bookRepository.ExistsByISBN.
    rewrite (no_row_with_isbn _ _ Hraw). simpl.
    unfold bookRepository.Create. rewrite Hcf, Hc, Hp.
    destruct (String.eqb _ "");
      cbn [Book.ID Book.ISBN Service.normalizeBookData CreateBookRequest.ISBN];
      rewrite Hid, Hnorm; eexists _, _, _; (split; [reflexivity|]); reflexivity.
Qed.

Lemma validateCreateRequest_iff_witness :
  ServiceMore.validateCreateRequest Sample.request = None /\
  exists book rq s',
    Service.CreateBook Sample.service0
      (CreateBookRequest.mk "The Hobbit" "J.R.R. Tolkien" "9780547928210" "" "" 0 0 "")
      (Sample.calm Sample.id1 1000)
    = Ret ((Some book, None), rq, s') /\
    Book.Pages book = 0.
Proof.
  split.
  - apply (proj1 (validateCreateRequest_iff Sample.request)). vm_compute.
    repeat split; reflexivity.
  - apply (proj2 (validateCreateRequest_iff
             (CreateBookRequest.mk "The Hobbit" "J.R.R. Tolkien" "9780547928210" "" "" 0 0 "")));
      reflexivity.
Defined.

(** ** Cache keys of books *)

Section UuidFacts.

Lemma hex_byte_app_inj (a b : Z) (s1 s2 : string) :
  Bytes.hex_byte a +:+ s1 = Bytes.hex_byte b +:+ s2 ->
  Bytes.hex_byte a = Bytes.hex_byte b /\ s1 = s2.
Proof.
  unfold Bytes.hex_byte. cbn [String.app]. intros E.
  injection E as E1 E2 E3. now rewrite E1, E2.
Qed.

Lemma uuid_byte_is_byte (u : UUID) (i : Z) : is_byte (uuid_byte u i).
Proof. unfold is_byte, uuid_byte. apply Z.mod_pos_bound. lia. Qed.

Lemma bytes_determine (n : Z) (u v : Z) :
  0 <= n ->
  (forall k, 0 <= k < n -> (u / 256 ^ k) mod 256 = (v / 256 ^ k) mod 256) ->
  u mod 256 ^ n = v mod 256 ^ n.
Proof.
  intros Hn. revert u v. pattern n. apply natlike_ind; [| |exact Hn].
  - intros u v _. now rewrite !Z.mod_1_r.
  - intros m Hm IH u v H.
    rewrite Z.pow_succ_r by exact Hm.
    rewrite (Z.mul_comm 256).
    assert (Hpos : 0 < 256 ^ m) by (apply Z.pow_pos_nonneg; lia).
    rewrite !Z.rem_mul_r by lia.
    rewrite (IH u v) by (intros k Hk; apply H; lia).
    rewrite (H m) by lia. reflexivity.
Qed.

Lemma uuid_String_bytes (u v : UUID) :
  uuid_String u = uuid_String v ->
  forall i, 0 <= i < 16 -> uuid_byte u i = uuid_byte v i.
Proof.
  unfold uuid_String. intros E.
  repeat match type of E with
  | Bytes.hex_byte _ +:+ _ = Bytes.hex_byte _ +:+ _ =>
      let H := fresh "Hb" in
      apply hex_byte_app_inj in E as [H E];
      apply hex_byte_inj in H; [|apply uuid_byte_is_byte ..]
  | "-" +:+ _ = "-" +:+ _ => apply String.app_inj in E
  end.
  apply hex_byte_inj in E; [|apply uuid_byte_is_byte ..].
  intros i Hi.
  assert (Hc : i = 0 \/ i = 1 \/ i = 2 \/ i = 3 \/ i = 4 \/ i = 5 \/ i = 6 \/ i = 7 \/
               i = 8 \/ i = 9 \/ i = 10 \/ i = 11 \/ i = 12 \/ i = 13 \/ i = 14 \/ i = 15)
    by lia.
  repeat (destruct Hc as [-> | Hc]; [assumption|]). subst i. assumption.
Qed.

Lemma uuid_String_inj (u v : UUID) :
  is_uuid u -> is_uuid v -> uuid_String u = uuid_String v -> u = v.
Proof.
  unfold is_uuid. intros Hu Hv E.
  pose proof (uuid_String_bytes u v E) as Hb.
  assert (H : u mod 256 ^ 16 = v mod 256 ^ 16).
  { apply bytes_determine; [lia|]. intros k Hk.
    specialize (Hb (15 - k) ltac:(lia)). unfold uuid_byte in Hb.
    now replace (15 - (15 - k)) with k in Hb by lia. }
  change (256 ^ 16) with (2 ^ 128) in H.
  now rewrite !Z.mod_small in H by assumption.
Qed.

End UuidFacts.

(** ** The cache: reads, writes and their frame *)

Section CacheReads.

Import BookCacheOps.

(** What [GetBook] returns, read off the two tiers. *)
Lemma GetBook_result (c : BookCache) (id : UUID) (now : Z) (net : bool) :
  (GetBook c id now net).1 =
  let local :=
    match local_live c (uuid_String id) now with
    | Some (DBook b) => (Some b, true)
    | _ => (None, false)
    end in
  match external c with
  | Some r =>
      match CacheImpl.GetBook r (reach c net) now (uuid_String id) with
      | (book, None) => (book, true)
      | (_, Some _) => local
      end
  | None => local
  end.
Proof.
  unfold GetBook, lookup_local, local_live. cbv zeta.
  destruct (external c) as [r|].
  - destruct (CacheImpl.GetBook _ _ _ _) as [book [e|]]; [|reflexivity].
    destruct (inMemory c !! _) as [en|]; [|reflexivity].
    destruct (ExpiresAt en <? now); [reflexivity|]. now destruct (entry_Data en).
  - destruct (inMemory c !! _) as [en|]; [|reflexivity].
    destruct (ExpiresAt en <? now); [reflexivity|]. now destruct (entry_Data en).
Qed.

Lemma GetBookList_result (c : BookCache) (f : BookFilter.t) (now : Z) (net : bool) :
  (GetBookList c f now net).1 =
  let local :=
    match local_live c (GenerateBookListKey f) now with
    | Some (DList r) => (Some r, true)
    | _ => (None, false)
    end in
  match external c with
  | Some r =>
      match CacheImpl.GetBookList r (reach c net) now (GenerateBookListKey f) with
      | (resp, None) => (resp, true)
      | (_, Some _) => local
      end
  | None => local
  end.
Proof.
  unfold GetBookList, lookup_local, local_live. cbv zeta.
  destruct (external c) as [r|].
  - destruct (CacheImpl.GetBookList _ _ _ _) as [resp [e|]]; [|reflexivity].
    destruct (inMemory c !! _) as [en|]; [|reflexivity].
    destruct (ExpiresAt en <? now); [reflexivity|]. now destruct (entry_Data en).
  - destruct (inMemory c !! _) as [en|]; [|reflexivity].
    destruct (ExpiresAt en <? now); [reflexivity|]. now destruct (entry_Data en).
Qed.

Lemma book_key_inj (x y : string) : "book:" +:+ x = "book:" +:+ y -> x = y.
Proof. apply String.app_inj. Qed.

Lemma list_key_not_book_key (f : BookFilter.t) (u : UUID) :
  GenerateBookListKey f <> "book:" +:+ uuid_String u.
Proof.
  intros E. apply (f_equal String.length) in E.
  rewrite list_key_length, string_length_app, uuid_String_length in E. discriminate.
Qed.

(** A write under one key leaves what is read under another key. *)
Lemma Redis_get_set_ne (r : Redis.client) (now t : Z) (k k' : string) (v : Redis.value)
    (ttl : Z) :
  k <> k' -> Redis.get (Redis.set r t k v ttl) now k' = Redis.get r now k'.
Proof.
  intros Hne. unfold Redis.get, Redis.set. simpl. now rewrite lookup_insert_ne.
Qed.

Lemma CacheImpl_GetBook_after_SetBook (r : Cache) (b : Book.t) (id : string)
    (n0 n1 : bool) (t0 t1 ttl : Z) :
  id <> uuid_String (Book.ID b) ->
  CacheImpl.GetBook (CacheImpl.SetBook r n0 t0 b ttl).1 n1 t1 id
  = CacheImpl.GetBook r n1 t1 id.
Proof.
  intros Hne. destruct r as [r|]; [|reflexivity]. simpl.
  destruct (Redis.unreachable r n0) eqn:Hu; [reflexivity|]. simpl.
  unfold Redis.unreachable in *. simpl.
  destruct (Redis.closed r); [reflexivity|]. destruct n1; [|reflexivity].
  rewrite Redis_get_set_ne; [reflexivity|].
  intros E. apply book_key_inj in E. congruence.
Qed.

Lemma CacheImpl_GetBookList_after_SetBook (r : Cache) (b : Book.t) (f : BookFilter.t)
    (n0 n1 : bool) (t0 t1 ttl : Z) :
  CacheImpl.GetBookList (CacheImpl.SetBook r n0 t0 b ttl).1 n1 t1 (GenerateBookListKey f)
  = CacheImpl.GetBookList r n1 t1 (GenerateBookListKey f).
Proof.
  destruct r as [r|]; [|reflexivity]. simpl.
  destruct (Redis.unreachable r n0) eqn:Hu; [reflexivity|]. simpl.
  unfold Redis.unreachable in *. simpl.
  destruct (Redis.closed r); [reflexivity|]. destruct n1; [|reflexivity].
  rewrite Redis_get_set_ne; [reflexivity|].
  intros E. symmetry in E. exact (list_key_not_book_key _ _ E).
Qed.

Lemma CacheImpl_GetBook_after_SetBookList (r : Cache) (f : BookFilter.t)
    (resp : BooksListResponse.t) (u : UUID) (n0 n1 : bool) (t0 t1 ttl : Z) :
  CacheImpl.GetBook
    (CacheImpl.SetBookList r n0 t0 (GenerateBookListKey f) resp ttl).1 n1 t1 (uuid_String u)
  = CacheImpl.GetBook r n1 t1 (uuid_String u).
Proof.
  destruct r as [r|]; [|reflexivity]. simpl.
  destruct (Redis.unreachable r n0) eqn:Hu; [reflexivity|]. simpl.
  unfold Redis.unreachable in *. simpl.
  destruct (Redis.closed r); [reflexivity|]. destruct n1; [|reflexivity].
  rewrite Redis_get_set_ne; [reflexivity|]. apply list_key_not_book_key.
Qed.

Lemma external_SetBook (c : BookCache) (b : Book.t) (t : Z) (n : bool) :
  external (SetBook c b t n)
  = (fun r => (CacheImpl.SetBook r (reach c n) t b (ttl c)).1) <$> external c.
Proof.
  unfold SetBook, external. destruct (useRedis c) eqn:Hu; simpl.
  - destruct (redis c) eqn:Hr; simpl; rewrite Hu, ?Hr; reflexivity.
  - now rewrite Hu.
Qed.

Lemma external_SetBookList (c : BookCache) (f : BookFilter.t) (resp : BooksListResponse.t)
    (t : Z) (n : bool) :
  external (SetBookList c f resp t n)
  = (fun r => (CacheImpl.SetBookList r (reach c n) t (GenerateBookListKey f) resp (ttl c)).1)
    <$> external c.
Proof.
  unfold SetBookList, external. destruct (useRedis c) eqn:Hu; simpl.
  - destruct (redis c) eqn:Hr; simpl; rewrite Hu, ?Hr; reflexivity.
  - now rewrite Hu.
Qed.

Lemma reach_SetBook (c : BookCache) (b : Book.t) (t : Z) (n n' : bool) :
  reach (SetBook c b t n) n' = reach c n'.
Proof. unfold reach, SetBook. now destruct (external c). Qed.

Lemma reach_SetBookList (c : BookCache) f resp (t : Z) (n n' : bool) :
  reach (SetBookList c f resp t n) n' = reach c n'.
Proof. unfold reach, SetBookList. now destruct (external c). Qed.

Lemma local_live_SetBook_ne (c : BookCache) (b : Book.t) (t now : Z) (n : bool) (k : string) :
  k <> uuid_String (Book.ID b) ->
  local_live (SetBook c b t n) k now = local_live c k now.
Proof.
  intros Hne. unfold local_live, SetBook.
  destruct (external c); simpl; now rewrite lookup_insert_ne.
Qed.

Lemma local_live_SetBookList_ne (c : BookCache) f resp (t now : Z) (n : bool) (k : string) :
  k <> GenerateBookListKey f ->
  local_live (SetBookList c f resp t n) k now = local_live c k now.
Proof.
  intros Hne. unfold local_live, SetBookList.
  destruct (external c); simpl; now rewrite lookup_insert_ne.
Qed.

End CacheReads.

(** X4.  Entries of the cache do not disturb one another.  Writing a book
    leaves what [GetBook] returns for every other book (ids of sixteen
    bytes) and what [GetBookList] returns for every filter; writing a
    list leaves what [GetBook] returns for every book and what
    [GetBookList] returns for every filter with another key. *)
Theorem cache_writes_are_framed (c : BookCache) (t0 t1 : Z) (n0 n1 : bool) :
  (forall b id, is_uuid id -> is_uuid (Book.ID b) -> id <> Book.ID b ->
     (BookCacheOps.GetBook (BookCacheOps.SetBook c b t0 n0) id t1 n1).1
     = (BookCacheOps.GetBook c id t1 n1).1) /\
  (forall b f,
     (BookCacheOps.GetBookList (BookCacheOps.SetBook c b t0 n0) f t1 n1).1
     = (BookCacheOps.GetBookList c f t1 n1).1) /\
  (forall f resp id,
     (BookCacheOps.GetBook (BookCacheOps.SetBookList c f resp t0 n0) id t1 n1).1
     = (BookCacheOps.GetBook c id t1 n1).1) /\
  (forall f resp f', GenerateBookListKey f' <> GenerateBookListKey f ->
     (BookCacheOps.GetBookList (BookCacheOps.SetBookList c f resp t0 n0) f' t1 n1).1
     = (BookCacheOps.GetBookList c f' t1 n1).1).
Proof.
  split; [|split; [|split]].
  - intros b id Hid Hb Hne.
    assert (Hk : uuid_String id <> uuid_String (Book.ID b))
      by (intros E; apply Hne; now apply uuid_String_inj).
    rewrite !GetBook_result. cbv zeta.
    rewrite external_SetBook, reach_SetBook, local_live_SetBook_ne by exact Hk.
    destruct (BookCacheOps.external c) as [r|]; simpl; [|reflexivity].
    now rewrite CacheImpl_GetBook_after_SetBook by exact Hk.
  - intros b f.
    rewrite !GetBookList_result. cbv zeta.
    rewrite external_SetBook, reach_SetBook, local_live_SetBook_ne
      by apply list_key_not_uuid.
    destruct (BookCacheOps.external c) as [r|]; simpl; [|reflexivity].
    now rewrite CacheImpl_GetBookList_after_SetBook.
  - intros f resp id.
    rewrite !GetBook_result. cbv zeta.
    rewrite external_SetBookList, reach_SetBookList, local_live_SetBookList_ne
      by (intros E; symmetry in E; exact (list_key_not_uuid _ _ E)).
    destruct (BookCacheOps.external c) as [r|]; simpl; [|reflexivity].
    now rewrite CacheImpl_GetBook_after_SetBookList.
  - intros f resp f' Hne.
    rewrite !GetBookList_result. cbv zeta.
    rewrite external_SetBookList, reach_SetBookList, local_live_SetBookList_ne by exact Hne.
    destruct (BookCacheOps.external c) as [r|]; simpl; [|reflexivity].
    destruct r as [r|]; [|reflexivity]. simpl.
    destruct (Redis.unreachable r (BookCacheOps.reach c n0)) eqn:Hu; [reflexivity|]. simpl.
    unfold Redis.unreachable in *. simpl.
    destruct (Redis.closed r); [reflexivity|].
    destruct (BookCacheOps.reach c n1); [|reflexivity].
    rewrite Redis_get_set_ne by congruence. reflexivity.
Qed.


Lemma SetBook_spawned (c : BookCache) (b : Book.t) (t : Z) (n : bool) :
  spawned (BookCacheOps.SetBook c b t n) = spawned c.
Proof. unfold BookCacheOps.SetBook. now destruct (BookCacheOps.external c). Qed.

Lemma run_spawned_DeleteLocal (c : BookCache) (k : string) (rest : list Async) (n1 n2 : bool) :
  spawned c = DeleteLocal k :: rest ->
  inMemory (BookCacheOps.run_spawned c n1 n2) = delete k (inMemory c).
Proof. intros H. unfold BookCacheOps.run_spawned. now rewrite H. Qed.

Lemma run_spawned_DeleteLocal_external (c : BookCache) (k : string) (rest : list Async)
    (n1 n2 : bool) :
  spawned c = DeleteLocal k :: rest ->
  BookCacheOps.external (BookCacheOps.run_spawned c n1 n2) = BookCacheOps.external c.
Proof. intros H. unfold BookCacheOps.run_spawned. now rewrite H. Qed.

(** X6.  An expired in-memory entry is reported as a miss and its
    deletion is handed to a goroutine; the entry stays until that
    goroutine runs, and then whatever is under the key goes — also a record
    that [SetBook] wrote in between, which [GetBook] then no longer
    finds. *)
Theorem expired_read_deletes_later (c : BookCache) (id : UUID) (entry : CacheEntry)
    (now : Z) (net : bool) :
  BookCacheOps.external c = None ->
  inMemory c !! uuid_String id = Some entry ->
  ExpiresAt entry < now ->
  spawned c = [] ->
  let c1 := (BookCacheOps.GetBook c id now net).2 in
  (BookCacheOps.GetBook c id now net).1 = (None, false) /\
  inMemory c1 = inMemory c /\
  spawned c1 = [DeleteLocal (uuid_String id)] /\
  inMemory (BookCacheOps.run_spawned c1 true true) !! uuid_String id = None /\
  forall b t n t' n',
    Book.ID b = id ->
    let c2 := BookCacheOps.run_spawned (BookCacheOps.SetBook c1 b t n) true true in
    inMemory c2 !! uuid_String id = None /\
    (BookCacheOps.GetBook c2 id t' n').1 = (None, false).
Proof.
  intros Hext Hm Hexp Hsp.
  assert (Hlt : (ExpiresAt entry <? now) = true) by now apply Z.ltb_lt.
  assert (Hc1 : (BookCacheOps.GetBook c id now net).2
                = BookCacheOps.with_stats (BookCacheOps.spawn c (DeleteLocal (uuid_String id)))
                    (BookCacheOps.miss (stats c))).
  { unfold BookCacheOps.GetBook, BookCacheOps.lookup_local. rewrite Hext, Hm, Hlt.
    reflexivity. }
  cbv zeta. rewrite Hc1.
  split.
  { rewrite GetBook_result, Hext. unfold local_live. now rewrite Hm, Hlt. }
  split; [reflexivity|]. split; [simpl; now rewrite Hsp|]. split.
  { unfold BookCacheOps.run_spawned. simpl. rewrite Hsp. simpl. apply lookup_delete_eq. }
  intros b t n t' n' <-.
  set (c1 := BookCacheOps.with_stats
               (BookCacheOps.spawn c (DeleteLocal (uuid_String (Book.ID b))))
               (BookCacheOps.miss (stats c))).
  assert (Hsp2 : spawned (BookCacheOps.SetBook c1 b t n)
                 = [DeleteLocal (uuid_String (Book.ID b))]).
  { rewrite SetBook_spawned. unfold c1. simpl. now rewrite Hsp. }
  assert (Hrun : inMemory (BookCacheOps.run_spawned (BookCacheOps.SetBook c1 b t n) true true)
                 !! uuid_String (Book.ID b) = None).
  { rewrite (run_spawned_DeleteLocal _ _ _ _ _ Hsp2). apply lookup_delete_eq. }
  split; [exact Hrun|].
  rewrite GetBook_result. unfold local_live. rewrite Hrun. cbv zeta.
  rewrite (run_spawned_DeleteLocal_external _ _ _ _ _ Hsp2), external_SetBook.
  unfold c1. change (BookCacheOps.external (BookCacheOps.with_stats _ _))
    with (BookCacheOps.external c). now rewrite Hext.
Qed.

Lemma expired_read_deletes_later_witness :
  let c := BookCacheOps.SetBook Sample.local_cache Sample.hobbit 0 true in
  let now := 6 * Sample.minute in
  let c1 := (BookCacheOps.GetBook c Sample.id1 now true).2 in
  (BookCacheOps.GetBook c Sample.id1 now true).1 = (None, false) /\
  (BookCacheOps.GetBook
     (BookCacheOps.run_spawned (BookCacheOps.SetBook c1 Sample.hobbit_v2 now true) true true)
     Sample.id1 now true).1 = (None, false).
Proof.
  cbv zeta.
  destruct (expired_read_deletes_later
              (BookCacheOps.SetBook Sample.local_cache Sample.hobbit 0 true) Sample.id1
              (mkEntry (DBook Sample.hobbit) (5 * Sample.minute)) (6 * Sample.minute) true
              eq_refl ltac:(vm_compute; reflexivity) ltac:(vm_compute; reflexivity) eq_refl)
    as (H1 & _ & _ & _ & H5).
  split; [exact H1|].
  exact (proj2 (H5 Sample.hobbit_v2 (6 * Sample.minute) true (6 * Sample.minute) true eq_refl)).
Defined.

(** ** The sweeper *)

Lemma expired_complement (now : Z) (m : gmap string CacheEntry) :
  filter (λ kv : string * CacheEntry, (ExpiresAt kv.2 <? now) = false) m
  = filter (λ kv : string * CacheEntry, ¬ (ExpiresAt kv.2 <? now) = true) m.
Proof.
  apply map_filter_ext. intros k e _. simpl.
  destruct (ExpiresAt e <? now); split; congruence.
Qed.

(** X7.  A tick of [cleanupExpired] at time [now], while its loop is
    live, keeps exactly the entries that have not expired, each unchanged,
    and counts one eviction for each entry it removes.  [NewBookCache]
    starts the sweeper only when the external tier is not in use. *)
Theorem cleanupExpired_tick_spec (c : BookCache) (now : Z) :
  (sweeper c = true -> cancelled c = false ->
   let c' := BookCacheOps.cleanupExpired_tick c now in
   (forall k e, inMemory c' !! k = Some e <->
                inMemory c !! k = Some e /\ now <= ExpiresAt e) /\
   (size (inMemory c') <= size (inMemory c))%nat /\
   Evictions (stats c')
   = Z.iter (Z.of_nat (size (inMemory c) - size (inMemory c'))) inc64 (Evictions (stats c))) /\
  (forall ttl interval r net,
     sweeper (BookCacheOps.NewBookCache ttl interval r net)
     = match BookCacheOps.external (BookCacheOps.NewBookCache ttl interval r net) with
       | Some _ => false
       | None => true
       end).
Proof.
  split.
  - intros Hs Hc. unfold BookCacheOps.cleanupExpired_tick. rewrite Hs, Hc. simpl.
    split; [|split].
    + intros k e. rewrite map_lookup_filter_Some. simpl. rewrite Z.ltb_ge. reflexivity.
    + apply map_size_filter.
    + f_equal. f_equal.
      pose proof (map_filter_union_complement
                    (λ kv : string * CacheEntry, (ExpiresAt kv.2 <? now) = true)
                    (inMemory c)) as Hu.
      pose proof (map_disjoint_filter_complement
                    (λ kv : string * CacheEntry, (ExpiresAt kv.2 <? now) = true)
                    (inMemory c)) as Hd.
      apply map_size_disj_union in Hd. rewrite Hu in Hd.
      rewrite expired_complement. lia.
  - intros ttl interval r net. unfold BookCacheOps.NewBookCache, BookCacheOps.external.
    simpl. destruct r as [r|]; [|reflexivity].
    destruct (CacheImpl.Ping r net); reflexivity.
Qed.

Lemma cleanupExpired_tick_spec_witness :
  (size (inMemory (BookCacheOps.cleanupExpired_tick
                     (BookCacheOps.SetBook Sample.local_cache Sample.hobbit 0 true)
                     (6 * Sample.minute)))
   <= size (inMemory (BookCacheOps.SetBook Sample.local_cache Sample.hobbit 0 true)))%nat.
Proof.
  apply (proj1 (cleanupExpired_tick_spec
                  (BookCacheOps.SetBook Sample.local_cache Sample.hobbit 0 true)
                  (6 * Sample.minute))); reflexivity.
Defined.

(** ** Invalidation *)

Section InvalidateFacts.

Import BookCacheOps.

Lemma glob_star_any (s : string) : Redis.glob "*" s = true.
Proof.
  induction s as [|c s IH]; [reflexivity|].
  simpl in *. exact IH.
Qed.

Lemma glob_books (s : string) : Redis.glob "books:*" ("books:" +:+ s) = true.
Proof. cbn. apply glob_star_any. Qed.

Lemma glob_book (s : string) : Redis.glob "book:*" ("book:" +:+ s) = true.
Proof. cbn. apply glob_star_any. Qed.

Lemma glob_books_not_book (s : string) : Redis.glob "books:*" ("book:" +:+ s) = false.
Proof. reflexivity. Qed.

Lemma del_pattern_lookup (r : Redis.client) (pat k : string) :
  Redis.store (Redis.del_pattern r pat) !! k
  = if Redis.glob pat k then None else Redis.store r !! k.
Proof.
  unfold Redis.del_pattern. simpl.
  destruct (Redis.glob pat k) eqn:Hg.
  - apply map_lookup_filter_None. right. intros v _. simpl. congruence.
  - destruct (Redis.store r !! k) as [v|] eqn:Hk.
    + apply map_lookup_filter_Some. split; [exact Hk | exact Hg].
    + apply map_lookup_filter_None. left. exact Hk.
Qed.

Lemma external_InvalidateBook (c : BookCache) (id : UUID) (n1 n2 : bool) :
  external (InvalidateBook c id n1 n2)
  = (fun r =>
       (CacheImpl.DeleteBookListCache
          (CacheImpl.DeleteBook r (reach c n1) (uuid_String id)).1
          (reach c n2) BookListPattern).1) <$> external c.
Proof.
  unfold InvalidateBook, external. destruct (useRedis c) eqn:Hu; simpl.
  - destruct (redis c) eqn:Hr; simpl; rewrite Hu, ?Hr; reflexivity.
  - now rewrite Hu.
Qed.

Lemma reach_InvalidateBook (c : BookCache) (id : UUID) (n1 n2 n : bool) :
  reach (InvalidateBook c id n1 n2) n = reach c n.
Proof. unfold reach, InvalidateBook. now destruct (external c). Qed.

Lemma drop_len32_idem (key : string) (m : gmap string CacheEntry) :
  drop_len32 key (delete key (drop_len32 key (delete key m)))
  = drop_len32 key (delete key m).
Proof.
  unfold drop_len32. rewrite <- !map_filter_delete, delete_delete_eq.
  rewrite map_filter_filter. apply map_filter_ext.
  intros k e _. simpl. tauto.
Qed.

Lemma del_pattern_idem (r : Redis.client) (pat : string) :
  Redis.del_pattern (Redis.del_pattern r pat) pat = Redis.del_pattern r pat.
Proof.
  unfold Redis.del_pattern. simpl. f_equal.
  rewrite map_filter_filter. apply map_filter_ext.
  intros k e _. simpl. tauto.
Qed.

Lemma del_del_pattern_comm (r : Redis.client) (pat k : string) :
  Redis.del (Redis.del_pattern r pat) k = Redis.del_pattern (Redis.del r k) pat.
Proof.
  unfold Redis.del, Redis.del_pattern. simpl. f_equal.
  now rewrite map_filter_delete.
Qed.

Lemma del_idem (r : Redis.client) (k : string) :
  Redis.del (Redis.del r k) k = Redis.del r k.
Proof. unfold Redis.del. simpl. f_equal. apply delete_delete_eq. Qed.

Lemma external_invalidate_idem (r0 : Cache) (k : string) (a b : bool) :
  (CacheImpl.DeleteBookListCache
     (CacheImpl.DeleteBook
        (CacheImpl.DeleteBookListCache (CacheImpl.DeleteBook r0 a k).1 b BookListPattern).1
        a k).1 b BookListPattern).1
  = (CacheImpl.DeleteBookListCache (CacheImpl.DeleteBook r0 a k).1 b BookListPattern).1.
Proof.
  destruct r0 as [r|]; [|reflexivity].
  unfold CacheImpl.DeleteBook, CacheImpl.DeleteBookListCache, Redis.unreachable.
  destruct (Redis.closed r) eqn:Hc.
  - repeat (progress (rewrite ?Hc; cbn)). reflexivity.
  - destruct a, b; repeat (progress (rewrite ?Hc; cbn));
      change (Redis.mkClient (delete ?k (Redis.store ?r)) (Redis.closed ?r))
        with (Redis.del r k);
      change (Redis.mkClient (filter (λ kv : string * (Redis.value * option Z),
                                        Redis.glob ?p kv.1 = false) (Redis.store ?r))
                             (Redis.closed ?r))
        with (Redis.del_pattern r p);
      try rewrite del_del_pattern_comm; rewrite ?del_idem, ?del_pattern_idem;
      reflexivity.
Qed.

End InvalidateFacts.

(** Once the deletion has reached the external tier, if one is in use,
    the book is in neither tier. *)
Lemma InvalidateBook_then_GetBook (c : BookCache) (id : UUID) (n1 n2 : bool) :
  match BookCacheOps.external c with
  | Some (RedisCache r) => Redis.unreachable r (BookCacheOps.reach c n1) = None
  | _ => True
  end ->
  forall now net,
    (BookCacheOps.GetBook (BookCacheOps.InvalidateBook c id n1 n2) id now net).1
    = (None, false).
Proof.
  intros Hreach now net.
  rewrite GetBook_result. cbv zeta. unfold local_live.
  rewrite InvalidateBook_drops_book, external_InvalidateBook, reach_InvalidateBook.
  destruct (BookCacheOps.external c) as [[r|]|]; [|reflexivity..].
  change (?f <$> Some ?x) with (Some (f x)). cbv beta.
  assert (Hex : exists r',
            (CacheImpl.DeleteBookListCache
               (CacheImpl.DeleteBook (RedisCache r) (BookCacheOps.reach c n1)
                  (uuid_String id)).1 (BookCacheOps.reach c n2) BookListPattern).1
            = RedisCache r' /\
            Redis.store r' !! ("book:" +:+ uuid_String id) = None).
  { unfold CacheImpl.DeleteBook. rewrite Hreach. cbn [fst].
    unfold CacheImpl.DeleteBookListCache.
    destruct (Redis.unreachable _ (BookCacheOps.reach c n2)); cbn [fst];
      eexists; (split; [reflexivity|]).
    - apply lookup_delete_eq.
    - rewrite del_pattern_lookup. simpl. apply lookup_delete_eq. }
  destruct Hex as (r' & -> & Hs).
  unfold CacheImpl.GetBook, Redis.get. rewrite Hs.
  now destruct (Redis.unreachable r' _).
Qed.

(** X8.  After [InvalidateBook(id)], [GetBook(id)] misses in both tiers,
    provided the deletion reached the external tier when one is in use;
    and [InvalidateBook] is idempotent: with the same answers of the
    external tier, running it a second time leaves the cache exactly as
    the first run left it. *)
Theorem InvalidateBook_book_gone (c : BookCache) (id : UUID) (n1 n2 : bool) :
  (match BookCacheOps.external c with
   | Some (RedisCache r) => Redis.unreachable r (BookCacheOps.reach c n1) = None
   | _ => True
   end ->
   forall now net,
     (BookCacheOps.GetBook (BookCacheOps.InvalidateBook c id n1 n2) id now net).1
     = (None, false)) /\
  BookCacheOps.InvalidateBook (BookCacheOps.InvalidateBook c id n1 n2) id n1 n2
  = BookCacheOps.InvalidateBook c id n1 n2.
Proof.
  split.
  - exact (InvalidateBook_then_GetBook c id n1 n2).
  - unfold BookCacheOps.InvalidateBook at 1.
    rewrite external_InvalidateBook.
    unfold BookCacheOps.InvalidateBook.
    destruct (BookCacheOps.external c) as [r0|] eqn:Hext; simpl.
    + unfold BookCacheOps.with_inMemory, BookCacheOps.with_redis. simpl.
      rewrite drop_len32_idem. f_equal. f_equal.
      apply external_invalidate_idem.
    + unfold BookCacheOps.with_inMemory. simpl. now rewrite drop_len32_idem.
Qed.

Lemma InvalidateBook_book_gone_witness :
  (BookCacheOps.GetBook
     (BookCacheOps.InvalidateBook
        (BookCacheOps.SetBook Sample.redis_cache Sample.hobbit 0 true) Sample.id1 true true)
     Sample.id1 1 true).1 = (None, false).
Proof.
  apply (proj1 (InvalidateBook_book_gone
                  (BookCacheOps.SetBook Sample.redis_cache Sample.hobbit 0 true)
                  Sample.id1 true true)).
  reflexivity.
Defined.

(** X9.  When both deletions of [InvalidateBook(id)] reach the external
    tier, it loses exactly the key [book:<id>] and every key matching
    [books:*]: every cached list is gone from it, and the entry of every
    other book stays as it was. *)
Theorem InvalidateBook_external_exact (c : BookCache) (r : Redis.client) (id : UUID) :
  BookCacheOps.external c = Some (RedisCache r) ->
  Redis.unreachable r (BookCacheOps.reach c true) = None ->
  exists r',
    BookCacheOps.external (BookCacheOps.InvalidateBook c id true true) = Some (RedisCache r') /\
    (forall k, Redis.store r' !! k
               = if String.eqb k ("book:" +:+ uuid_String id) || Redis.glob BookListPattern k
                 then None else Redis.store r !! k) /\
    (forall f, Redis.store r' !! GenerateBookListKey f = None) /\
    (forall id', is_uuid id -> is_uuid id' -> id' <> id ->
                 Redis.store r' !! ("book:" +:+ uuid_String id')
                 = Redis.store r !! ("book:" +:+ uuid_String id')).
Proof.
  intros Hext Hu.
  rewrite external_InvalidateBook, Hext.
  change (?f <$> Some ?x) with (Some (f x)). cbv beta.
  unfold CacheImpl.DeleteBook. rewrite Hu. cbn [fst].
  unfold CacheImpl.DeleteBookListCache.
  change (Redis.unreachable (Redis.del r ?k) ?n) with (Redis.unreachable r n).
  rewrite Hu. cbn [fst].
  eexists. split; [reflexivity|].
  assert (Hk : forall k,
            Redis.store (Redis.del_pattern (Redis.del r ("book:" +:+ uuid_String id))
                           BookListPattern) !! k
            = if String.eqb k ("book:" +:+ uuid_String id) || Redis.glob BookListPattern k
              then None else Redis.store r !! k).
  { intros k. rewrite del_pattern_lookup.
    destruct (String.eqb k _) eqn:Hk.
    - apply String.eqb_eq in Hk. subst k. simpl. apply lookup_delete_eq.
    - apply String.eqb_neq in Hk. cbn [orb].
      destruct (Redis.glob BookListPattern k); [reflexivity|].
      simpl. now rewrite lookup_delete_ne. }
  split; [exact Hk|]. split.
  - intros f. rewrite Hk. unfold GenerateBookListKey, BookListPattern.
    rewrite glob_books. now rewrite orb_true_r.
  - intros id' Hi Hi' Hne. rewrite Hk.
    unfold BookListPattern. rewrite glob_books_not_book, orb_false_r.
    destruct (String.eqb _ _) eqn:He; [|reflexivity].
    apply String.eqb_eq, book_key_inj, uuid_String_inj in He; [congruence | assumption ..].
Qed.

Lemma InvalidateBook_external_exact_witness :
  exists r',
    BookCacheOps.external
      (BookCacheOps.InvalidateBook
         (BookCacheOps.SetBook Sample.redis_cache Sample.hobbit 0 true) Sample.id1 true true)
    = Some (RedisCache r') /\
    forall f, Redis.store r' !! GenerateBookListKey f = None.
Proof.
  destruct (InvalidateBook_external_exact
              (BookCacheOps.SetBook Sample.redis_cache Sample.hobbit 0 true)
              (Redis.set (Redis.mkClient ∅ false) 0
                 ("book:" +:+ uuid_String Sample.id1) (Redis.VBook Sample.hobbit)
                 (5 * Sample.minute))
              Sample.id1 eq_refl eq_refl) as (r' & H1 & _ & H3 & _).
  exists r'. split; [exact H1 | exact H3].
Defined.

(** ** Clear *)

Lemma glob_book_not_books (s : string) : Redis.glob "book:*" ("books:" +:+ s) = false.
Proof. reflexivity. Qed.

Lemma local_live_empty (c : BookCache) (k : string) (now : Z) :
  inMemory c = ∅ -> local_live c k now = None.
Proof. intros H. unfold local_live. now rewrite H, lookup_empty. Qed.

(** X10.  [Clear] empties the in-memory tier at once and leaves the
    counters as they were.  Without external tier every book and every
    list misses afterwards.  With it, only a goroutine is started: once
    that has run against a reachable server, every book and every list
    misses; its two deletions leave no key [book:...] or [books:...]. *)
Theorem Clear_spec (c : BookCache) :
  spawned c = [] ->
  let c1 := BookCacheOps.Clear c in
  inMemory c1 = ∅ /\
  BookCacheOps.Size c1 = 0 /\
  stats c1 = stats c /\
  (BookCacheOps.external c = None ->
   spawned c1 = [] /\
   forall id f now net,
     (BookCacheOps.GetBook c1 id now net).1 = (None, false) /\
     (BookCacheOps.GetBookList c1 f now net).1 = (None, false)) /\
  (forall r, BookCacheOps.external c = Some (RedisCache r) ->
   Redis.closed r = false ->
   spawned c1 = [FlushRedis] /\
   let c2 := BookCacheOps.run_spawned c1 true true in
   forall id f now net,
     (BookCacheOps.GetBook c2 id now net).1 = (None, false) /\
     (BookCacheOps.GetBookList c2 f now net).1 = (None, false)).
Proof.
  intros Hsp. cbv zeta.
  assert (Hm : inMemory (BookCacheOps.Clear c) = ∅).
  { unfold BookCacheOps.Clear. now destruct (BookCacheOps.external c). }
  split; [exact Hm|]. split; [|split; [|split]].
  - unfold BookCacheOps.Size. now rewrite Hm.
  - unfold BookCacheOps.Clear. now destruct (BookCacheOps.external c).
  - intros Hext.
    assert (Hext1 : BookCacheOps.external (BookCacheOps.Clear c) = None).
    { unfold BookCacheOps.Clear. rewrite Hext. exact Hext. }
    split; [unfold BookCacheOps.Clear; now rewrite Hext|].
    intros id f now net.
    rewrite GetBook_result, GetBookList_result. cbv zeta.
    rewrite Hext1, !local_live_empty by exact Hm. split; reflexivity.
  - intros r Hext Hcl.
    assert (Hr : useRedis c = true /\ redis c = Some (RedisCache r)).
    { unfold BookCacheOps.external in Hext. destruct (useRedis c); [now split | discriminate]. }
    destruct Hr as [Hur Hr].
    assert (Hc1 : spawned (BookCacheOps.Clear c) = [FlushRedis]).
    { unfold BookCacheOps.Clear. rewrite Hext. simpl. now rewrite Hsp. }
    split; [exact Hc1|].
    set (r2 := Redis.del_pattern (Redis.del_pattern r "book:*") "books:*").
    assert (Hrun : BookCacheOps.external
                     (BookCacheOps.run_spawned (BookCacheOps.Clear c) true true)
                   = Some (RedisCache r2) /\
                   inMemory (BookCacheOps.run_spawned (BookCacheOps.Clear c) true true) = ∅).
    { unfold BookCacheOps.run_spawned. rewrite Hc1.
      unfold BookCacheOps.Clear. rewrite Hext. simpl. rewrite Hr. simpl.
      unfold Redis.unreachable. repeat (progress (rewrite ?Hcl; simpl)).
      change (Redis.unreachable (Redis.del_pattern r ?p) ?n) with (Redis.unreachable r n).
      unfold Redis.unreachable. rewrite Hcl. simpl.
      unfold BookCacheOps.external. simpl. rewrite Hur. split; reflexivity. }
    destruct Hrun as [Hext2 Hm2].
    intros id f now net.
    rewrite GetBook_result, GetBookList_result. cbv zeta.
    rewrite Hext2, !local_live_empty by exact Hm2.
    unfold CacheImpl.GetBook, CacheImpl.GetBookList, Redis.get.
    assert (Hb : Redis.store r2 !! ("book:" +:+ uuid_String id) = None).
    { unfold r2. rewrite !del_pattern_lookup, glob_books_not_book, glob_book. reflexivity. }
    assert (Hl : Redis.store r2 !! GenerateBookListKey f = None).
    { unfold r2, GenerateBookListKey. rewrite del_pattern_lookup, glob_books. reflexivity. }
    rewrite Hb, Hl.
    destruct (Redis.unreachable r2 _); split; reflexivity.
Qed.

Lemma Clear_spec_witness :
  inMemory (BookCacheOps.Clear
              (BookCacheOps.SetBook Sample.redis_cache Sample.hobbit 0 true)) = ∅.
Proof.
  apply (Clear_spec (BookCacheOps.SetBook Sample.redis_cache Sample.hobbit 0 true)).
  reflexivity.
Defined.

(** ** Cached lists *)



(** ** The pool at work *)

Section PoolRunFacts.

Import Pool.

Lemma held_insert (l : list Worker) (i : nat) (w w' : Worker) :
  l !! i = Some w ->
  exists rest,
    concat (held_result <$> l) ≡ₚ held_result w ++ rest /\
    concat (held_result <$> <[i := w']> l) ≡ₚ held_result w' ++ rest.
Proof.
  revert i. induction l as [|a l IH]; intros [|i] H; csimpl in *; try discriminate.
  - injection H as ->. exists (concat (held_result <$> l)). split; reflexivity.
  - destruct (IH i H) as (rest & H1 & H2).
    exists (held_result a ++ rest). rewrite H1, H2.
    split; apply Permutation_app_swap_app.
Qed.

Lemma perm_move {A} (a b c d : list A) : a ++ b ++ c ++ d ≡ₚ (a ++ b ++ d) ++ c.
Proof.
  rewrite <- !app_assoc. do 2 apply Permutation_app_head. apply Permutation_app_comm.
Qed.

Lemma pool_inv_step (st : PoolRun) (ev : PoolEvent) :
  pool_inv st -> exists st', PoolOps.step st ev = Ret st' /\ pool_inv st'.
Proof.
  destruct st as [[w [qb qc qcl] [rb rcap rcl] d g pl cl pr lg] acc].
  intros [H1 H2 H3 H4 H5 H6 H7 H8]. unfold held, live in *. simpl in *. subst qcl rcl.
  assert (Hsame : pool_inv (mkRun (mkProcessor w (mkChan qb qc false) (mkChan rb rcap false)
                                     d g pl cl pr lg) acc)).
  { constructor; unfold held, live; simpl; auto. }
  destruct ev as [job poll | i poll | k poll | deadline poll].
  - unfold PoolOps.step, SubmitJob, send_ready, send. simpl.
    destruct (Z.of_nat (length qb) <? qc) eqn:Hroom;
      destruct poll, d; simpl; eexists; (split; [reflexivity|]); try exact Hsame;
      apply Z.ltb_lt in Hroom;
      (constructor; unfold held, live; simpl; auto;
       [rewrite length_app; simpl; lia | rewrite app_assoc; congruence]).
  - unfold PoolOps.step, worker_step. simpl.
    destruct (pl !! i) as [[|r|]|] eqn:Hi; try (eexists; split; [reflexivity | exact Hsame]).
    + (* at the outer select *)
      destruct (held_insert pl i WLoop WDone Hi) as (rest0 & Hh & Hh0).
      pose proof (sum_list_fmap_insert live_worker pl i WLoop WDone Hi) as Hl0.
      unfold recv_ready. simpl.
      destruct qb as [|job qb].
      * destruct poll, d; simpl; eexists; (split; [reflexivity|]); try exact Hsame;
          (constructor; unfold held, live; simpl; auto;
           [simpl in Hl0; lia | now rewrite Hh0, <- Hh | discriminate]).
      * destruct (held_insert pl i WLoop (WSend (processJob job)) Hi) as (rest1 & Hg & Hg1).
        pose proof (sum_list_fmap_insert live_worker pl i WLoop
                      (WSend (processJob job)) Hi) as Hl1.
        assert (Htake : pool_inv
                  (mkRun (mkProcessor w (mkChan qb qc false) (mkChan rb rcap false) d (g - 0)
                            (<[i := WSend (processJob job)]> pl) cl (pr ++ [job]) lg) acc)).
        { constructor; unfold held, live; simpl; auto.
          - simpl in H3. lia.
          - simpl in Hl1. lia.
          - now rewrite <- app_assoc.
          - rewrite fmap_app. simpl. rewrite Hg1. simpl. rewrite Hg in H7. simpl in H7.
            change (processJob job :: rest1) with ([processJob job] ++ rest1).
            rewrite perm_move. apply submseteq_app; [exact H7 | reflexivity].
          - intros Hd. specialize (H8 Hd).
            rewrite fmap_app. simpl. rewrite Hg1. simpl. rewrite Hg in H8. simpl in H8.
            change (processJob job :: rest1) with ([processJob job] ++ rest1).
            rewrite perm_move. now apply Permutation_app. }
        assert (Hquit : pool_inv
                  (mkRun (mkProcessor w (mkChan (job :: qb) qc false) (mkChan rb rcap false)
                            true (g - 1) (<[i := WDone]> pl) cl pr lg) acc)).
        { constructor; unfold held, live; simpl; auto.
          - simpl in Hl0. lia.
          - now rewrite Hh0, <- Hh.
          - discriminate. }
        destruct poll, d; simpl; eexists; (split; [reflexivity|]); assumption.
    + (* holding a result *)
      destruct (held_insert pl i (WSend r) WDone Hi) as (rest0 & Hh & Hh0).
      destruct (held_insert pl i (WSend r) WLoop Hi) as (rest1 & Hg & Hg1).
      pose proof (sum_list_fmap_insert live_worker pl i (WSend r) WDone Hi) as Hl0.
      pose proof (sum_list_fmap_insert live_worker pl i (WSend r) WLoop Hi) as Hl1.
      unfold send_ready, send. simpl.
      assert (Hquit : d = true -> pool_inv
                  (mkRun (mkProcessor w (mkChan qb qc false) (mkChan rb rcap false)
                            d (g - 1) (<[i := WDone]> pl) cl pr lg) acc)).
      { intros ->. constructor; unfold held, live; simpl; auto.
        - simpl in Hl0. lia.
        - rewrite Hh0. simpl. rewrite Hh in H7. simpl in H7.
          etransitivity; [|exact H7].
          apply submseteq_app; [reflexivity|].
          apply submseteq_app; [reflexivity|]. now apply submseteq_cons.
        - discriminate. }
      assert (Hsend : Z.of_nat (length rb) < rcap -> pool_inv
                  (mkRun (mkProcessor w (mkChan qb qc false) (mkChan (rb ++ [r]) rcap false)
                            d (g - 0) (<[i := WLoop]> pl) cl pr lg) acc)).
      { intros Hroom. constructor; unfold held, live; simpl; auto.
        - rewrite length_app. simpl. lia.
        - simpl in Hl1. lia.
        - rewrite Hg1. simpl. rewrite Hg in H7. simpl in H7.
          now rewrite <- app_assoc.
        - intros Hd. specialize (H8 Hd). rewrite Hg1. simpl. rewrite Hg in H8. simpl in H8.
          now rewrite <- app_assoc. }
      destruct (Z.of_nat (length rb) <? rcap) eqn:Hroom;
        [apply Z.ltb_lt in Hroom|];
        destruct poll, d; simpl; eexists; (split; [reflexivity|]); auto.
  - unfold PoolOps.step, collector_step. simpl.
    destruct (cl !! k) as [[|]|] eqn:Hk; try (eexists; split; [reflexivity | exact Hsame]).
    pose proof (sum_list_fmap_insert live_collector cl k CLoop CDone Hk) as Hl0.
    unfold recv_ready. simpl.
    assert (Hquit : d = true -> pool_inv
                (mkRun (mkProcessor w (mkChan qb qc false) (mkChan rb rcap false)
                          d (g - 1) pl (<[k := CDone]> cl) pr lg) acc)).
    { intros ->. constructor; unfold held, live; simpl; auto.
      simpl in Hl0. lia. }
    destruct rb as [|r rb].
    + destruct poll, d; simpl; eexists; (split; [reflexivity|]); auto.
    + assert (Htake : pool_inv
                (mkRun (mkProcessor w (mkChan qb qc false) (mkChan rb rcap false)
                          d g pl cl pr (lg ++ [r])) acc)).
      { constructor; unfold held, live; simpl; auto.
        - simpl in H4. lia.
        - now rewrite <- app_assoc.
        - intros Hd. rewrite <- app_assoc. now apply H8. }
      destruct poll, d; simpl; eexists; (split; [reflexivity|]); auto.
  - unfold PoolOps.step, Shutdown, cancel. simpl.
    eexists. split; [reflexivity|].
    constructor; unfold held, live; simpl; auto. discriminate.
Qed.

End PoolRunFacts.

Section PoolRunFacts2.

Import Pool.

Lemma pool_inv_started (workers bufferSize : Z) :
  0 <= bufferSize ->
  exists st0, PoolOps.started workers bufferSize = Ret st0 /\ pool_inv st0 /\
              accepted st0 = [] /\ cap (jobQueue (run_bp st0)) = bufferSize /\
              cap (resultChan (run_bp st0)) = bufferSize.
Proof.
  intros Hb. unfold PoolOps.started, NewBookProcessor.
  destruct (bufferSize <? 0) eqn:Hlt; [apply Z.ltb_lt in Hlt; lia|].
  eexists. split; [reflexivity|]. split; [|repeat split].
  constructor; unfold held, live; simpl; auto; try lia.
  - rewrite !sum_list_fmap_repeat. simpl. lia.
  - induction (Z.to_nat workers); [constructor | exact IHn].
  - intros _. induction (Z.to_nat workers); [constructor | exact IHn].
Qed.

Lemma pool_inv_run (evs : list PoolEvent) (st : PoolRun) :
  pool_inv st -> exists st', PoolOps.run evs st = Ret st' /\ pool_inv st'.
Proof.
  revert st. induction evs as [|ev evs IH]; intros st Hinv; simpl.
  - eauto.
  - destruct (pool_inv_step st ev Hinv) as (st1 & -> & Hinv1). apply IH, Hinv1.
Qed.

Lemma step_cap (st st' : PoolRun) (ev : PoolEvent) :
  PoolOps.step st ev = Ret st' ->
  cap (jobQueue (run_bp st')) = cap (jobQueue (run_bp st)) /\
  cap (resultChan (run_bp st')) = cap (resultChan (run_bp st)) /\
  exists l, accepted st' = accepted st ++ l /\ l `sublist_of` submitted [ev].
Proof.
  destruct ev as [job poll | i poll | k poll | deadline poll]; simpl.
  - unfold SubmitJob, send.
    destruct (select2 _ _ _) as [[|]|]; [destruct (chan_closed _)| |]; try discriminate;
      intros H; injection H as <-; simpl; (split; [reflexivity|]); (split; [reflexivity|]).
    + exists [job]. split; reflexivity.
    + exists []. split; [now rewrite app_nil_r | apply sublist_nil_l].
    + exists []. split; [now rewrite app_nil_r | apply sublist_nil_l].
  - unfold worker_step.
    assert (Hn : exists l, accepted st = accepted st ++ l /\ l `sublist_of` [])
      by (exists []; split; [now rewrite app_nil_r | reflexivity]).
    destruct (pool (run_bp st) !! i) as [[|r|]|];
      try (intros H; injection H as <-; now repeat split).
    + destruct (select2 _ _ _) as [[|]|]; [destruct (buf (jobQueue (run_bp st)))| |];
        intros H; injection H as <-; now repeat split.
    + destruct (select2 _ _ _) as [[|]|];
        [unfold send; destruct (chan_closed (resultChan (run_bp st)))| |];
        try discriminate; intros H; injection H as <-; now repeat split.
  - unfold collector_step.
    assert (Hn : exists l, accepted st = accepted st ++ l /\ l `sublist_of` [])
      by (exists []; split; [now rewrite app_nil_r | reflexivity]).
    destruct (collectors (run_bp st) !! k) as [[|]|];
      try (intros H; injection H as <-; now repeat split).
    destruct (select2 _ _ _) as [[|]|]; [destruct (buf (resultChan (run_bp st)))| |];
      intros H; injection H as <-; now repeat split.
  - intros H; injection H as <-. simpl. split; [reflexivity|]. split; [reflexivity|].
    exists []. split; [now rewrite app_nil_r | reflexivity].
Qed.

Lemma run_cap (evs : list PoolEvent) (st st' : PoolRun) :
  PoolOps.run evs st = Ret st' ->
  cap (jobQueue (run_bp st')) = cap (jobQueue (run_bp st)) /\
  cap (resultChan (run_bp st')) = cap (resultChan (run_bp st)) /\
  exists l, accepted st' = accepted st ++ l /\ l `sublist_of` submitted evs.
Proof.
  revert st. induction evs as [|ev evs IH]; intros st H; simpl in H.
  - injection H as <-. split; [reflexivity|]. split; [reflexivity|]. exists [].
    split; [now rewrite app_nil_r | reflexivity].
  - destruct (PoolOps.step st ev) as [st1|] eqn:Hs; [|discriminate].
    destruct (step_cap _ _ _ Hs) as (Hc1 & Hr1 & l1 & Ha1 & Hl1).
    destruct (IH _ H) as (Hc & Hr & l & Ha & Hl).
    split; [congruence|]. split; [congruence|]. exists (l1 ++ l).
    split; [rewrite Ha, Ha1; now rewrite app_assoc|].
    unfold submitted in *. simpl in *. rewrite app_nil_r in Hl1.
    now apply sublist_app.
Qed.

End PoolRunFacts2.

Section PoolRunFacts3.

Import Pool.

Lemma sum_list_fmap_all_zero {A} (f : A -> nat) (l : list A) :
  (forall i x, l !! i = Some x -> f x = 0%nat) -> sum_list (f <$> l) = 0%nat.
Proof.
  induction l as [|a l IH]; intros H; csimpl; [reflexivity|].
  rewrite (H 0%nat a eq_refl), IH; [reflexivity|].
  intros i x Hi. exact (H (S i) x Hi).
Qed.

Lemma collector_never_parked (bp : BookProcessor) (k : nat) (poll : Poll) :
  ctx_done bp = true -> collectors bp !! k = Some CLoop ->
  exists bp', collector_step bp k poll = Some bp'.
Proof.
  intros Hd Hk. unfold collector_step. rewrite Hk, Hd.
  destruct (select2_done poll (recv_ready (resultChan bp))) as [b ->].
  destruct b; [destruct (buf (resultChan bp))|]; eauto.
Qed.

Lemma worker_done_parked (bp : BookProcessor) (i : nat) (poll : Poll) :
  pool bp !! i = Some WDone \/ pool bp !! i = None -> worker_step bp i poll = None.
Proof. unfold worker_step. now intros [-> | ->]. Qed.

Lemma collector_done_parked (bp : BookProcessor) (k : nat) (poll : Poll) :
  collectors bp !! k = Some CDone \/ collectors bp !! k = None ->
  collector_step bp k poll = None.
Proof. unfold collector_step. now intros [-> | ->]. Qed.

Lemma live_zero (bp : BookProcessor) :
  live bp = 0%nat <->
  (forall i w, pool bp !! i = Some w -> w = WDone) /\
  (forall k c, collectors bp !! k = Some c -> c = CDone).
Proof.
  unfold live. split.
  - intros H. split.
    + intros i w Hi.
      assert (Hz : live_worker w = 0%nat)
        by (apply (sum_list_fmap_zero live_worker (pool bp) i); [lia | exact Hi]).
      now destruct w.
    + intros k c Hk.
      assert (Hz : live_collector c = 0%nat)
        by (apply (sum_list_fmap_zero live_collector (collectors bp) k); [lia | exact Hk]).
      now destruct c.
  - intros [Hw Hc].
    rewrite (sum_list_fmap_all_zero live_worker), (sum_list_fmap_all_zero live_collector).
    + reflexivity.
    + intros k c Hk. now rewrite (Hc k c Hk).
    + intros i w Hi. now rewrite (Hw i w Hi).
Qed.

End PoolRunFacts3.

(** X12.  A pool built with a positive buffer size and started, under
    any interleaving of [SubmitJob] calls, worker moves, result-processor
    moves and [Shutdown] calls: nothing panics; the jobs processed so far
    followed by the jobs still queued are exactly the jobs [SubmitJob]
    accepted, in the order of acceptance, so jobs leave the queue first in
    first out and none is processed twice; the queue never holds more
    than the buffer size; and [SubmitJob] answers "job queue is full"
    exactly when the queue is full and the pool has not been cancelled. *)
Theorem pool_jobs_in_order (workers bufferSize : Z) (evs : list PoolEvent) :
  0 < bufferSize ->
  exists st0 st,
    PoolOps.started workers bufferSize = Ret st0 /\
    PoolOps.run evs st0 = Ret st /\
    processed (run_bp st) ++ buf (jobQueue (run_bp st)) = accepted st /\
    accepted st `sublist_of` submitted evs /\
    Z.of_nat (length (buf (jobQueue (run_bp st)))) <= bufferSize /\
    forall job poll,
      Pool.SubmitJob (run_bp st) job poll = Ret (Some "job queue is full", run_bp st) <->
      Z.of_nat (length (buf (jobQueue (run_bp st)))) = bufferSize /\
      ctx_done (run_bp st) = false.
Proof.
  intros Hb.
  destruct (pool_inv_started workers bufferSize ltac:(lia)) as (st0 & H0 & Hinv0 & Ha0 & Hc0 & Hr0).
  destruct (pool_inv_run evs st0 Hinv0) as (st & Hrun & Hinv).
  destruct (run_cap _ _ _ Hrun) as (Hcap & Hrcap & l & Hl & Hsub).
  rewrite Ha0 in Hl. simpl in Hl. subst l. rewrite Hc0 in Hcap.
  exists st0, st. split; [exact H0|]. split; [exact Hrun|].
  destruct Hinv as [H1 H2 H3 H4 H5 H6 H7 H8].
  split; [exact H6|]. split; [exact Hsub|]. rewrite Hcap in H3. split; [exact H3|].
  intros job poll. unfold Pool.SubmitJob, Pool.send_ready, Pool.send.
  rewrite H1, Hcap. simpl.
  destruct (Z.of_nat (length (buf (jobQueue (run_bp st)))) <? bufferSize) eqn:Hroom;
    [apply Z.ltb_lt in Hroom | apply Z.ltb_ge in Hroom];
    destruct poll, (ctx_done (run_bp st)); simpl; split;
    try discriminate; try (intros [? ?]; try discriminate; lia);
    intros _; split; try reflexivity; lia.
Qed.

Lemma pool_jobs_in_order_witness :
  exists st0 st,
    PoolOps.started 1 1 = Ret st0 /\
    PoolOps.run [ESubmit Sample.notify ChanFirst; ESubmit Sample.notify ChanFirst;
                 EWorker 0 ChanFirst] st0 = Ret st /\
    processed (run_bp st) ++ buf (jobQueue (run_bp st)) = accepted st.
Proof.
  destruct (pool_jobs_in_order 1 1
              [ESubmit Sample.notify ChanFirst; ESubmit Sample.notify ChanFirst;
               EWorker 0 ChanFirst] ltac:(lia)) as (st0 & st & H0 & H1 & H2 & _).
  exists st0, st. split; [exact H0|]. split; [exact H1 | exact H2].
Defined.

(** X13.  Under the same interleavings every result is accounted for:
    the results logged, those buffered in the result channel and those
    held by a worker about to send are, counted with multiplicity, among
    the results of [processJob] on the jobs processed; until the pool is
    cancelled they are exactly those.  So every logged result is the
    result of a job that was submitted, and no job is reported twice. *)
Theorem pool_results_accounted (workers bufferSize : Z) (evs : list PoolEvent) :
  0 < bufferSize ->
  exists st0 st,
    PoolOps.started workers bufferSize = Ret st0 /\
    PoolOps.run evs st0 = Ret st /\
    logged (run_bp st) ++ buf (resultChan (run_bp st)) ++ held (run_bp st)
    ⊆+ Pool.processJob <$> processed (run_bp st) /\
    (ctx_done (run_bp st) = false ->
     logged (run_bp st) ++ buf (resultChan (run_bp st)) ++ held (run_bp st)
     ≡ₚ Pool.processJob <$> processed (run_bp st)) /\
    (forall r, r ∈ logged (run_bp st) ->
       exists job, job ∈ submitted evs /\ r = Pool.processJob job /\ JobID r = job_ID job) /\
    Z.of_nat (length (buf (resultChan (run_bp st)))) <= bufferSize.
Proof.
  intros Hb.
  destruct (pool_inv_started workers bufferSize ltac:(lia)) as (st0 & H0 & Hinv0 & Ha0 & Hc0 & Hr0).
  destruct (pool_inv_run evs st0 Hinv0) as (st & Hrun & Hinv).
  destruct (run_cap _ _ _ Hrun) as (Hcap & Hrcap & l & Hl & Hsub).
  rewrite Ha0 in Hl. simpl in Hl. subst l.
  exists st0, st. split; [exact H0|]. split; [exact Hrun|].
  destruct Hinv as [H1 H2 H3 H4 H5 H6 H7 H8].
  split; [exact H7|]. split; [exact H8|]. split.
  - intros r Hr.
    assert (Hin : r ∈ Pool.processJob <$> processed (run_bp st)).
    { eapply elem_of_submseteq; [|exact H7]. apply elem_of_app. now left. }
    apply list_elem_of_fmap in Hin. destruct Hin as (job & -> & Hjob).
    exists job. split; [|split; [reflexivity|]].
    + eapply elem_of_sublist; [|exact Hsub]. rewrite <- H6. apply elem_of_app. now left.
    + unfold Pool.processJob.
      destruct (job_Type job =? JobTypeValidate);
        [destruct (BookData job) as [d|]; [destruct (String.eqb _ _)|]; reflexivity|].
      destruct (job_Type job =? JobTypeProcess);
        [destruct (BookData job); reflexivity|].
      destruct (job_Type job =? JobTypeNotify); reflexivity.
  - rewrite Hrcap, Hr0 in H4. exact H4.
Qed.

Lemma pool_results_accounted_witness :
  exists st0 st,
    PoolOps.started 1 1 = Ret st0 /\
    PoolOps.run [ESubmit Sample.notify ChanFirst; EWorker 0 ChanFirst; EWorker 0 ChanFirst;
                 ECollector 0 ChanFirst] st0 = Ret st /\
    forall r, r ∈ logged (run_bp st) -> exists job, r = Pool.processJob job.
Proof.
  destruct (pool_results_accounted 1 1
              [ESubmit Sample.notify ChanFirst; EWorker 0 ChanFirst; EWorker 0 ChanFirst;
               ECollector 0 ChanFirst] ltac:(lia))
    as (st0 & st & H0 & H1 & _ & _ & H2 & _).
  exists st0, st. split; [exact H0|]. split; [exact H1|].
  intros r Hr. destruct (H2 r Hr) as (job & _ & -> & _). now exists job.
Defined.

(** X14.  Under the same interleavings the WaitGroup counts the
    goroutines that have not returned.  So [Shutdown] returns nil only
    when every worker and the result processor have returned; and once
    the pool is cancelled, no goroutine can move any more exactly when
    the counter is zero, in which case [Shutdown] returns nil unless the
    caller's deadline has passed and is polled first. *)
Theorem pool_waitgroup (workers bufferSize : Z) (evs : list PoolEvent) :
  0 < bufferSize ->
  exists st0 st,
    PoolOps.started workers bufferSize = Ret st0 /\
    PoolOps.run evs st0 = Ret st /\
    wg (run_bp st) = Z.of_nat (live (run_bp st)) /\
    (forall deadline poll,
       (Pool.Shutdown (run_bp st) deadline poll).1 = Some None ->
       (forall i w, pool (run_bp st) !! i = Some w -> w = WDone) /\
       (forall k c, collectors (run_bp st) !! k = Some c -> c = CDone)) /\
    (ctx_done (run_bp st) = true ->
     ((forall i poll, Pool.worker_step (run_bp st) i poll = None) /\
      (forall k poll, Pool.collector_step (run_bp st) k poll = None)
      <-> wg (run_bp st) = 0) /\
     (wg (run_bp st) = 0 ->
      forall poll, (Pool.Shutdown (run_bp st) false poll).1 = Some None)).
Proof.
  intros Hb.
  destruct (pool_inv_started workers bufferSize ltac:(lia)) as (st0 & H0 & Hinv0 & _).
  destruct (pool_inv_run evs st0 Hinv0) as (st & Hrun & Hinv).
  exists st0, st. split; [exact H0|]. split; [exact Hrun|].
  destruct Hinv as [H1 H2 H3 H4 H5 H6 H7 H8].
  split; [exact H5|]. split; [|intros Hd; split; [split|]].
  - intros deadline poll Hs. apply live_zero.
    unfold Pool.Shutdown, Pool.cancel in Hs. simpl in Hs.
    destruct (wg (run_bp st) =? 0) eqn:Hz; [apply Z.eqb_eq in Hz; lia|].
    destruct poll, deadline; discriminate.
  - intros [Hw Hc].
    assert (Hl : live (run_bp st) = 0%nat); [|lia].
    apply live_zero. split.
    + intros i w Hi. destruct w as [|r|]; [| |reflexivity].
      * destruct (worker_never_parked (run_bp st) i WLoop ChanFirst Hd Hi ltac:(discriminate))
          as [o Ho]. rewrite Hw in Ho. discriminate.
      * destruct (worker_never_parked (run_bp st) i (WSend r) ChanFirst Hd Hi
                    ltac:(discriminate)) as [o Ho]. rewrite Hw in Ho. discriminate.
    + intros k c Hk. destruct c; [|reflexivity].
      destruct (collector_never_parked (run_bp st) k ChanFirst Hd Hk) as [o Ho].
      rewrite Hc in Ho. discriminate.
  - intros Hz. assert (Hl : live (run_bp st) = 0%nat) by lia.
    apply live_zero in Hl. destruct Hl as [Hw Hc]. split.
    + intros i poll. apply worker_done_parked.
      destruct (pool (run_bp st) !! i) as [w|] eqn:Hi; [left | now right].
      now rewrite (Hw i w Hi).
    + intros k poll. apply collector_done_parked.
      destruct (collectors (run_bp st) !! k) as [c|] eqn:Hk; [left | now right].
      now rewrite (Hc k c Hk).
  - intros Hz poll. unfold Pool.Shutdown, Pool.cancel. simpl. rewrite Hz.
    now destruct poll.
Qed.

Lemma pool_waitgroup_witness :
  exists st0 st,
    PoolOps.started 1 1 = Ret st0 /\
    PoolOps.run [EShutdown false ChanFirst; EWorker 0 ChanFirst; ECollector 0 DoneFirst] st0
    = Ret st /\
    wg (run_bp st) = Z.of_nat (live (run_bp st)).
Proof.
  destruct (pool_waitgroup 1 1
              [EShutdown false ChanFirst; EWorker 0 ChanFirst; ECollector 0 DoneFirst]
              ltac:(lia)) as (st0 & st & H0 & H1 & H2 & _).
  exists st0, st. split; [exact H0|]. split; [exact H1 | exact H2].
Defined.

(** X15.  [processJob] copies the job's id into its result, reports
    success exactly when it sets no error, and fails exactly for a
    validation job whose request has an empty title and for a job of
    unknown type.  It sets [Book] only for a processing job with a
    request, from the request's title, author and ISBN.  A request that
    the service's own title check accepts always passes a validation
    job. *)
Theorem processJob_spec (job : BookJob) :
  let r := Pool.processJob job in
  JobID r = job_ID job /\
  (Success r = true <-> Error r = None) /\
  (Success r = false <->
   (job_Type job = JobTypeValidate /\
    exists d, BookData job = Some d /\ CreateBookRequest.Title d = "") \/
   ~ (0 <= job_Type job <= 2)) /\
  (forall b, result_Book r = Some b ->
     job_Type job = JobTypeProcess /\
     exists d, BookData job = Some d /\
       Book.Title b = CreateBookRequest.Title d /\
       Book.Author b = CreateBookRequest.Author d /\
       Book.ISBN b = CreateBookRequest.ISBN d) /\
  (forall d, job_Type job = JobTypeValidate -> BookData job = Some d ->
     Service.validateTitle (CreateBookRequest.Title d) = None -> Success r = true).
Proof.
  unfold Pool.processJob, JobTypeValidate, JobTypeProcess, JobTypeNotify. cbv zeta.
  destruct (job_Type job =? 0) eqn:H0; [apply Z.eqb_eq in H0 | apply Z.eqb_neq in H0].
  { destruct (BookData job) as [d|] eqn:Hd.
    - destruct (String.eqb (CreateBookRequest.Title d) "") eqn:Ht; simpl.
      + apply String.eqb_eq in Ht. repeat split; try discriminate; eauto.
        intros d' _ Hd'. injection Hd' as <-. rewrite Ht. discriminate.
      + apply String.eqb_neq in Ht. repeat split; try discriminate; try lia.
        intros [(_ & d' & Hd' & Ht') | Hr]; [congruence | lia].
    - simpl. repeat split; try discriminate.
      intros [(_ & d' & Hd' & _) | Hr]; [discriminate | lia]. }
  destruct (job_Type job =? 1) eqn:H1; [apply Z.eqb_eq in H1 | apply Z.eqb_neq in H1].
  { destruct (BookData job) as [d|] eqn:Hd; simpl; repeat split; try discriminate;
      try (intros [(Hv & _) | Hr]; lia); try lia.
    match goal with H : Some _ = Some _ |- _ => injection H as <- end.
    exists d. repeat split. }
  destruct (job_Type job =? 2) eqn:H2; [apply Z.eqb_eq in H2 | apply Z.eqb_neq in H2].
  { simpl; repeat split; try discriminate; try (intros [(Hv & _) | Hr]; lia); lia. }
  simpl. repeat split; try discriminate; try lia.
Qed.

(** ** The repository *)

Section RepoFacts.

Import bookRepository BookRepo.

Lemma has_id_false (db : DB) (id : UUID) :
  has_id db id = false <-> id ∉ Book.ID <$> db.
Proof.
  unfold has_id. induction db as [|b db IH]; csimpl.
  - split; [intros _; apply not_elem_of_nil | reflexivity].
  - rewrite orb_false_iff, IH, not_elem_of_cons, Z.eqb_neq. split; intros [? ?]; split; auto.
Qed.

Lemma has_isbn_false (db : DB) (isbn : string) :
  has_isbn db isbn = false <-> isbn ∉ Book.ISBN <$> db.
Proof.
  unfold has_isbn. induction db as [|b db IH]; csimpl.
  - split; [intros _; apply not_elem_of_nil | reflexivity].
  - rewrite orb_false_iff, IH, not_elem_of_cons, String.eqb_neq.
    split; intros [? ?]; split; auto.
Qed.

Lemma find_id_absent (db : DB) (id : UUID) :
  has_id db id = false -> List.find (λ b, Book.ID b =? id) db = None.
Proof.
  unfold has_id. induction db as [|b db IH]; simpl; [reflexivity|].
  intros H. apply orb_false_iff in H as [Hb Hdb]. rewrite Hb. now apply IH.
Qed.

Lemma find_id_present (db : DB) (id : UUID) :
  has_id db id = true -> exists b, List.find (λ b, Book.ID b =? id) db = Some b.
Proof.
  unfold has_id. induction db as [|b db IH]; simpl; [discriminate|].
  intros H. destruct (Book.ID b =? id); [eauto | now apply IH].
Qed.


Lemma find_id_filter (db : DB) (id id' : UUID) :
  id' <> id ->
  List.find (λ b, Book.ID b =? id') (List.filter (λ b, negb (Book.ID b =? id)) db)
  = List.find (λ b, Book.ID b =? id') db.
Proof.
  intros Hne. induction db as [|x db IH]; simpl; [reflexivity|].
  destruct (Book.ID x =? id) eqn:Hx; simpl.
  - apply Z.eqb_eq in Hx.
    destruct (Book.ID x =? id') eqn:Hx'; [apply Z.eqb_eq in Hx'; congruence | exact IH].
  - destruct (Book.ID x =? id'); [reflexivity | exact IH].
Qed.

Lemma has_id_filter (db : DB) (id : UUID) :
  has_id (List.filter (λ b, negb (Book.ID b =? id)) db) id = false.
Proof.
  unfold has_id. induction db as [|x db IH]; simpl; [reflexivity|].
  destruct (Book.ID x =? id) eqn:Hx; simpl; [exact IH | now rewrite Hx].
Qed.

Lemma filter_absent (db : DB) (id : UUID) :
  has_id db id = false -> List.filter (λ b, negb (Book.ID b =? id)) db = db.
Proof.
  unfold has_id. induction db as [|x db IH]; simpl; [reflexivity|].
  intros H. apply orb_false_iff in H as [Hb Hdb]. rewrite Hb. simpl. now rewrite IH.
Qed.

Lemma NoDup_fmap_filter {A B} (f : A -> B) (P : A -> bool) (l : list A) :
  NoDup (f <$> l) -> NoDup (f <$> List.filter P l).
Proof.
  induction l as [|x l IH]; csimpl; [auto|].
  intros H. apply NoDup_cons in H as [Hx Hl].
  destruct (P x); csimpl; [|auto].
  apply NoDup_cons. split; [|auto].
  intros Hin. apply Hx. apply list_elem_of_fmap in Hin as (y & -> & Hy).
  apply list_elem_of_fmap. exists y. split; [reflexivity|].
  apply list_elem_of_In. apply list_elem_of_In in Hy. now apply filter_In in Hy.
Qed.

Lemma replace_row_ids (db : DB) (id : UUID) (book : Book.t) :
  Book.ID book = id -> Book.ID <$> replace_row db id book = Book.ID <$> db.
Proof.
  intros Hid. induction db as [|x db IH]; csimpl; [reflexivity|].
  destruct (Book.ID x =? id) eqn:Hx; csimpl; rewrite IH; [|reflexivity].
  apply Z.eqb_eq in Hx. congruence.
Qed.

Lemma replace_row_absent (db : DB) (id : UUID) (book : Book.t) :
  id ∉ Book.ID <$> db -> replace_row db id book = db.
Proof.
  induction db as [|x db IH]; csimpl; [reflexivity|].
  intros H. apply not_elem_of_cons in H as [Hx Hdb].
  destruct (Book.ID x =? id) eqn:Hx'; [apply Z.eqb_eq in Hx'; congruence|].
  now rewrite IH.
Qed.

Lemma replace_row_elem (db : DB) (id : UUID) (book x : Book.t) :
  x ∈ replace_row db id book -> x ∈ db \/ x = book.
Proof.
  induction db as [|y db IH]; csimpl; [intros H; now apply elem_of_nil in H|].
  destruct (Book.ID y =? id); intros H; apply elem_of_cons in H as [-> | H].
  - now right.
  - destruct (IH H); [left; now apply list_elem_of_further | now right].
  - left. apply list_elem_of_here.
  - destruct (IH H); [left; now apply list_elem_of_further | now right].
Qed.

Lemma replace_row_isbns (db : DB) (id : UUID) (book : Book.t) :
  Book.ID book = id ->
  NoDup (Book.ID <$> db) -> NoDup (Book.ISBN <$> db) ->
  isbn_taken db (Book.ISBN book) id = false ->
  NoDup (Book.ISBN <$> replace_row db id book).
Proof.
  intros Hid. unfold isbn_taken.
  induction db as [|x db IH]; csimpl; [auto|].
  intros Hids Hisbns Ht.
  apply NoDup_cons in Hids as [Hx Hids]. apply NoDup_cons in Hisbns as [Hy Hisbns].
  apply orb_false_iff in Ht as [Htx Ht].
  destruct (Book.ID x =? id) eqn:Hxid; csimpl.
  - apply Z.eqb_eq in Hxid. rewrite Hxid in Hx.
    rewrite (replace_row_absent db id book Hx).
    apply NoDup_cons. split; [|exact Hisbns].
    intros Hin. apply list_elem_of_fmap in Hin as (y & He & Hin).
    assert (Hyid : Book.ID y <> id).
    { intros E. apply Hx. apply list_elem_of_fmap. now exists y. }
    apply list_elem_of_In in Hin.
    assert (Hex : existsb (λ b, String.eqb (Book.ISBN b) (Book.ISBN book)
                                && negb (Book.ID b =? id)) db = true).
    { apply existsb_exists. exists y. split; [exact Hin|].
      rewrite <- He, String.eqb_refl. simpl. apply negb_true_iff. now apply Z.eqb_neq. }
    congruence.
  - apply NoDup_cons. split; [|now apply IH].
    simpl in Htx. rewrite andb_true_r in Htx. apply String.eqb_neq in Htx.
    intros Hin. apply list_elem_of_fmap in Hin as (y & He & Hin).
    apply replace_row_elem in Hin as [Hin | ->]; [|congruence].
    apply Hy. apply list_elem_of_fmap. now exists y.
Qed.

Lemma find_id_some (db : DB) (id : UUID) (b : Book.t) :
  List.find (λ b, Book.ID b =? id) db = Some b -> Book.ID b = id /\ b ∈ db.
Proof.
  intros H. apply find_some in H as [Hin Hb].
  split; [now apply Z.eqb_eq | now apply list_elem_of_In].
Qed.

Lemma find_replace_row (db : DB) (id id' : UUID) (book : Book.t) :
  Book.ID book = id ->
  List.find (λ b, Book.ID b =? id') (replace_row db id book)
  = if id =? id'
    then match List.find (λ b, Book.ID b =? id) db with
         | Some _ => Some book
         | None => None
         end
    else List.find (λ b, Book.ID b =? id') db.
Proof.
  intros Hid. induction db as [|x db IH]; simpl.
  - now destruct (id =? id').
  - destruct (Book.ID x =? id) eqn:Hx; simpl.
    + apply Z.eqb_eq in Hx. rewrite Hid.
      destruct (id =? id') eqn:Hii; [reflexivity|].
      rewrite Hx, Hii. exact IH.
    + destruct (id =? id') eqn:Hii.
      * apply Z.eqb_eq in Hii. subst id'. rewrite Hx. exact IH.
      * destruct (Book.ID x =? id'); [reflexivity | exact IH].
Qed.

Lemma length_replace_row (db : DB) (id : UUID) (book : Book.t) :
  length (replace_row db id book) = length db.
Proof.
  induction db as [|x db IH]; simpl; [reflexivity|].
  destruct (Book.ID x =? id); simpl; now rewrite IH.
Qed.

End RepoFacts.

(** X16.  The repository keeps the table's constraints: when no two rows
    share an id or an ISBN, the same holds of the table that [Create],
    [Update] or [Delete] leaves, whatever the call returns. *)
Theorem repository_keeps_constraints (db : bookRepository.DB) :
  db_ok db ->
  (forall req id now1 now2 fault,
     db_ok (bookRepository.Create db req id now1 now2 fault).2) /\
  (forall id req now fault1 fault2, db_ok (BookRepo.Update db id req now fault1 fault2).2) /\
  (forall id fault1 fault2, db_ok (BookRepo.Delete db id fault1 fault2).2).
Proof.
  intros [Hids Hisbns]. split; [|split].
  - intros req id now1 now2 fault. unfold bookRepository.Create. cbv zeta.
    set (book := if String.eqb _ _ then _ else _).
    destruct fault as [e|]; [now split|].
    destruct (bookRepository.has_id db (Book.ID book)) eqn:Hi; [now split|].
    destruct (bookRepository.has_isbn db (Book.ISBN book)) eqn:Hs; [now split|].
    simpl. apply has_id_false in Hi. apply has_isbn_false in Hs.
    unfold db_ok. rewrite !fmap_app. split; apply NoDup_app; (split; [assumption|]);
      (split; [|apply NoDup_singleton]); intros x Hx Hx'; csimpl in Hx';
      apply list_elem_of_singleton in Hx'; subst x; contradiction.
  - intros id req now fault1 fault2. unfold BookRepo.Update, BookRepo.GetByID.
    destruct fault1 as [e|]; [now split|].
    destruct (List.find _ db) as [cur|] eqn:Hf; [|now split].
    destruct (BookRepo.no_fields req); [now split|].
    destruct fault2 as [e|]; [now split|].
    destruct (BookRepo.isbn_taken db _ id) eqn:Ht; [now split|].
    simpl. apply find_id_some in Hf as [Hid _].
    assert (Hb : Book.ID (BookRepo.updated_row cur req now) = id) by exact Hid.
    split.
    + now rewrite replace_row_ids.
    + now apply replace_row_isbns.
  - intros id fault1 fault2. unfold BookRepo.Delete.
    destruct fault1 as [e|]; [now split|].
    assert (Hok : db_ok (List.filter (λ b, negb (Book.ID b =? id)) db))
      by (split; now apply NoDup_fmap_filter).
    destruct fault2 as [e|]; [exact Hok|].
    destruct (bookRepository.has_id db id); exact Hok.
Qed.

Lemma repository_keeps_constraints_witness :
  db_ok (bookRepository.Create [] Sample.request Sample.id1 1000 1000 None).2.
Proof.
  apply (repository_keeps_constraints []).
  split; constructor.
Defined.


(** X18.  [Delete] removes the rows with the id and no other: once the
    DELETE statement has run, [GetByID] of the id answers "book not
    found" and every other id reads as before.  It returns nil exactly
    when a row had the id, and "book not found" otherwise, in which case
    the table is as it was; deleting the same id again answers "book not
    found". *)
Theorem Delete_then_read (db : bookRepository.DB) (id : UUID) (fault_rows : option error) :
  let r := BookRepo.Delete db id None fault_rows in
  BookRepo.GetByID r.2 id None = inr "book not found" /\
  (forall id', id' <> id -> BookRepo.GetByID r.2 id' None = BookRepo.GetByID db id' None) /\
  (forall b, b ∈ r.2 <-> b ∈ db /\ Book.ID b <> id) /\
  (r.1 = None <-> fault_rows = None /\ bookRepository.has_id db id = true) /\
  (fault_rows = None -> bookRepository.has_id db id = false ->
   r = (Some "book not found", db)) /\
  BookRepo.Delete r.2 id None None = (Some "book not found", r.2) /\
  (forall e fault, BookRepo.Delete db id (Some e) fault
                   = (Some ("failed to delete book: " +:+ e), db)).
Proof.
  cbv zeta.
  set (db' := List.filter (λ b, negb (Book.ID b =? id)) db).
  assert (H1 : BookRepo.GetByID db' id None = inr "book not found").
  { unfold BookRepo.GetByID. now rewrite (find_id_absent db' id (has_id_filter db id)). }
  assert (H2 : forall id', id' <> id ->
                 BookRepo.GetByID db' id' None = BookRepo.GetByID db id' None).
  { intros id' Hne. unfold BookRepo.GetByID, db'. now rewrite find_id_filter. }
  assert (H3 : forall b, b ∈ db' <-> b ∈ db /\ Book.ID b <> id).
  { intros b. unfold db'. rewrite !list_elem_of_In, filter_In, negb_true_iff, Z.eqb_neq.
    reflexivity. }
  assert (H4 : BookRepo.Delete db' id None None = (Some "book not found", db')).
  { assert (Hh0 : bookRepository.has_id db' id = false) by apply has_id_filter.
    unfold BookRepo.Delete. rewrite Hh0. now rewrite (filter_absent db' id Hh0). }
  unfold BookRepo.Delete. fold db'.
  destruct fault_rows as [e|]; [|destruct (bookRepository.has_id db id) eqn:Hh];
    cbn [fst snd];
    (split; [exact H1|]); (split; [exact H2|]); (split; [exact H3|]);
    (split; [|split; [|split; [exact H4 | reflexivity]]]).
  - split; [discriminate | intros [? _]; discriminate].
  - discriminate.
  - now split.
  - discriminate.
  - split; [discriminate | intros [_ ?]; discriminate].
  - intros _ _. unfold db'. now rewrite filter_absent.
Qed.

(** X19.  [Update] either fails and leaves the table as it was, or
    returns the row of the id with each field of the request that is
    present put in and every other field, the id and the creation time
    kept.  The table keeps its length, [GetByID] of the id returns the
    row returned, and every other id reads as before.  A request without
    fields returns the current row and changes nothing, not even the
    update time. *)
Theorem Update_then_read (db : bookRepository.DB) (id : UUID) (req : UpdateBookRequest.t)
    (now : Z) (fault1 fault2 : option error) :
  match BookRepo.Update db id req now fault1 fault2 with
  | (inl book, db') =>
      exists cur,
        BookRepo.GetByID db id None = inl cur /\
        Book.ID book = id /\
        Book.CreatedAt book = Book.CreatedAt cur /\
        Book.Title book = default (Book.Title cur) (UpdateBookRequest.Title req) /\
        Book.Author book = default (Book.Author cur) (UpdateBookRequest.Author req) /\
        Book.ISBN book = default (Book.ISBN cur) (UpdateBookRequest.ISBN req) /\
        Book.Pages book = default (Book.Pages cur) (UpdateBookRequest.Pages req) /\
        Book.Available book = default (Book.Available cur) (UpdateBookRequest.Available req) /\
        Book.UpdatedAt book
        = (if BookRepo.no_fields req then Book.UpdatedAt cur else now) /\
        (BookRepo.no_fields req = true -> book = cur /\ db' = db) /\
        length db' = length db /\
        BookRepo.GetByID db' id None = inl book /\
        forall id', id' <> id -> BookRepo.GetByID db' id' None = BookRepo.GetByID db id' None
  | (inr e, db') => db' = db
  end.
Proof.
  unfold BookRepo.Update, BookRepo.GetByID.
  destruct fault1 as [e|]; [reflexivity|].
  destruct (List.find _ db) as [cur|] eqn:Hf; [|reflexivity].
  pose proof (find_id_some _ _ _ Hf) as [Hid _].
  destruct (BookRepo.no_fields req) eqn:Hn.
  - exists cur. rewrite ?Hf.
    assert (Hnone : UpdateBookRequest.Title req = None /\ UpdateBookRequest.Author req = None /\
                    UpdateBookRequest.ISBN req = None /\ UpdateBookRequest.Pages req = None /\
                    UpdateBookRequest.Available req = None).
    { unfold BookRepo.no_fields in Hn.
      destruct (UpdateBookRequest.Title req), (UpdateBookRequest.Author req),
        (UpdateBookRequest.ISBN req), (UpdateBookRequest.Publisher req),
        (UpdateBookRequest.Genre req), (UpdateBookRequest.PublishedAt req),
        (UpdateBookRequest.Pages req), (UpdateBookRequest.Language req),
        (UpdateBookRequest.Available req); try discriminate. repeat split. }
    destruct Hnone as (-> & -> & -> & -> & ->). simpl.
    repeat (split; [first [reflexivity | assumption]|]).
    split; [now split|]. split; [reflexivity|]. split; [reflexivity|]. reflexivity.
  - destruct fault2 as [e|]; [reflexivity|].
    destruct (BookRepo.isbn_taken db _ id) eqn:Ht; [reflexivity|]. simpl.
    exists cur. rewrite ?Hf.
    repeat (split; [first [reflexivity | assumption]|]).
    split; [discriminate|]. split; [apply length_replace_row|]. split.
    + rewrite find_replace_row by exact Hid. now rewrite Z.eqb_refl, Hf.
    + intros id' Hne. rewrite find_replace_row by exact Hid.
      destruct (id =? id') eqn:E; [apply Z.eqb_eq in E; congruence | reflexivity].
Qed.

Section GetAllFacts.

Import bookRepository.

Lemma insert_desc_perm (b : Book.t) (l : list Book.t) : insert_desc b l ≡ₚ b :: l.
Proof.
  induction l as [|x l IH]; simpl; [reflexivity|].
  destruct (Book.CreatedAt x <? Book.CreatedAt b); [reflexivity|].
  rewrite IH. apply Permutation_swap.
Qed.

Lemma order_desc_perm (l : list Book.t) : order_desc l ≡ₚ l.
Proof.
  induction l as [|x l IH]; simpl; [reflexivity|].
  now rewrite insert_desc_perm, IH.
Qed.

Lemma insert_desc_sorted (b : Book.t) (l : list Book.t) :
  sorted_desc l -> sorted_desc (insert_desc b l).
Proof.
  induction l as [|x l IH]; simpl.
  - intros _. split; [|exact I]. intros y Hy. now apply elem_of_nil in Hy.
  - intros [Hx Hl].
    destruct (Book.CreatedAt x <? Book.CreatedAt b) eqn:Hlt.
    + apply Z.ltb_lt in Hlt. simpl. split; [|now split].
      intros y Hy. apply elem_of_cons in Hy as [-> | Hy]; [lia|].
      specialize (Hx y Hy). lia.
    + apply Z.ltb_ge in Hlt. simpl. split; [|now apply IH].
      intros y Hy. rewrite insert_desc_perm in Hy.
      apply elem_of_cons in Hy as [-> | Hy]; [exact Hlt | now apply Hx].
Qed.

Lemma order_desc_sorted (l : list Book.t) : sorted_desc (order_desc l).
Proof.
  induction l as [|x l IH]; simpl; [exact I | now apply insert_desc_sorted].
Qed.

Lemma sorted_desc_sublist (l k : list Book.t) :
  l `sublist_of` k -> sorted_desc k -> sorted_desc l.
Proof.
  induction 1 as [|x l k Hs IH|x l k Hs IH]; simpl.
  - auto.
  - intros [Hx Hk]. split; [|auto].
    intros y Hy. apply Hx. eapply elem_of_sublist; eauto.
  - intros [_ Hk]. auto.
Qed.

End GetAllFacts.

(** X20.  When both queries of [GetAll] go through, the total is the
    number of rows that match the filter, whatever the limit and offset;
    the page holds matching rows of the table only, newest first, each
    row of the table at most as often as the table holds it; and it has
    min(limit, total - offset) rows, none when the offset is at or past
    the total, with 50 for a limit that is not positive and 0 for a
    negative offset. *)
Theorem GetAll_page (db : bookRepository.DB) (filter : BookFilter.t) :
  exists page,
    bookRepository.GetAll db filter None None
    = inl (page, Z.of_nat (length (List.filter (bookRepository.matches filter) db))) /\
    page ⊆+ db /\
    (forall b, b ∈ page -> bookRepository.matches filter b = true) /\
    sorted_desc page /\
    let total := Z.of_nat (length (List.filter (bookRepository.matches filter) db)) in
    let limit := if BookFilter.Limit filter <=? 0 then 50 else BookFilter.Limit filter in
    let offset := if BookFilter.Offset filter <? 0 then 0 else BookFilter.Offset filter in
    Z.of_nat (length page) = Z.min limit (Z.max 0 (total - offset)).
Proof.
  unfold bookRepository.GetAll. cbv zeta.
  set (rows := List.filter (bookRepository.matches filter) db).
  set (limit := if BookFilter.Limit filter <=? 0 then 50 else BookFilter.Limit filter).
  set (offset := if BookFilter.Offset filter <? 0 then 0 else BookFilter.Offset filter).
  eexists. split; [reflexivity|].
  assert (Hsub : firstn (Z.to_nat limit) (skipn (Z.to_nat offset) (bookRepository.order_desc rows))
                 `sublist_of` bookRepository.order_desc rows).
  { etransitivity; [apply sublist_take | apply sublist_drop]. }
  assert (Hlim : 0 < limit).
  { unfold limit. destruct (BookFilter.Limit filter <=? 0) eqn:E; [lia|].
    apply Z.leb_gt in E. exact E. }
  assert (Hoff : 0 <= offset).
  { unfold offset. destruct (BookFilter.Offset filter <? 0) eqn:E; [lia|].
    apply Z.ltb_ge in E. exact E. }
  split; [|split; [|split]].
  - etransitivity; [apply sublist_submseteq, Hsub|].
    rewrite order_desc_perm. apply sublist_submseteq.
    unfold rows. clear. induction db as [|x db IH]; simpl; [constructor|].
    destruct (bookRepository.matches filter x); [now apply sublist_skip | now apply sublist_cons].
  - intros b Hb. eapply elem_of_sublist in Hb; [|exact Hsub].
    rewrite order_desc_perm in Hb. apply list_elem_of_In in Hb.
    unfold rows in Hb. now apply filter_In in Hb.
  - eapply sorted_desc_sublist; [exact Hsub | apply order_desc_sorted].
  - rewrite length_take, length_drop.
    rewrite (Permutation_length (order_desc_perm rows)). lia.
Qed.

(** ** The service *)

Section ServiceFacts.

Import Service ServiceMore.





End ServiceFacts.



Section ServiceCacheFacts.

Import BookCacheOps.

(** A read changes the counters and may start a goroutine; the tiers
    stay as they are. *)
Lemma GetBook_cache (c : BookCache) (id : UUID) (now : Z) (net : bool) :
  let c' := (GetBook c id now net).2 in
  redis c' = redis c /\ useRedis c' = useRedis c /\ ttl c' = ttl c /\
  cancelled c' = cancelled c /\ inMemory c' = inMemory c.
Proof.
  unfold GetBook, lookup_local. cbv zeta.
  assert (Hf : forall (x : (option Book.t * bool) * BookCache),
            x.2 = with_stats c (miss (stats c)) \/
            x.2 = with_stats (spawn c (DeleteLocal (uuid_String id))) (miss (stats c)) \/
            x.2 = with_stats c (hit_memory (stats c)) \/
            x.2 = with_stats c (hit_redis (stats c)) ->
            redis x.2 = redis c /\ useRedis x.2 = useRedis c /\ ttl x.2 = ttl c /\
            cancelled x.2 = cancelled c /\ inMemory x.2 = inMemory c).
  { intros x [-> | [-> | [-> | ->]]]; repeat split. }
  apply Hf.
  destruct (external c) as [r|].
  - destruct (CacheImpl.GetBook _ _ _ _) as [book [e|]]; [|simpl; auto].
    destruct (inMemory c !! _) as [en|]; [|simpl; auto].
    destruct (ExpiresAt en <? now); [simpl; auto|].
    destruct (entry_Data en); simpl; auto.
  - destruct (inMemory c !! _) as [en|]; [|simpl; auto].
    destruct (ExpiresAt en <? now); [simpl; auto|].
    destruct (entry_Data en); simpl; auto.
Qed.

Lemma GetBook_external (c : BookCache) (id : UUID) (now : Z) (net : bool) :
  external (GetBook c id now net).2 = external c /\
  (forall n, reach (GetBook c id now net).2 n = reach c n).
Proof.
  destruct (GetBook_cache c id now net) as (Hr & Hu & _ & Hc & _).
  unfold external, reach. rewrite Hr, Hu, Hc. now split.
Qed.

(** A found book comes with a value. *)
Lemma GetBook_found (c : BookCache) (id : UUID) (now : Z) (net : bool) (o : option Book.t) :
  (GetBook c id now net).1 = (o, true) -> exists b, o = Some b.
Proof.
  rewrite GetBook_result. cbv zeta.
  assert (Hl : match local_live c (uuid_String id) now with
               | Some (DBook b) => (Some b, true)
               | _ => (None, false)
               end = (o, true) -> exists b, o = Some b).
  { destruct (local_live c _ now) as [[b| |]|]; intros H; try discriminate.
    injection H as <-. eauto. }
  destruct (external c) as [[r|]|]; [| exact Hl ..].
  unfold CacheImpl.GetBook.
  destruct (Redis.unreachable r _); [exact Hl|].
  destruct (Redis.get r now _) as [[b|l]|]; [| |exact Hl];
    intros H; injection H as <-; eauto.
Qed.

Lemma SetBook_then_GetBook (c : BookCache) (b : Book.t) (t0 t1 : Z) (n0 n1 : bool) :
  match external c with
  | Some r => (CacheImpl.SetBook r (reach c n0) t0 b (ttl c)).2 = None
  | None => True
  end ->
  t0 <= t1 <= t0 + ttl c ->
  (GetBook (SetBook c b t0 n0) (Book.ID b) t1 n1).1 = (Some b, true).
Proof.
  intros Hw Ht. rewrite GetBook_result. cbv zeta.
  unfold local_live. rewrite SetBook_local. cbn [ExpiresAt entry_Data].
  rewrite external_SetBook, reach_SetBook.
  assert (Hexp : (t0 + ttl c <? t1) = false) by (apply Z.ltb_ge; lia).
  rewrite Hexp.
  destruct (external c) as [[r|]|]; [| reflexivity ..].
  change (?g <$> Some ?x) with (Some (g x)). cbv beta.
  unfold CacheImpl.SetBook in *.
  destruct (Redis.unreachable r (reach c n0)) eqn:Hu; [discriminate|].
  cbn [fst]. unfold CacheImpl.GetBook.
  change (Redis.unreachable (Redis.set r ?a ?k ?v ?d) ?n) with (Redis.unreachable r n).
  destruct (Redis.unreachable r (reach c n1)); [reflexivity|].
  unfold Redis.get, Redis.set. cbn [Redis.store]. rewrite lookup_insert_eq.
  destruct (0 <? ttl c).
  - destruct (t1 <? t0 + ttl c); reflexivity.
  - destruct (ttl c =? -1) eqn:Hk; [apply Z.eqb_eq in Hk; lia | reflexivity].
Qed.

End ServiceCacheFacts.

Section GetBookByIDFacts.

Import Service ServiceMore.

Lemma recordMetrics_fields (s : bookService) (d : Z) :
  bookRepo (recordMetrics s d) = bookRepo s /\
  cache (recordMetrics s d) = cache s /\
  processor (recordMetrics s d) = processor s /\
  RequestCount (metrics (recordMetrics s d)) = inc64 (RequestCount (metrics s)) /\
  CacheHits (metrics (recordMetrics s d)) = CacheHits (metrics s) /\
  CacheMisses (metrics (recordMetrics s d)) = CacheMisses (metrics s).
Proof. repeat split. Qed.

(** [GetBookByID] on a service whose cache misses. *)
Lemma GetBookByID_miss (s : bookService) (id : UUID) (w : GetWorld) :
  match cache s with
  | Some c => (BookCacheOps.GetBook c id (g_now w) (g_net w)).1.2 = false
  | None => True
  end ->
  GetBookByID s id w
  = let s1 :=
      match cache s with
      | Some c =>
          count_miss (with_cache s
                        (Some (BookCacheOps.GetBook c id (g_now w) (g_net w)).2))
      | None => s
      end in
    match BookRepo.GetByID (bookRepo s) id (g_fault w) with
    | inr err =>
        ((None, Some ("failed to get book: " +:+ err)), recordMetrics s1 (g_elapsed w))
    | inl book =>
        let s2 :=
          match cache s1 with
          | Some c =>
              with_cache s1 (Some (BookCacheOps.SetBook c book (g_set_now w) (g_set_net w)))
          | None => s1
          end in
        ((Some book, None), recordMetrics s2 (g_elapsed w))
    end.
Proof.
  unfold GetBookByID. destruct (cache s) as [c|] eqn:Hc.
  - intros Hm.
    destruct (BookCacheOps.GetBook c id (g_now w) (g_net w)) as [[book found] c'].
    simpl in Hm. subst found. reflexivity.
  - intros _. rewrite Hc. reflexivity.
Qed.

Lemma GetBookByID_hit (s : bookService) (id : UUID) (w : GetWorld) (c : BookCache)
    (b : Book.t) :
  cache s = Some c ->
  (BookCacheOps.GetBook c id (g_now w) (g_net w)).1 = (Some b, true) ->
  GetBookByID s id w
  = ((Some b, None),
     recordMetrics
       (count_hit (with_cache s (Some (BookCacheOps.GetBook c id (g_now w) (g_net w)).2)))
       (g_elapsed w)).
Proof.
  intros Hc Hg. unfold GetBookByID. rewrite Hc.
  destruct (BookCacheOps.GetBook c id (g_now w) (g_net w)) as [[book found] c'].
  simpl in Hg. injection Hg as -> ->. reflexivity.
Qed.

End GetBookByIDFacts.

(** X22.  [GetBookByID] never writes to the table or touches the pool,
    and counts one request, whatever it returns; with a cache it counts
    one hit or one miss.  When the id is in neither the cache nor the
    table it answers "failed to get book: book not found", which the
    handler turns into status 404, and the cache holds nothing for the id
    afterwards that it did not hold before. *)
Theorem GetBookByID_effects (s : bookService) (id : UUID) (w : GetWorld) :
  let r := ServiceMore.GetBookByID s id w in
  bookRepo r.2 = bookRepo s /\
  processor r.2 = processor s /\
  RequestCount (metrics r.2) = inc64 (RequestCount (metrics s)) /\
  match cache s with
  | Some c =>
      (CacheHits (metrics r.2) = inc64 (CacheHits (metrics s)) /\
       CacheMisses (metrics r.2) = CacheMisses (metrics s)) \/
      (CacheHits (metrics r.2) = CacheHits (metrics s) /\
       CacheMisses (metrics r.2) = inc64 (CacheMisses (metrics s)))
  | None =>
      CacheHits (metrics r.2) = CacheHits (metrics s) /\
      CacheMisses (metrics r.2) = CacheMisses (metrics s) /\ cache r.2 = None
  end /\
  (match cache s with
   | Some c => (BookCacheOps.GetBook c id (g_now w) (g_net w)).1.2 = false
   | None => True
   end ->
   bookRepository.has_id (bookRepo s) id = false -> g_fault w = None ->
   r.1 = (None, Some "failed to get book: book not found") /\
   Status.of_get "failed to get book: book not found" = 404 /\
   forall c c', cache s = Some c -> cache r.2 = Some c' -> inMemory c' = inMemory c).
Proof.
  cbv zeta.
  assert (Hgen : exists s2,
            (ServiceMore.GetBookByID s id w).2 = Service.recordMetrics s2 (g_elapsed w) /\
            bookRepo s2 = bookRepo s /\ processor s2 = processor s /\
            RequestCount (metrics s2) = RequestCount (metrics s) /\
            match cache s with
            | Some c =>
                (CacheHits (metrics s2) = inc64 (CacheHits (metrics s)) /\
                 CacheMisses (metrics s2) = CacheMisses (metrics s)) \/
                (CacheHits (metrics s2) = CacheHits (metrics s) /\
                 CacheMisses (metrics s2) = inc64 (CacheMisses (metrics s)))
            | None =>
                CacheHits (metrics s2) = CacheHits (metrics s) /\
                CacheMisses (metrics s2) = CacheMisses (metrics s) /\ cache s2 = None
            end).
  { unfold ServiceMore.GetBookByID.
    destruct (cache s) as [c|] eqn:Hc.
    - destruct (BookCacheOps.GetBook _ _ _ _) as [[[b|] [|]] c']; simpl;
        try destruct (BookRepo.GetByID _ _ _); simpl;
        eexists; (split; [reflexivity|]); simpl; repeat split; auto.
    - rewrite ?Hc. destruct (BookRepo.GetByID _ _ _); simpl; rewrite ?Hc;
        eexists; (split; [reflexivity|]); simpl; repeat split; auto. }
  destruct Hgen as (s2 & Heq & Hrepo & Hproc & Hreq & Hcache).
  split; [rewrite Heq; exact Hrepo|]. split; [rewrite Heq; exact Hproc|].
  split; [rewrite Heq; simpl; now rewrite Hreq|].
  split; [rewrite Heq; destruct (cache s); exact Hcache|].
  clear Heq. intros Hmiss Hid Hfault.
  rewrite (GetBookByID_miss s id w Hmiss). cbv zeta.
  unfold BookRepo.GetByID. rewrite Hfault, (find_id_absent _ _ Hid).
  split; [reflexivity|]. split; [vm_compute; reflexivity|].
  intros c c' Hc. rewrite Hc. simpl. intros H. injection H as <-.
  apply GetBook_cache.
Qed.

(** X23.  Read-through.  When the cache misses and the table holds the
    row, [GetBookByID] returns the row and writes it to the cache; a
    second [GetBookByID] of the id, no later than the TTL after that
    write, returns the same book from the cache and counts a hit, even
    when the database fails, provided the cache has no external tier in
    use or the write to it went through. *)
Theorem GetBookByID_read_through (s : bookService) (id : UUID) (w : GetWorld)
    (c : BookCache) (b : Book.t) :
  cache s = Some c ->
  (BookCacheOps.GetBook c id (g_now w) (g_net w)).1.2 = false ->
  BookRepo.GetByID (bookRepo s) id (g_fault w) = inl b ->
  let r := ServiceMore.GetBookByID s id w in
  r.1 = (Some b, None) /\
  Book.ID b = id /\
  CacheMisses (metrics r.2) = inc64 (CacheMisses (metrics s)) /\
  forall w',
    match BookCacheOps.external c with
    | Some x =>
        (CacheImpl.SetBook x (BookCacheOps.reach c (g_set_net w)) (g_set_now w) b (ttl c)).2
        = None
    | None => True
    end ->
    g_set_now w <= g_now w' <= g_set_now w + ttl c ->
    let r' := ServiceMore.GetBookByID r.2 id w' in
    r'.1 = (Some b, None) /\
    CacheHits (metrics r'.2) = inc64 (CacheHits (metrics s)) /\
    CacheMisses (metrics r'.2) = CacheMisses (metrics r.2).
Proof.
  intros Hc Hmiss Hget. cbv zeta.
  assert (Hm : match cache s with
               | Some c0 => (BookCacheOps.GetBook c0 id (g_now w) (g_net w)).1.2 = false
               | None => True
               end) by now rewrite Hc.
  rewrite (GetBookByID_miss s id w Hm). cbv zeta. rewrite Hc, Hget. simpl.
  assert (Hid : Book.ID b = id).
  { unfold BookRepo.GetByID in Hget. destruct (g_fault w); [discriminate|].
    destruct (List.find _ _) as [x|] eqn:Hf; [|discriminate].
    injection Hget as ->. now apply find_id_some in Hf. }
  split; [reflexivity|]. split; [exact Hid|]. split; [reflexivity|].
  intros w' Hw Ht.
  set (c1 := (BookCacheOps.GetBook c id (g_now w) (g_net w)).2).
  destruct (GetBook_cache c id (g_now w) (g_net w)) as (_ & _ & Httl & _).
  destruct (GetBook_external c id (g_now w) (g_net w)) as (Hext & Hreach).
  fold c1 in Httl, Hext, Hreach.
  assert (Hhit : (BookCacheOps.GetBook
                    (BookCacheOps.SetBook c1 b (g_set_now w) (g_set_net w))
                    id (g_now w') (g_net w')).1 = (Some b, true)).
  { rewrite <- Hid. apply SetBook_then_GetBook.
    - now rewrite Hext, Hreach, Httl.
    - now rewrite Httl. }
  erewrite GetBookByID_hit; [|reflexivity|exact Hhit].
  repeat split.
Qed.

Lemma GetBookByID_read_through_witness :
  (ServiceMore.GetBookByID
     (Service.NewBookService [Sample.hobbit] (Some Sample.local_cache) None)
     Sample.id1 (mkGetWorld 0 true None 0 true 1000)).1 = (Some Sample.hobbit, None).
Proof.
  apply (GetBookByID_read_through
           (Service.NewBookService [Sample.hobbit] (Some Sample.local_cache) None)
           Sample.id1 (mkGetWorld 0 true None 0 true 1000)
           Sample.local_cache Sample.hobbit); reflexivity.
Defined.

Section DeleteUpdateFacts.

Import Service ServiceMore.

Lemma Delete_done (db db' : bookRepository.DB) (id : UUID) (f1 f2 : option error) :
  BookRepo.Delete db id f1 f2 = (None, db') ->
  db' = List.filter (λ b, negb (Book.ID b =? id)) db /\
  bookRepository.has_id db id = true.
Proof.
  unfold BookRepo.Delete. destruct f1; [discriminate|]. destruct f2; [discriminate|].
  destruct (bookRepository.has_id db id); [|discriminate].
  intros H. injection H as <-. now split.
Qed.

Lemma Update_row (db : bookRepository.DB) (id : UUID) (req : UpdateBookRequest.t)
    (now : Z) (f1 f2 : option error) :
  match BookRepo.Update db id req now f1 f2 with
  | (inl book, db') =>
      exists cur,
        Book.ID book = id /\
        Book.ISBN book = default (Book.ISBN cur) (UpdateBookRequest.ISBN req) /\
        Book.Title book = default (Book.Title cur) (UpdateBookRequest.Title req) /\
        length db' = length db /\
        BookRepo.GetByID db' id None = inl book
  | (inr e, db') => db' = db
  end.
Proof.
  unfold BookRepo.Update, BookRepo.GetByID.
  destruct f1 as [e|]; [reflexivity|].
  destruct (List.find _ db) as [cur|] eqn:Hf; [|reflexivity].
  pose proof (find_id_some _ _ _ Hf) as [Hid _].
  destruct (BookRepo.no_fields req) eqn:Hn.
  - exists cur. rewrite ?Hf.
    assert (Hnone : UpdateBookRequest.Title req = None /\ UpdateBookRequest.ISBN req = None).
    { unfold BookRepo.no_fields in Hn.
      destruct (UpdateBookRequest.Title req), (UpdateBookRequest.Author req),
        (UpdateBookRequest.ISBN req); try discriminate. now split. }
    destruct Hnone as (-> & ->). now repeat split.
  - destruct f2 as [e|]; [reflexivity|].
    destruct (BookRepo.isbn_taken db _ id) eqn:Ht; [reflexivity|]. simpl.
    exists cur. repeat (split; [first [reflexivity | assumption]|]).
    split; [apply length_replace_row|].
    rewrite find_replace_row by exact Hid. now rewrite Z.eqb_refl, Hf.
Qed.

Lemma validateUpdateRequest_fields (req : UpdateBookRequest.t) :
  validateUpdateRequest req = None ->
  (forall t, UpdateBookRequest.Title req = Some t -> Strings.TrimSpace t <> "") /\
  (forall isbn, UpdateBookRequest.ISBN req = Some isbn ->
     String.length (normalizeISBN isbn) = 10%nat \/
     String.length (normalizeISBN isbn) = 13%nat).
Proof.
  unfold validateUpdateRequest, blank.
  destruct (UpdateBookRequest.Title req) as [t|].
  - destruct (String.eqb (Strings.TrimSpace t) "") eqn:Et; [discriminate|].
    apply String.eqb_neq in Et. intros H. split; [intros t' E; now injection E as <-|].
    destruct (match UpdateBookRequest.Author req with Some _ => _ | None => _ end);
      [discriminate|].
    destruct (UpdateBookRequest.ISBN req) as [isbn|]; [|discriminate].
    destruct (String.eqb (Strings.TrimSpace isbn) ""); [discriminate|].
    destruct (isValidISBN isbn) eqn:Ev; [|discriminate].
    intros isbn' E. injection E as <-. now apply isValidISBN_length.
  - intros H. split; [discriminate|].
    destruct (match UpdateBookRequest.Author req with Some _ => _ | None => _ end);
      [discriminate|].
    destruct (UpdateBookRequest.ISBN req) as [isbn|]; [|discriminate].
    destruct (String.eqb (Strings.TrimSpace isbn) ""); [discriminate|].
    destruct (isValidISBN isbn) eqn:Ev; [|discriminate].
    intros isbn' E. injection E as <-. now apply isValidISBN_length.
Qed.

End DeleteUpdateFacts.

(** X24.  After a [DeleteBook] that returned nil the table holds the rows
    it held, less those of the id, of which there was one at least; and
    when the invalidation reached the external tier of the cache, if one
    is in use, a [GetBookByID] of the id answers "failed to get book: book
    not found" and a second [DeleteBook] answers "book not found: book
    not found", both of which the handlers turn into status 404. *)
Theorem DeleteBook_then_get (s s' : bookService) (id : UUID) (w : DeleteWorld) :
  ServiceMore.DeleteBook s id w = (None, s') ->
  match cache s with
  | Some c =>
      match BookCacheOps.external c with
      | Some (RedisCache r) =>
          Redis.unreachable r (BookCacheOps.reach c (d_net1 w)) = None
      | _ => True
      end
  | None => True
  end ->
  bookRepository.has_id (bookRepo s) id = true /\
  (forall b, b ∈ bookRepo s' <-> b ∈ bookRepo s /\ Book.ID b <> id) /\
  RequestCount (metrics s') = inc64 (RequestCount (metrics s)) /\
  (forall w', g_fault w' = None ->
     (ServiceMore.GetBookByID s' id w').1
     = (None, Some "failed to get book: book not found")) /\
  (forall w', d_get_fault w' = None ->
     ServiceMore.DeleteBook s' id w'
     = (Some "book not found: book not found", Service.recordMetrics s' (d_elapsed w'))) /\
  Status.of_get "failed to get book: book not found" = 404 /\
  Status.of_delete "book not found: book not found" = 404.
Proof.
  unfold ServiceMore.DeleteBook at 1. intros H Hreach.
  destruct (BookRepo.GetByID (bookRepo s) id (d_get_fault w)) as [cur|e]; [|discriminate].
  destruct (BookRepo.Delete _ _ _ _) as [[e|] db] eqn:Hd; [discriminate|].
  apply Delete_done in Hd as [Hdb Hhas].
  injection H as <-.
  assert (Hrepo : forall x d, bookRepo (Service.recordMetrics
                    match cache (ServiceMore.with_repo s db) with
                    | Some c => Service.with_cache (ServiceMore.with_repo s db) (Some (x c))
                    | None => ServiceMore.with_repo s db
                    end d) = db).
  { intros x d. simpl. now destruct (cache s). }
  assert (Habs : bookRepository.has_id db id = false).
  { rewrite Hdb. apply has_id_filter. }
  split; [exact Hhas|]. split; [|split; [|split; [|split; [|split]]]].
  - intros b. rewrite Hrepo, Hdb.
    rewrite !list_elem_of_In, filter_In, negb_true_iff, Z.eqb_neq. reflexivity.
  - simpl. now destruct (cache s).
  - intros w' Hf.
    rewrite GetBookByID_miss.
    + cbv zeta. rewrite Hrepo. unfold BookRepo.GetByID.
      rewrite Hf, (find_id_absent _ _ Habs). reflexivity.
    + destruct (cache s) as [c|] eqn:Hc; simpl; rewrite ?Hc; simpl; [|exact I].
      now rewrite InvalidateBook_then_GetBook.
  - intros w' Hf. unfold ServiceMore.DeleteBook.
    rewrite Hrepo. unfold BookRepo.GetByID. rewrite Hf, (find_id_absent _ _ Habs).
    reflexivity.
  - vm_compute. reflexivity.
  - vm_compute. reflexivity.
Qed.

Lemma DeleteBook_then_get_witness :
  exists s',
    ServiceMore.DeleteBook
      (Service.NewBookService [Sample.hobbit] (Some Sample.local_cache) None)
      Sample.id1 (mkDeleteWorld None None None true true 1000) = (None, s') /\
    forall w', g_fault w' = None ->
      (ServiceMore.GetBookByID s' Sample.id1 w').1
      = (None, Some "failed to get book: book not found").
Proof.
  eexists. split; [reflexivity|].
  eapply (DeleteBook_then_get
            (Service.NewBookService [Sample.hobbit] (Some Sample.local_cache) None) _
            Sample.id1 (mkDeleteWorld None None None true true 1000));
    [reflexivity | exact I].
Defined.

(** X25.  What an [UpdateBook] leaves behind.  With an error the table
    and the cache are as they were.  With a book, the request passed
    [validateUpdateRequest] and has been overwritten with its normalized
    form; the book has the id asked for and is what [GetByID] now reads;
    the table has as many rows as before; a title or ISBN given in the
    request is stored trimmed, respectively without hyphens and spaces
    and of length 10 or 13; and the in-memory tier of the cache holds no
    entry for the book, the entry written by [SetBook] being removed by
    the [InvalidateBook] that follows.  Either way one request is
    counted and the pool is not touched. *)
Theorem UpdateBook_effects (s s' : bookService) (id : UUID)
    (req req' : UpdateBookRequest.t) (w : UpdateWorld) (r : option Book.t * option error) :
  ServiceMore.UpdateBook s id req w = (r, req', s') ->
  RequestCount (metrics s') = inc64 (RequestCount (metrics s)) /\
  processor s' = processor s /\
  (forall e, r = (None, Some e) -> bookRepo s' = bookRepo s /\ cache s' = cache s) /\
  (forall b, r = (Some b, None) ->
     ServiceMore.validateUpdateRequest req = None /\
     req' = ServiceMore.normalizeUpdate req /\
     Book.ID b = id /\
     BookRepo.GetByID (bookRepo s') id None = inl b /\
     length (bookRepo s') = length (bookRepo s) /\
     (forall t, UpdateBookRequest.Title req = Some t ->
        Book.Title b = Strings.TrimSpace t /\ Book.Title b <> "") /\
     (forall isbn, UpdateBookRequest.ISBN req = Some isbn ->
        Book.ISBN b = Service.normalizeISBN isbn /\
        (String.length (Book.ISBN b) = 10%nat \/ String.length (Book.ISBN b) = 13%nat)) /\
     (forall c', cache s' = Some c' -> inMemory c' !! uuid_String id = None)).
Proof.
  unfold ServiceMore.UpdateBook. intros H.
  destruct (BookRepo.GetByID (bookRepo s) id (u_get_fault w)) as [cur0|e].
  2: { injection H as <- _ <-. repeat split; try discriminate. }
  destruct (ServiceMore.validateUpdateRequest req) as [e|] eqn:Hv.
  { injection H as <- _ <-. repeat split; try discriminate. }
  destruct (match UpdateBookRequest.ISBN req with Some _ => _ | None => _ end) as [e|].
  { injection H as <- _ <-. repeat split; try discriminate. }
  pose proof (Update_row (bookRepo s) id (ServiceMore.normalizeUpdate req) (u_now w)
                (u_get_fault2 w) (u_update_fault w)) as Hu.
  destruct (BookRepo.Update _ _ _ _ _ _) as [[book|e] db].
  2: { injection H as <- _ <-. repeat split; try discriminate. }
  destruct Hu as (cur & Hid & Hisbn & Htitle & Hlen & Hget).
  destruct (validateUpdateRequest_fields req Hv) as [Ht Hi].
  injection H as <- <- <-.
  split; [simpl; now destruct (cache s)|].
  split; [simpl; now destruct (cache s)|].
  split; [discriminate|].
  intros b Hb. injection Hb as <-.
  assert (Hrepo : bookRepo (Service.recordMetrics
                    match cache s with
                    | Some c =>
                        Service.with_cache (ServiceMore.with_repo s db)
                          (Some (BookCacheOps.InvalidateBook
                                   (BookCacheOps.SetBook c book (u_set_now w) (u_set_net w))
                                   (Book.ID book) (u_net1 w) (u_net2 w)))
                    | None => ServiceMore.with_repo s db
                    end (u_elapsed w)) = db).
  { simpl. now destruct (cache s). }
  rewrite Hrepo.
  split; [reflexivity|]. split; [reflexivity|]. split; [exact Hid|].
  split; [exact Hget|]. split; [exact Hlen|]. split; [|split].
  - intros t E. simpl in Htitle. rewrite E in Htitle. simpl in Htitle.
    split; [exact Htitle | rewrite Htitle; now apply Ht].
  - intros isbn E. simpl in Hisbn. rewrite E in Hisbn. simpl in Hisbn.
    split; [exact Hisbn | rewrite Hisbn; now apply Hi].
  - intros c'. simpl. destruct (cache s) as [c|] eqn:Hc; simpl; rewrite ?Hc; simpl;
      [|discriminate].
    intros E. injection E as <-. rewrite <- Hid. apply InvalidateBook_drops_book.
Qed.

Lemma UpdateBook_effects_witness :
  exists r req' s',
    ServiceMore.UpdateBook
      (Service.NewBookService [Sample.hobbit] (Some Sample.local_cache) None)
      Sample.id1
      (UpdateBookRequest.mk None None None None None None None None (Some false))
      (mkUpdateWorld None None None None 2000 2000 true true true 1000) = (r, req', s') /\
    RequestCount (metrics s')
    = inc64 (RequestCount
               (metrics (Service.NewBookService [Sample.hobbit]
                           (Some Sample.local_cache) None))).
Proof.
  eexists _, _, _. split; [reflexivity|].
  eapply (UpdateBook_effects
            (Service.NewBookService [Sample.hobbit] (Some Sample.local_cache) None) _
            Sample.id1
            (UpdateBookRequest.mk None None None None None None None None (Some false)) _
            (mkUpdateWorld None None None None 2000 2000 true true true 1000) _).
  reflexivity.
Defined.

Section StatusFacts.

Lemma string_app_assoc (a b c : string) : (a +:+ b) +:+ c = a +:+ b +:+ c.
Proof.
  induction a as [|x a IH]; [reflexivity|].
  change ((String x a +:+ b) +:+ c) with (String x ((a +:+ b) +:+ c)).
  now rewrite IH.
Qed.

Lemma not_found_prefix (e : string) :
  Handlers.isNotFoundError ("book not found: " +:+ e) = true.
Proof.
  unfold Handlers.isNotFoundError.
  change ("book not found: " +:+ e) with ("book " +:+ "not found" +:+ (": " +:+ e)).
  apply contains_of_occurrence.
Qed.

End StatusFacts.

(** X26.  How the handlers classify what the service reports.  Every
    message of [validateUpdateRequest], of [validateCreateRequest] and of
    the three validations of [CreateBook] gives status 400; "validation
    timeout" gives 500.  [UpdateBook] and [DeleteBook] report any failure
    of their first lookup, a missing row and a database failure alike, as
    "book not found: ...", which gives 404.  The message of a duplicate
    ISBN is recognized by [isDuplicateError] whatever the ISBN. *)
Theorem error_statuses :
  (forall req e, ServiceMore.validateUpdateRequest req = Some e -> Status.of_update e = 400) /\
  (forall req e, ServiceMore.validateCreateRequest req = Some e -> Status.of_create e = 400) /\
  (forall t e, Service.validateTitle t = Some e -> Status.of_create e = 400) /\
  (forall a e, Service.validateAuthor a = Some e -> Status.of_create e = 400) /\
  (forall i e, Service.validateISBN i = Some e -> Status.of_create e = 400) /\
  Status.of_create "validation timeout" = 500 /\
  (forall s id w e,
     BookRepo.GetByID (bookRepo s) id (d_get_fault w) = inr e ->
     exists msg,
       ServiceMore.DeleteBook s id w = (Some msg, Service.recordMetrics s (d_elapsed w)) /\
       Status.of_delete msg = 404) /\
  (forall s id req w e,
     BookRepo.GetByID (bookRepo s) id (u_get_fault w) = inr e ->
     exists msg,
       ServiceMore.UpdateBook s id req w
       = ((None, Some msg), req, Service.recordMetrics s (u_elapsed w)) /\
       Status.of_update msg = 404) /\
  (forall isbn,
     Handlers.isDuplicateError ("book with ISBN " +:+ isbn +:+ " already exists") = true).
Proof.
  split; [|split; [|split; [|split; [|split; [|split; [|split; [|split]]]]]]].
  - intros req e. unfold ServiceMore.validateUpdateRequest.
    destruct (ServiceMore.blank (UpdateBookRequest.Title req));
      [intros H; injection H as <-; reflexivity|].
    destruct (ServiceMore.blank (UpdateBookRequest.Author req));
      [intros H; injection H as <-; reflexivity|].
    destruct (UpdateBookRequest.ISBN req) as [isbn|].
    + destruct (String.eqb _ _); [intros H; injection H as <-; reflexivity|].
      destruct (negb _); [intros H; injection H as <-; reflexivity|].
      destruct (UpdateBookRequest.Pages req) as [p|]; [|discriminate].
      destruct (p <=? 0); [intros H; injection H as <-; reflexivity | discriminate].
    + destruct (UpdateBookRequest.Pages req) as [p|]; [|discriminate].
      destruct (p <=? 0); [intros H; injection H as <-; reflexivity | discriminate].
  - intros req e. unfold ServiceMore.validateCreateRequest.
    repeat (match goal with
            | |- (if ?b then _ else _) = _ -> _ =>
                destruct b; [intros H; injection H as <-; reflexivity|]
            end).
    discriminate.
  - intros t e. unfold Service.validateTitle.
    destruct (String.eqb _ _); [intros H; injection H as <-; reflexivity | discriminate].
  - intros a e. unfold Service.validateAuthor.
    destruct (String.eqb _ _); [intros H; injection H as <-; reflexivity | discriminate].
  - intros i e. unfold Service.validateISBN.
    destruct (String.eqb _ _); [intros H; injection H as <-; reflexivity|].
    destruct (negb _); [intros H; injection H as <-; reflexivity | discriminate].
  - reflexivity.
  - intros s id w e He. exists ("book not found: " +:+ e).
    unfold ServiceMore.DeleteBook. rewrite He. split; [reflexivity|].
    unfold Status.of_delete. now rewrite not_found_prefix.
  - intros s id req w e He. exists ("book not found: " +:+ e).
    unfold ServiceMore.UpdateBook. rewrite He. split; [reflexivity|].
    unfold Status.of_update. now rewrite not_found_prefix.
  - intros isbn. unfold Handlers.isDuplicateError.
    replace ("book with ISBN " +:+ isbn +:+ " already exists")
      with (("book with ISBN " +:+ isbn +:+ " ") +:+ "already exists" +:+ "").
    + apply contains_of_occurrence.
    + rewrite !string_app_assoc. reflexivity.
Qed.
